(** * archive-metadata-tools: title parsing, date canonicalisation and
      batch policies, embedded in Rocq.

    The Python sources are embedded function by function.  Strings are
    sequences of code points below 256 ([ascii]); on that range the character
    classes of Python's [re] module ([\d], [\s], [\w], [.]) and the methods
    [str.strip], [str.lower] and [str.zfill] are written out below.  Regular
    expressions are kept as syntax trees and run by a backtracking matcher
    that tries alternatives in the order Python's [re] does. *)

From Stdlib Require Import String Ascii List Bool Arith Lia DecimalString.
From Stdlib Require Import Sorting.Sorted Sorting.Permutation.
Import ListNotations.
Set Warnings "-abstract-large-number".
Open Scope string_scope.
Open Scope nat_scope.

(* ================================================================== *)
(** ** Characters and Python string methods *)
(* ================================================================== *)

Definition code (c : ascii) : nat := nat_of_ascii c.

Definition between (lo hi : nat) (c : ascii) : bool :=
  (lo <=? code c) && (code c <=? hi).

(** [\d]: the decimal digits (below 256 these are exactly '0'..'9'). *)
Definition is_digit (c : ascii) : bool := between 48 57 c.

(** [str.isspace] / [\s] on code points below 256. *)
Definition is_space (c : ascii) : bool :=
  between 9 13 c || between 28 32 c || (code c =? 133) || (code c =? 160).

(** [\w] on code points below 256: alphanumerics and the underscore. *)
Definition is_word (c : ascii) : bool :=
  is_digit c || between 65 90 c || between 97 122 c || (code c =? 95)
  || (code c =? 170) || (code c =? 178) || (code c =? 179) || (code c =? 181)
  || (code c =? 185) || (code c =? 186) || between 188 190 c
  || between 192 214 c || between 216 246 c || between 248 255 c.

(** [str.lower] on one code point below 256. *)
Definition lower_char (c : ascii) : ascii :=
  if between 65 90 c || (between 192 222 c && negb (code c =? 215))
  then ascii_of_nat (code c + 32) else c.

Fixpoint lower (s : string) : string :=
  match s with
  | EmptyString => EmptyString
  | String c s' => String (lower_char c) (lower s')
  end.

Fixpoint lstrip (s : string) : string :=
  match s with
  | EmptyString => EmptyString
  | String c s' => if is_space c then lstrip s' else s
  end.

Fixpoint rstrip (s : string) : string :=
  match s with
  | EmptyString => EmptyString
  | String c s' =>
      match rstrip s' with
      | EmptyString => if is_space c then EmptyString else String c EmptyString
      | r => String c r
      end
  end.

(** [str.strip()] *)
Definition strip (s : string) : string := rstrip (lstrip s).

Fixpoint zeros (n : nat) : string :=
  match n with
  | O => EmptyString
  | S n' => String "0" (zeros n')
  end.

(** [str.zfill(width)]: left-pad with '0', after a leading sign if any. *)
Definition zfill (width : nat) (s : string) : string :=
  let n := String.length s in
  if width <=? n then s
  else match s with
       | String c s' =>
           if Ascii.eqb c "+" || Ascii.eqb c "-"
           then String c (zeros (width - n) ++ s')
           else zeros (width - n) ++ s
       | EmptyString => zeros width
       end.

(** [str.endswith] *)
Fixpoint endswith (s suffix : string) : bool :=
  if String.eqb s suffix then true
  else match s with
       | EmptyString => false
       | String _ s' => endswith s' suffix
       end.

(** Python truthiness of an optional string: [None] and [''] are falsy. *)
Definition truthy (o : option string) : bool :=
  match o with
  | Some (String _ _) => true
  | _ => false
  end.

(** [a or b] on optional strings. *)
Definition or_else (a b : option string) : option string :=
  if truthy a then a else b.

(* ================================================================== *)
(** ** Regular expressions (the fragment of Python's [re] the tools use) *)
(* ================================================================== *)

Module Re.

(** One-character items. *)
Inductive cset : Type :=
| Lit (c : ascii)            (* a literal character *)
| Digit                      (* \d *)
| Space                      (* \s *)
| Dot                        (* .  (anything but a newline) *)
| NoneOf (c : ascii)         (* [^c] *)
| Range (lo hi : ascii).     (* [lo-hi] *)

Definition newline : ascii := ascii_of_nat 10.

(** [icase] is the [re.I] flag. *)
Definition cset_match (icase : bool) (cs : cset) (c : ascii) : bool :=
  match cs with
  | Lit x => if icase then Ascii.eqb (lower_char c) (lower_char x) else Ascii.eqb c x
  | Digit => is_digit c
  | Space => is_space c
  | Dot => negb (Ascii.eqb c newline)
  | NoneOf x =>
      negb (if icase then Ascii.eqb (lower_char c) (lower_char x) else Ascii.eqb c x)
  | Range lo hi => between (code lo) (code hi) c
  end.

Inductive regex : Type :=
| Empty
| Chr (cs : cset)
| Rep (cs : cset) (lo : nat) (hi : option nat) (greedy : bool)
      (* cs{lo,hi}; hi = None is unbounded; greedy = false is the lazy form *)
| Cat (r1 r2 : regex)
| Alt (r1 r2 : regex)
| Group (n : nat) (r : regex)      (* n-th capturing group *)
| Bol                              (* ^ *)
| Eol                              (* $ *)
| WordB.                           (* \b *)

Fixpoint cat (rs : list regex) : regex :=
  match rs with
  | [] => Empty
  | [r] => r
  | r :: rs' => Cat r (cat rs')
  end.

Fixpoint lit (s : string) : list regex :=
  match s with
  | EmptyString => []
  | String c s' => Chr (Lit c) :: lit s'
  end.

(** The matcher's position: the character before the cursor, the text after
    it, the groups still open (with what they have consumed so far) and the
    groups already closed. *)
Record state : Type := mkState {
  prev : option ascii;
  rest : string;
  opened : list (nat * string);
  closed : list (nat * string)
}.

Definition snoc (s : string) (c : ascii) : string := s ++ String c EmptyString.

Definition advance (c : ascii) (s' : string) (st : state) : state :=
  mkState (Some c) s' (map (fun g => (fst g, snoc (snd g) c)) (opened st)) (closed st).

Definition open_group (n : nat) (st : state) : state :=
  mkState (prev st) (rest st) ((n, EmptyString) :: opened st) (closed st).

Definition close_group (st : state) : state :=
  match opened st with
  | [] => st
  | g :: gs => mkState (prev st) (rest st) gs (g :: closed st)
  end.

Definition orelse {A} (a b : option A) : option A :=
  match a with
  | Some x => Some x
  | None => b
  end.

Definition cont : Type := state -> option state.

Definition step (icase : bool) (cs : cset) (st : state) (k : cont) : option state :=
  match rest st with
  | EmptyString => None
  | String c s' => if cset_match icase cs c then k (advance c s' st) else None
  end.

(** Exactly [n] characters of the class. *)
Fixpoint times (icase : bool) (cs : cset) (n : nat) (st : state) (k : cont)
  : option state :=
  match n with
  | O => k st
  | S n' => step icase cs st (fun st' => times icase cs n' st' k)
  end.

(** At most [n] further characters of the class, longest first when greedy. *)
Fixpoint upto (icase : bool) (cs : cset) (greedy : bool) (n : nat)
  (st : state) (k : cont) : option state :=
  match n with
  | O => k st
  | S n' =>
      let more := step icase cs st (fun st' => upto icase cs greedy n' st' k) in
      if greedy then orelse more (k st) else orelse (k st) more
  end.

(** Any number of further characters of the class. *)
Fixpoint many (icase : bool) (cs : cset) (greedy : bool)
  (p : option ascii) (s : string) (op cl : list (nat * string)) (k : cont)
  : option state :=
  let st := mkState p s op cl in
  match s with
  | EmptyString => k st
  | String c s' =>
      let more :=
        if cset_match icase cs c
        then let st' := advance c s' st in
             many icase cs greedy (prev st') s' (opened st') (closed st') k
        else None in
      if greedy then orelse more (k st) else orelse (k st) more
  end.

Definition opt_word (o : option ascii) : bool :=
  match o with
  | Some c => is_word c
  | None => false
  end.

Definition next (st : state) : option ascii :=
  match rest st with
  | EmptyString => None
  | String c _ => Some c
  end.

(** [$] without [re.M]: at the end, or just before a final newline. *)
Definition at_eol (s : string) : bool :=
  match s with
  | EmptyString => true
  | String c EmptyString => Ascii.eqb c newline
  | _ => false
  end.

Fixpoint run (icase : bool) (r : regex) (st : state) (k : cont) : option state :=
  match r with
  | Empty => k st
  | Chr cs => step icase cs st k
  | Rep cs lo hi greedy =>
      times icase cs lo st (fun st' =>
        match hi with
        | Some h => upto icase cs greedy (h - lo) st' k
        | None => many icase cs greedy (prev st') (rest st') (opened st') (closed st') k
        end)
  | Cat r1 r2 => run icase r1 st (fun st' => run icase r2 st' k)
  | Alt r1 r2 => orelse (run icase r1 st k) (run icase r2 st k)
  | Group n r' => run icase r' (open_group n st) (fun st' => k (close_group st'))
  | Bol => match prev st with None => k st | Some _ => None end
  | Eol => if at_eol (rest st) then k st else None
  | WordB => if xorb (opt_word (prev st)) (opt_word (next st)) then k st else None
  end.

(** A match object: the captured groups and the text after the match. *)
Definition here (icase : bool) (r : regex) (p : option ascii) (s : string)
  : option state :=
  run icase r (mkState p s [] []) (fun st => Some st).

(** [re.match]: at the start of the string only. *)
Definition rmatch (icase : bool) (r : regex) (s : string) : option state :=
  here icase r None s.

(** [re.search]: the first position, left to right, where a match starts. *)
Fixpoint search_from (icase : bool) (r : regex) (p : option ascii) (s : string)
  : option state :=
  match here icase r p s with
  | Some st => Some st
  | None =>
      match s with
      | EmptyString => None
      | String c s' => search_from icase r (Some c) s'
      end
  end.

Definition search (icase : bool) (r : regex) (s : string) : option state :=
  search_from icase r None s.

Fixpoint assoc (n : nat) (l : list (nat * string)) : option string :=
  match l with
  | [] => None
  | (i, s) :: l' => if i =? n then Some s else assoc n l'
  end.

(** [match.group(n)] *)
Definition group (n : nat) (st : state) : option string := assoc n (closed st).

(** [match.groups()] of a pattern with [n] groups. *)
Definition groups (n : nat) (st : state) : list (option string) :=
  map (fun i => group i st) (seq 1 n).

(** [re.sub(r, '', s)]: delete every non-overlapping match, left to right.
    [skip] counts the characters of the current match still to drop. *)
Fixpoint sub_from (icase : bool) (r : regex) (skip : nat) (p : option ascii)
  (s : string) : string :=
  match s with
  | EmptyString => EmptyString
  | String c s' =>
      match skip with
      | S k => sub_from icase r k (Some c) s'
      | O =>
          match here icase r p s with
          | Some st =>
              match String.length s - String.length (rest st) with
              | O => String c (sub_from icase r 0 (Some c) s')
              | S k => sub_from icase r k (Some c) s'
              end
          | None => String c (sub_from icase r 0 (Some c) s')
          end
      end
  end.

Definition sub_empty (icase : bool) (r : regex) (s : string) : string :=
  sub_from icase r 0 None s.

End Re.

Import Re.

(** Pattern shorthands: [ch c] is the literal [c], [dN n] is [\d{n}],
    [d12] is [\d{1,2}], [sp1] is [\s+] and [sp0] is [\s*]. *)
Definition ch (c : ascii) : regex := Chr (Lit c).
Definition dN (n : nat) : regex := Rep Digit n (Some n) true.
Definition d12 : regex := Rep Digit 1 (Some 2) true.
Definition sp1 : regex := Rep Space 1 None true.
Definition sp0 : regex := Rep Space 0 None true.

(** The text of a group; every group of the patterns below takes part in
    every match, so the default is never used. *)
Definition grp (n : nat) (mt : state) : string :=
  match group n mt with
  | Some s => s
  | None => EmptyString
  end.

(* ================================================================== *)
(** ** [datetime.strptime] for the directives the tools use *)
(** [strptime] is Python library code that [extract_date_from_title] calls.
    It is written out after CPython's [_strptime]: the format becomes a
    regular expression (matched with [re.I]) with one group per directive,
    the whole string must be consumed, a %y year gets its century, and the
    [datetime] constructor rejects what is not a calendar date. *)
(* ================================================================== *)

Module Strptime.

Record date : Type := mkDate { year : nat; month : nat; day : nat }.

Definition digit_range (lo hi : ascii) : regex := Chr (Range lo hi).

(** The regular expression of one directive, as in CPython's [_strptime]:
    %Y = (\d\d\d\d), %y = (\d\d), %m = (1[0-2]|0[1-9]|[1-9]),
    %d = (3[0-1]|[1-2]\d|0[1-9]|[1-9]| [1-9]).
    Groups: 1 = Y, 2 = m, 3 = d, 4 = y. *)
Definition year4_re : regex := Group 1 (cat [Chr Digit; Chr Digit; Chr Digit; Chr Digit]).
Definition year2_re : regex := Group 4 (cat [Chr Digit; Chr Digit]).
Definition month_re : regex :=
  Group 2 (Alt (Cat (ch "1") (digit_range "0" "2"))
          (Alt (Cat (ch "0") (digit_range "1" "9"))
               (digit_range "1" "9"))).
Definition day_re : regex :=
  Group 3 (Alt (Cat (ch "3") (digit_range "0" "1"))
          (Alt (Cat (digit_range "1" "2") (Chr Digit))
          (Alt (Cat (ch "0") (digit_range "1" "9"))
          (Alt (digit_range "1" "9")
               (Cat (ch " ") (digit_range "1" "9")))))).

Definition directive (d : ascii) : option regex :=
  if Ascii.eqb d "Y" then Some year4_re
  else if Ascii.eqb d "y" then Some year2_re
  else if Ascii.eqb d "m" then Some month_re
  else if Ascii.eqb d "d" then Some day_re
  else None.

Fixpoint format_regex (fmt : string) : option (list regex) :=
  match fmt with
  | EmptyString => Some []
  | String c fmt' =>
      if Ascii.eqb c "%" then
        match fmt' with
        | String d fmt'' =>
            match directive d, format_regex fmt'' with
            | Some r, Some rs => Some (r :: rs)
            | _, _ => None
            end
        | EmptyString => None
        end
      else option_map (cons (ch c)) (format_regex fmt')
  end.

Definition digit_val (c : ascii) : nat := code c - 48.

(** [int(s)] for the texts the directives can capture. *)
Fixpoint int_acc (acc : nat) (s : string) : nat :=
  match s with
  | EmptyString => acc
  | String c s' => if is_digit c then int_acc (10 * acc + digit_val c) s' else int_acc acc s'
  end.

Definition int (s : string) : nat := int_acc 0 s.

Definition is_leap (y : nat) : bool :=
  (y mod 4 =? 0) && (negb (y mod 100 =? 0) || (y mod 400 =? 0)).

Definition days_in_month (y m : nat) : nat :=
  match m with
  | 1 | 3 | 5 | 7 | 8 | 10 | 12 => 31
  | 4 | 6 | 9 | 11 => 30
  | 2 => if is_leap y then 29 else 28
  | _ => 0
  end.

(** The century of a two-digit year, as [_strptime] adds it:
    [if year <= 68: year += 2000 else: year += 1900]. *)
Definition two_digit_year (yy : nat) : nat :=
  if yy <=? 68 then yy + 2000 else yy + 1900.

(** What the [datetime] constructor accepts. *)
Definition valid_date (y m d : nat) : bool :=
  (1 <=? y) && (y <=? 9999) && (1 <=? m) && (m <=? 12)
  && (1 <=? d) && (d <=? days_in_month y m).

(** [datetime.strptime(data_string, fmt)]; [None] stands for [ValueError]. *)
Definition strptime (data_string fmt : string) : option date :=
  match format_regex fmt with
  | None => None
  | Some rs =>
      match rmatch true (cat rs) data_string with
      | None => None
      | Some found =>
          match rest found with
          | String _ _ => None                      (* unconverted data remains *)
          | EmptyString =>
              let y :=
                match group 4 found, group 1 found with
                | Some yy, _ => two_digit_year (int yy)
                | None, Some yyyy => int yyyy
                | None, None => 1900
                end in
              let m := match group 2 found with Some s => int s | None => 1 end in
              let d := match group 3 found with Some s => int s | None => 1 end in
              if valid_date y m d then Some (mkDate y m d) else None
          end
      end
  end.

End Strptime.

Import Strptime.

(** [f'{n:0{width}d}'] *)
Definition pad_num (width n : nat) : string :=
  zfill width (NilEmpty.string_of_uint (Nat.to_uint n)).

(** [f'{parsed.year:04d}-{parsed.month:02d}-{parsed.day:02d}'] *)
Definition format_date (parsed : date) : string :=
  pad_num 4 (year parsed) ++ "-" ++ pad_num 2 (month parsed) ++ "-" ++ pad_num 2 (day parsed).

(* ================================================================== *)
(** ** analyze_metadata.py *)
(* ================================================================== *)

Module Analyze.

(** *** extract_band_from_title *)

Definition band_patterns : list regex :=
  [ (* ^([^@]+?)\s*@ *)
    cat [Bol; Group 1 (Rep (NoneOf "@") 1 None false); sp0; ch "@"];
    (* ^(.+?)\s+on\s+\d *)
    cat ([Bol; Group 1 (Rep Dot 1 None false); sp1] ++ lit "on" ++ [sp1; Chr Digit]);
    (* ^(.+?)\s+in\s+\d *)
    cat ([Bol; Group 1 (Rep Dot 1 None false); sp1] ++ lit "in" ++ [sp1; Chr Digit]) ]%list.

Definition band_stoplist : list string := ["live"; "show"; "concert"; "performance"].

Definition in_list (s : string) (l : list string) : bool := existsb (String.eqb s) l.

Fixpoint band_loop (patterns : list regex) (title : string) : option string :=
  match patterns with
  | [] => None
  | pattern :: patterns' =>
      match search false pattern title with
      | Some mt =>
          if truthy (group 1 mt) then
            let band_name := strip (grp 1 mt) in
            if (2 <? String.length band_name) && negb (in_list (lower band_name) band_stoplist)
            then Some band_name
            else band_loop patterns' title
          else band_loop patterns' title
      | None => band_loop patterns' title
      end
  end.

Definition extract_band_from_title (title : string) : option string :=
  match title with
  | EmptyString => None
  | _ => band_loop band_patterns title
  end.

(** *** extract_venue_from_title *)

(** (?:\s+on\s|\s+\[|\s+\d{4}|$) *)
Definition venue_stop : regex :=
  Alt (cat ([sp1] ++ lit "on" ++ [Chr Space]))
 (Alt (cat [sp1; ch "["])
 (Alt (cat [sp1; dN 4])
      Eol))%list.

Definition venue_patterns : list regex :=
  [ (* @\s+([^(]+?)\s*\( *)
    cat [ch "@"; sp1; Group 1 (Rep (NoneOf "(") 1 None false); sp0; ch "("];
    (* @\s+(.+?)(?:\s+on\s|\s+\[|\s+\d{4}|$) *)
    cat [ch "@"; sp1; Group 1 (Rep Dot 1 None false); venue_stop];
    (* \bat\s+([^(]+?)\s*\( *)
    cat ([WordB] ++ lit "at" ++ [sp1; Group 1 (Rep (NoneOf "(") 1 None false); sp0; ch "("]);
    (* \bat\s+(.+?)(?:\s+on\s|\s+\[|\s+\d{4}|$) *)
    cat ([WordB] ++ lit "at" ++ [sp1; Group 1 (Rep Dot 1 None false); venue_stop]);
    (* live\s+at\s+([^(]+?)\s*\( *)
    cat (lit "live" ++ [sp1] ++ lit "at"
         ++ [sp1; Group 1 (Rep (NoneOf "(") 1 None false); sp0; ch "("]);
    (* live\s+at\s+(.+?)(?:\s+on\s|\s+\[|\s+\d{4}|$) *)
    cat (lit "live" ++ [sp1] ++ lit "at"
         ++ [sp1; Group 1 (Rep Dot 1 None false); venue_stop]) ]%list.

(** \s*\([^)]*\) *)
Definition paren_re : regex :=
  cat [sp0; ch "("; Rep (NoneOf ")") 0 None true; ch ")"].

Fixpoint venue_loop (patterns : list regex) (title : string) : option string :=
  match patterns with
  | [] => None
  | pattern :: patterns' =>
      match search true pattern title with
      | Some mt =>
          if truthy (group 1 mt) then
            let venue := strip (grp 1 mt) in
            let venue := strip (sub_empty false paren_re venue) in
            if 2 <? String.length venue then Some venue
            else venue_loop patterns' title
          else venue_loop patterns' title
      | None => venue_loop patterns' title
      end
  end.

Definition extract_venue_from_title (title : string) : option string :=
  match title with
  | EmptyString => None
  | _ => venue_loop venue_patterns title
  end.

(** *** extract_date_from_title *)

Definition date_patterns : list (regex * string) :=
  [ (Group 1 (cat [dN 4; ch "-"; dN 2; ch "-"; dN 2]), "%Y-%m-%d");
    (Group 1 (cat [d12; ch "/"; d12; ch "/"; dN 4]), "%m/%d/%Y");
    (Group 1 (cat [d12; ch "."; d12; ch "."; dN 4]), "%m.%d.%Y");
    (Group 1 (cat [d12; ch "/"; d12; ch "/"; dN 2]), "%m/%d/%y");
    (Group 1 (cat [d12; ch "."; d12; ch "."; dN 2]), "%m.%d.%y");
    (Group 1 (dN 4), "%Y") ].

Fixpoint date_loop (patterns : list (regex * string)) (title : string) : option string :=
  match patterns with
  | [] => None
  | (pattern, date_format) :: patterns' =>
      match search false pattern title with
      | Some mt =>
          let date_str := grp 1 mt in
          if String.eqb date_format "%Y" then Some (date_str ++ "-01-01")
          else if endswith date_format "%y" then
            match strptime date_str date_format with
            | Some parsed => Some (format_date parsed)
            | None => date_loop patterns' title          (* except ValueError: continue *)
            end
          else
            match strptime date_str date_format with
            | Some parsed => Some (format_date parsed)
            | None => date_loop patterns' title
            end
      | None => date_loop patterns' title
      end
  end.

Definition extract_date_from_title (title : string) : option string :=
  match title with
  | EmptyString => None
  | _ => date_loop date_patterns title
  end.

(** *** standardize_date *)

Definition mmddyy_re : regex :=     (* ^(\d{1,2})/(\d{1,2})/(\d{2})$ *)
  cat [Bol; Group 1 d12; ch "/"; Group 2 d12; ch "/"; Group 3 (dN 2); Eol].
Definition mmddyyyy_re : regex :=   (* ^(\d{1,2})/(\d{1,2})/(\d{4})$ *)
  cat [Bol; Group 1 d12; ch "/"; Group 2 d12; ch "/"; Group 3 (dN 4); Eol].
Definition ddmmyy_re : regex :=     (* ^(\d{1,2})\.(\d{1,2})\.(\d{2})$ *)
  cat [Bol; Group 1 d12; ch "."; Group 2 d12; ch "."; Group 3 (dN 2); Eol].
Definition ddmmyyyy_re : regex :=   (* ^(\d{1,2})\.(\d{1,2})\.(\d{4})$ *)
  cat [Bol; Group 1 d12; ch "."; Group 2 d12; ch "."; Group 3 (dN 4); Eol].
Definition iso_date_re : regex :=   (* ^(\d{4}-\d{2}-\d{2})T *)
  cat [Bol; Group 1 (cat [dN 4; ch "-"; dN 2; ch "-"; dN 2]); ch "T"].
Definition yyyymmdd_re : regex :=   (* ^\d{4}-\d{2}-\d{2}$ *)
  cat [Bol; dN 4; ch "-"; dN 2; ch "-"; dN 2; Eol].
Definition yyyy_re : regex :=       (* ^\d{4}$ *)
  cat [Bol; dN 4; Eol].

Definition standardize_date (date_str : string) : string :=
  match date_str with
  | EmptyString => date_str
  | _ =>
  match rmatch false mmddyy_re date_str with
  | Some mt =>
      let month := grp 1 mt in let day := grp 2 mt in let year := grp 3 mt in
      let full_year := "20" ++ year in
      full_year ++ "-" ++ zfill 2 month ++ "-" ++ zfill 2 day
  | None =>
  match rmatch false mmddyyyy_re date_str with
  | Some mt =>
      let month := grp 1 mt in let day := grp 2 mt in let year := grp 3 mt in
      year ++ "-" ++ zfill 2 month ++ "-" ++ zfill 2 day
  | None =>
  match rmatch false ddmmyy_re date_str with
  | Some mt =>
      let day := grp 1 mt in let month := grp 2 mt in let year := grp 3 mt in
      let full_year := "20" ++ year in
      full_year ++ "-" ++ zfill 2 month ++ "-" ++ zfill 2 day
  | None =>
  match rmatch false ddmmyyyy_re date_str with
  | Some mt =>
      let day := grp 1 mt in let month := grp 2 mt in let year := grp 3 mt in
      year ++ "-" ++ zfill 2 month ++ "-" ++ zfill 2 day
  | None =>
  match rmatch false iso_date_re date_str with
  | Some mt => grp 1 mt
  | None =>
  match rmatch false yyyymmdd_re date_str with
  | Some _ => date_str
  | None =>
  match rmatch false yyyy_re date_str with
  | Some _ => date_str ++ "-01-01"
  | None => date_str                (* unrecognized: returned as-is *)
  end end end end end end end
  end.

(** *** The records *)

Inductive Issue : Type := missing_band | missing_venue | missing_date | bad_date_format.

Definition Issue_eqb (a b : Issue) : bool :=
  match a, b with
  | missing_band, missing_band | missing_venue, missing_venue
  | missing_date, missing_date | bad_date_format, bad_date_format => true
  | _, _ => false
  end.

(** One document of the search response; every field may be absent. *)
Record Item : Type := mkItem {
  item_identifier : option string;
  item_title : option string;
  item_band : option string;
  item_venue : option string;
  item_date : option string;
  item_publicdate : option string
}.

Record Current : Type := mkCurrent {
  cur_band : option string;
  cur_venue : option string;
  cur_date : option string
}.

(** An entry of metadata_issues.json.  [suggestions] is the JSON object, in
    insertion order. *)
Record IssueRecord : Type := mkIssue {
  identifier : string;
  title : string;
  current : Current;
  issues : list Issue;
  suggestions : list (string * string)
}.

Definition get_or (o : option string) (default : string) : string :=
  match o with
  | Some s => s
  | None => default
  end.

(** *** analyze_items: the date rules (the ``Check date issues'' block) *)

Definition check_date (date_to_check : option string) (title : string)
  : option (Issue * string) :=
  if negb (truthy date_to_check) then
    let suggested_date := extract_date_from_title title in
    if truthy suggested_date
    then Some (missing_date, get_or suggested_date "")
    else None
  else
    let raw := get_or date_to_check "" in
    let standardized_date := standardize_date raw in
    let title_date := extract_date_from_title title in
    if truthy title_date && endswith standardized_date "-01-01"
       && negb (endswith (get_or title_date "") "-01-01")
    then
      if negb (String.eqb standardized_date (get_or title_date ""))
      then Some (bad_date_format, get_or title_date "")
      else None
    else if negb (String.eqb standardized_date raw)
    then Some (bad_date_format, standardized_date)
    else None.

(** *** analyze_items: one iteration of the loop *)

Definition analyze_item (item : Item) : option IssueRecord :=
  let identifier := get_or (item_identifier item) "" in
  let title := get_or (item_title item) "" in
  let band := item_band item in
  let date := item_date item in
  let publicdate := item_publicdate item in
  let venue := item_venue item in
  let issues : list Issue := [] in
  let suggestions : list (string * string) := [] in
  let '(issues, suggestions) :=
    if negb (truthy band) then
      let suggested_band := extract_band_from_title title in
      if truthy suggested_band
      then (issues ++ [missing_band], suggestions ++ [("band", get_or suggested_band "")])%list
      else (issues, suggestions)
    else (issues, suggestions) in
  let '(issues, suggestions) :=
    if negb (truthy venue) then
      let suggested_venue := extract_venue_from_title title in
      if truthy suggested_venue
      then (issues ++ [missing_venue], suggestions ++ [("venue", get_or suggested_venue "")])%list
      else (issues, suggestions)
    else (issues, suggestions) in
  let date_to_check := or_else date publicdate in
  let '(issues, suggestions) :=
    match check_date date_to_check title with
    | Some (issue, suggested) =>
        (issues ++ [issue], suggestions ++ [("date", suggested)])%list
    | None => (issues, suggestions)
    end in
  match issues with
  | [] => None
  | _ => Some (mkIssue identifier title (mkCurrent band venue date_to_check)
                       issues suggestions)
  end.

Fixpoint analyze_items (items : list Item) : list IssueRecord :=
  match items with
  | [] => []
  | item :: items' =>
      match analyze_item item with
      | Some r => r :: analyze_items items'
      | None => analyze_items items'
      end
  end.

(** *** sort_issues_by_type *)

(** [set(l) == {x}] *)
Definition set_is (x : Issue) (l : list Issue) : bool :=
  match l with
  | [] => false
  | _ => forallb (Issue_eqb x) l
  end.

(** [x in set(l)] *)
Definition mem (x : Issue) (l : list Issue) : bool := existsb (Issue_eqb x) l.

Definition tier (l : list Issue) : nat :=
  if set_is bad_date_format l then 1
  else if mem missing_band l && mem missing_venue l then 2
  else if mem missing_band l && mem bad_date_format l then 3
  else if mem missing_venue l && mem bad_date_format l then 4
  else if set_is missing_band l then 5
  else if set_is missing_venue l then 6
  else 7.

Definition get_sort_key (issue : IssueRecord) : nat * string :=
  (tier (issues issue), identifier issue).

(** Python's ordering of [(int, str)] tuples. *)
Definition key_le (a b : nat * string) : bool :=
  (fst a <? fst b) || ((fst a =? fst b) && String.leb (snd a) (snd b)).

(** [list.sort(key=...)] is a stable sort; any stable sort computes the same
    list, here by insertion. *)
Fixpoint insert_by_key (x : IssueRecord) (l : list IssueRecord) : list IssueRecord :=
  match l with
  | [] => [x]
  | y :: l' =>
      if key_le (get_sort_key x) (get_sort_key y) then x :: l
      else y :: insert_by_key x l'
  end.

Fixpoint sort_issues_by_type (l : list IssueRecord) : list IssueRecord :=
  match l with
  | [] => []
  | x :: l' => insert_by_key x (sort_issues_by_type l')
  end.

End Analyze.

Import Analyze.


(* ================================================================== *)
(** ** Code shared by the three [parse_date_from_*] functions *)
(* ================================================================== *)

(** [len(match.groups())]: the number of groups of the pattern. *)
Fixpoint ngroups (r : regex) : nat :=
  match r with
  | Cat r1 r2 | Alt r1 r2 => ngroups r1 + ngroups r2
  | Group _ r' => S (ngroups r')
  | _ => 0
  end.

(** The body run on a successful match, the same text in
    [parse_date_from_identifier] and in both [parse_date_from_title]s. *)
Definition date_of_match (pattern : regex) (mt : state) : string :=
  if ngroups pattern =? 3 then
    let month := grp 1 mt in let day := grp 2 mt in let year := grp 3 mt in
    let year := if String.length year =? 2 then "20" ++ year else year in
    year ++ "-" ++ zfill 2 month ++ "-" ++ zfill 2 day
  else grp 1 mt.

(** Dictionaries with string keys, in insertion order. *)
Definition dict : Type := list (string * string).

Fixpoint dict_get (k : string) (d : dict) : option string :=
  match d with
  | [] => None
  | (k', v) :: d' => if String.eqb k' k then Some v else dict_get k d'
  end.

Definition dict_has (k : string) (d : dict) : bool :=
  match dict_get k d with
  | Some _ => true
  | None => false
  end.

(** [d[k] = v] *)
Fixpoint dict_set (k v : string) (d : dict) : dict :=
  match d with
  | [] => [(k, v)]
  | (k', v') :: d' => if String.eqb k' k then (k, v) :: d' else (k', v') :: dict_set k v d'
  end.

(* ================================================================== *)
(** ** audit_date_mismatches.py *)
(* ================================================================== *)

Module Audit.

Definition identifier_patterns : list regex :=
  [ (* ^(\d{2})\.(\d{2})\.(\d{2})_ *)
    cat [Bol; Group 1 (dN 2); ch "."; Group 2 (dN 2); ch "."; Group 3 (dN 2); ch "_"];
    (* ^(\d{1,2})\.(\d{1,2})\.(\d{2})_ *)
    cat [Bol; Group 1 d12; ch "."; Group 2 d12; ch "."; Group 3 (dN 2); ch "_"];
    (* ^(\d{4}-\d{2}-\d{2})- *)
    cat [Bol; Group 1 (cat [dN 4; ch "-"; dN 2; ch "-"; dN 2]); ch "-"] ].

Fixpoint identifier_loop (patterns : list regex) (identifier : string) : option string :=
  match patterns with
  | [] => None
  | pattern :: patterns' =>
      match rmatch false pattern identifier with
      | Some mt => Some (date_of_match pattern mt)
      | None => identifier_loop patterns' identifier
      end
  end.

Definition parse_date_from_identifier (identifier : string) : option string :=
  identifier_loop identifier_patterns identifier.

Definition title_patterns : list regex :=
  [ (* on (\d{2})\.(\d{2})\.(\d{2}) *)
    cat (lit "on " ++ [Group 1 (dN 2); ch "."; Group 2 (dN 2); ch "."; Group 3 (dN 2)]);
    (* on (\d{1,2})/(\d{1,2})/(\d{2,4}) *)
    cat (lit "on " ++ [Group 1 d12; ch "/"; Group 2 d12; ch "/";
                       Group 3 (Rep Digit 2 (Some 4) true)]);
    (* (\d{4}-\d{2}-\d{2}) *)
    Group 1 (cat [dN 4; ch "-"; dN 2; ch "-"; dN 2]);
    (* on (\d{2})-(\d{2})-(\d{2}) *)
    cat (lit "on " ++ [Group 1 (dN 2); ch "-"; Group 2 (dN 2); ch "-"; Group 3 (dN 2)]) ]%list.

Fixpoint title_loop (patterns : list regex) (title : string) : option string :=
  match patterns with
  | [] => None
  | pattern :: patterns' =>
      match search false pattern title with
      | Some mt => Some (date_of_match pattern mt)
      | None => title_loop patterns' title
      end
  end.

Definition parse_date_from_title (title : string) : option string :=
  title_loop title_patterns title.

Record Mismatch : Type := mkMismatch {
  m_identifier : string;
  m_title : string;
  identifier_date : string;
  title_date : string;
  current_archive_date : string
}.

Section AuditLoop.

(** [get_archive_metadata]: the metadata the archive returns for an
    identifier, [None] when the request fails. *)
Variable get_archive_metadata : string -> option dict.

(** [metadata.get('date', 'Not set') if metadata else 'Error fetching'] *)
Definition current_date_of (metadata : option dict) : string :=
  match metadata with
  | Some ((_ :: _) as md) => get_or (dict_get "date" md) "Not set"
  | _ => "Error fetching"
  end.

(** One iteration of the loop of [audit_date_mismatches]. *)
Definition audit_item (issue_item : IssueRecord) : option Mismatch :=
  let identifier := identifier issue_item in
  let title := title issue_item in
  let id_date := parse_date_from_identifier identifier in
  let title_date := parse_date_from_title title in
  if truthy id_date && truthy title_date
     && negb (String.eqb (get_or id_date "") (get_or title_date ""))
  then
    let metadata := get_archive_metadata identifier in
    let current_date := current_date_of metadata in
    Some (mkMismatch identifier title (get_or id_date "") (get_or title_date "")
                     current_date)
  else None.

Fixpoint audit_date_mismatches (issues : list IssueRecord) : list Mismatch :=
  match issues with
  | [] => []
  | issue_item :: issues' =>
      match audit_item issue_item with
      | Some mismatch => mismatch :: audit_date_mismatches issues'
      | None => audit_date_mismatches issues'
      end
  end.

End AuditLoop.

End Audit.

(* ================================================================== *)
(** ** fix_date_suggestions.py *)
(* ================================================================== *)

Module Fix.

Definition patterns : list regex :=
  [ (* (\d{2})\.(\d{2})\.(\d{2}) *)
    cat [Group 1 (dN 2); ch "."; Group 2 (dN 2); ch "."; Group 3 (dN 2)];
    (* (\d{1,2})/(\d{1,2})/(\d{2,4}) *)
    cat [Group 1 d12; ch "/"; Group 2 d12; ch "/"; Group 3 (Rep Digit 2 (Some 4) true)];
    (* (\d{4}-\d{2}-\d{2}) *)
    Group 1 (cat [dN 4; ch "-"; dN 2; ch "-"; dN 2]) ].

Fixpoint title_loop (patterns : list regex) (title : string) : option string :=
  match patterns with
  | [] => None
  | pattern :: patterns' =>
      match search false pattern title with
      | Some mt => Some (date_of_match pattern mt)
      | None => title_loop patterns' title
      end
  end.

Definition parse_date_from_title (title : string) : option string :=
  title_loop patterns title.

Definition set_suggestions (item : IssueRecord) (d : dict) : IssueRecord :=
  mkIssue (identifier item) (title item) (current item) (issues item) d.

(** One iteration of the loop of [main]: the item after the iteration and
    whether a fix was made. *)
Definition fix_item (item : IssueRecord) : IssueRecord * bool :=
  if dict_has "date" (suggestions item) then
    let title_date := parse_date_from_title (title item) in
    let current_suggested_date := get_or (dict_get "date" (suggestions item)) "" in
    if truthy title_date
       && negb (String.eqb (get_or title_date "") current_suggested_date)
    then (set_suggestions item (dict_set "date" (get_or title_date "") (suggestions item)),
          true)
    else (item, false)
  else (item, false).

(** The loop of [main]: the corrected list and [fixes_made]. *)
Fixpoint fix_all (issues : list IssueRecord) : list IssueRecord * nat :=
  match issues with
  | [] => ([], 0)
  | item :: issues' =>
      let '(item', fixed) := fix_item item in
      let '(rest', n) := fix_all issues' in
      (item' :: rest', if fixed then S n else n)
  end.

End Fix.

(* ================================================================== *)
(** ** apply_metadata_fixes.py *)
(* ================================================================== *)

Module Apply.

(** The result of a call that may raise. *)
Inductive outcome (A : Type) : Type :=
| Returned (a : A)
| Raised.
Arguments Returned {A} a.
Arguments Raised {A}.

(** What [apply_all_fixes] prints per item. *)
Inductive event : Type :=
| Updating (identifier : string)
| Succeeded (identifier : string)
| Failed (identifier : string)
| NoUpdates (identifier : string)
| Errored (identifier : string).

Section Fixer.

(** The remote archive, seen through the [internetarchive] library. *)
Variable World : Type.
(** [ia.get_item(identifier).metadata] *)
Variable get_item : World -> string -> World * outcome dict.
(** [item.modify_metadata(updates)], as a truth value *)
Variable modify_metadata : World -> string -> dict -> World * outcome bool.

(** The fields whose live value differs from the new one. *)
Fixpoint filter_updates (metadata : dict) (metadata_updates : dict) : dict :=
  match metadata_updates with
  | [] => []
  | (field, new_value) :: rest =>
      match dict_get field metadata with
      | Some current_value =>
          if String.eqb current_value new_value
          then filter_updates metadata rest
          else (field, new_value) :: filter_updates metadata rest
      | None => (field, new_value) :: filter_updates metadata rest
      end
  end.

Definition update_archive_metadata_ia (w : World) (identifier : string)
  (metadata_updates : dict) : World * outcome bool :=
  match get_item w identifier with
  | (w1, Raised) => (w1, Returned false)                 (* except Exception *)
  | (w1, Returned metadata) =>
      match filter_updates metadata metadata_updates with
      | [] => (w1, Returned true)
      | filtered_updates =>
          match modify_metadata w1 identifier filtered_updates with
          | (w2, Raised) => (w2, Returned false)         (* except Exception *)
          | (w2, Returned result) => (w2, Returned result)
          end
      end
  end.

(** The update performed for one item; [apply_all_fixes] calls
    [update_archive_metadata_ia] here. *)
Variable update : World -> string -> dict -> World * outcome bool.

Definition build_updates (suggestions : dict) : dict :=
  let metadata_updates : dict := [] in
  let metadata_updates :=
    match dict_get "band" suggestions with
    | Some v => (metadata_updates ++ [("band", v)])%list
    | None => metadata_updates
    end in
  let metadata_updates :=
    match dict_get "venue" suggestions with
    | Some v => (metadata_updates ++ [("venue", v)])%list
    | None => metadata_updates
    end in
  match dict_get "date" suggestions with
  | Some v => (metadata_updates ++ [("date", v)])%list
  | None => metadata_updates
  end.

Record run_state : Type := mkRun {
  world : World;
  success_count : nat;
  error_count : nat;
  log : list event
}.

(** One iteration of the loop of [apply_all_fixes]. *)
Definition apply_one (st : run_state) (issue_item : IssueRecord) : run_state :=
  let identifier := identifier issue_item in
  let suggestions := suggestions issue_item in
  let lg := (log st ++ [Updating identifier])%list in
  match build_updates suggestions with
  | [] => mkRun (world st) (success_count st) (error_count st)
                (lg ++ [NoUpdates identifier])%list
  | metadata_updates =>
      match update (world st) identifier metadata_updates with
      | (w, Returned true) =>
          mkRun w (S (success_count st)) (error_count st) (lg ++ [Succeeded identifier])%list
      | (w, Returned false) =>
          mkRun w (success_count st) (S (error_count st)) (lg ++ [Failed identifier])%list
      | (w, Raised) =>
          mkRun w (success_count st) (S (error_count st)) (lg ++ [Errored identifier])%list
      end
  end.

Fixpoint apply_loop (st : run_state) (issues : list IssueRecord) : run_state :=
  match issues with
  | [] => st
  | issue_item :: issues' => apply_loop (apply_one st issue_item) issues'
  end.

Definition apply_all_fixes (w : World) (issues : list IssueRecord) : run_state :=
  apply_loop (mkRun w 0 0 []) issues.

End Fixer.

End Apply.

(* ================================================================== *)
(** ** analyze_metadata.py: the summary, the sample listing and the
    update request *)
(* ================================================================== *)

Module Report.

Import Apply.

(** *** print_summary *)

(** [issue_counts]: a dictionary from issue type to count, in insertion
    order. *)
Definition counts : Type := list (Issue * nat).

(** [d.get(k, default)] *)
Fixpoint counts_get (k : Issue) (default : nat) (d : counts) : nat :=
  match d with
  | [] => default
  | (k', v) :: d' => if Issue_eqb k' k then v else counts_get k default d'
  end.

(** [d[k] = v] *)
Fixpoint counts_set (k : Issue) (v : nat) (d : counts) : counts :=
  match d with
  | [] => [(k, v)]
  | (k', v') :: d' =>
      if Issue_eqb k' k then (k, v) :: d' else (k', v') :: counts_set k v d'
  end.

(** [issue_counts[issue_type] = issue_counts.get(issue_type, 0) + 1] *)
Definition count_issue (issue_counts : counts) (issue_type : Issue) : counts :=
  counts_set issue_type (counts_get issue_type 0 issue_counts + 1) issue_counts.

(** The two nested loops of [print_summary]. *)
Definition issue_counts (report : list IssueRecord) : counts :=
  fold_left (fun acc issue_item => fold_left count_issue (issues issue_item) acc)
            report [].

Definition issue_name (issue_type : Issue) : string :=
  match issue_type with
  | missing_band => "Missing band/creator"
  | missing_venue => "Missing venue"
  | missing_date => "Missing date"
  | bad_date_format => "Bad date format (has time component)"
  end.

(** What [print_summary] prints: the two totals and one line per issue
    type. *)
Definition print_summary (items : list Item) (report : list IssueRecord)
  : nat * nat * list (string * nat) :=
  (List.length items, List.length report,
   map (fun tc => (issue_name (fst tc), snd tc)) (issue_counts report)).

(** *** print_sample_issues *)

(** The category headers, without their pictographs. *)
Inductive Category : Type :=
| DateFormatFixesOnly        (* DATE FORMAT FIXES ONLY *)
| MissingBandVenue           (* MISSING BAND + VENUE (+ date fixes) *)
| MissingBandDate            (* MISSING BAND (+ date fixes) *)
| MissingVenueDate           (* MISSING VENUE (+ date fixes) *)
| MissingBandOnly            (* MISSING BAND ONLY *)
| MissingVenueOnly           (* MISSING VENUE ONLY *)
| OtherCombinations.         (* OTHER COMBINATIONS *)

Definition Category_eqb (a b : Category) : bool :=
  match a, b with
  | DateFormatFixesOnly, DateFormatFixesOnly
  | MissingBandVenue, MissingBandVenue
  | MissingBandDate, MissingBandDate
  | MissingVenueDate, MissingVenueDate
  | MissingBandOnly, MissingBandOnly
  | MissingVenueOnly, MissingVenueOnly
  | OtherCombinations, OtherCombinations => true
  | _, _ => false
  end.

Definition category_of (l : list Issue) : Category :=
  if set_is bad_date_format l then DateFormatFixesOnly
  else if mem missing_band l && mem missing_venue l then MissingBandVenue
  else if mem missing_band l && mem bad_date_format l then MissingBandDate
  else if mem missing_venue l && mem bad_date_format l then MissingVenueDate
  else if set_is missing_band l then MissingBandOnly
  else if set_is missing_venue l then MissingVenueOnly
  else OtherCombinations.

(** [str(x)] of a stored value: [None] prints as 'None'. *)
Definition str_of (o : option string) : string := get_or o "None".

(** [issue['current'].get(field, 'None')], as it is printed. *)
Definition current_get (field : string) (c : Current) : string :=
  if String.eqb field "band" then str_of (cur_band c)
  else if String.eqb field "venue" then str_of (cur_venue c)
  else if String.eqb field "date" then str_of (cur_date c)
  else "None".

Inductive line : Type :=
| Header (category : Category)
| Entry (shown : nat) (identifier title : string) (issues : list Issue)
| SuggestionsHeading
| Suggestion (field current value : string)
| More (n : nat).

Definition suggestion_lines (issue : IssueRecord) : list line :=
  match suggestions issue with
  | [] => []
  | l => SuggestionsHeading
         :: map (fun fv => Suggestion (fst fv) (current_get (fst fv) (current issue)) (snd fv)) l
  end.

(** The loop of [print_sample_issues]; [current_category] is [None] before
    the first header. *)
Fixpoint sample_loop (limit : nat) (current_category : option Category) (shown : nat)
  (report : list IssueRecord) : list line :=
  match report with
  | [] => []
  | issue :: report' =>
      if limit <=? shown then []                                   (* break *)
      else
        let category := category_of (issues issue) in
        let changed :=
          match current_category with
          | Some c => negb (Category_eqb c category)
          | None => true
          end in
        let shown := S shown in
        ((if changed then [Header category] else [])
         ++ Entry shown (identifier issue) (title issue) (issues issue)
            :: suggestion_lines issue
         ++ sample_loop limit (Some category) shown report')%list
  end.

Definition print_sample_issues (limit : nat) (report : list IssueRecord) : list line :=
  (sample_loop limit None 0 report
   ++ (if limit <? List.length report then [More (List.length report - limit)] else []))%list.

(** *** update_archive_metadata *)

Section Http.

Variable World : Type.

(** [requests.post(url, data=payload, auth=auth)]: the status code and the
    JSON body's 'success' entry ([None] when the body has none); the inner
    [Raised] is [response.json()] failing, the outer one the request. *)
Variable post : World -> string -> dict -> World * outcome (nat * outcome (option bool)).

(** The form fields sent: the two target fields, then one -patch- field per
    update. *)
Definition payload_of (metadata_updates : dict) : dict :=
  fold_left (fun payload fv => dict_set ("-patch-" ++ fst fv) (snd fv) payload)
            metadata_updates
            [("target", "metadata"); ("-target", "metadata")].

Definition update_archive_metadata (w : World) (identifier : string)
  (metadata_updates : dict) : World * outcome bool :=
  let url := "https://archive.org/metadata/" ++ identifier in
  let payload := payload_of metadata_updates in
  match post w url payload with
  | (w', Raised) => (w', Returned false)                      (* except Exception *)
  | (w', Returned (status_code, body)) =>
      if status_code =? 200 then
        match body with
        | Raised => (w', Returned false)                      (* except Exception *)
        | Returned result =>
            (w', Returned (match result with Some b => b | None => false end))
        end
      else (w', Returned false)
  end.

(** [fix_metadata_issues]: nothing is done for an empty report or when the
    answer typed at the prompt, stripped and lower-cased, is not y or yes;
    else the loop is the one of [apply_all_fixes], with
    [update_archive_metadata] for the update. *)
Definition fix_metadata_issues (w : World) (report : list IssueRecord) (answer : string)
  : option (run_state World) :=
  match report with
  | [] => None
  | _ =>
      let confirm := lower (strip answer) in
      if negb (in_list confirm ["y"; "yes"]) then None
      else Some (apply_loop World update_archive_metadata (mkRun World w 0 0 []) report)
  end.

End Http.

End Report.

(* ================================================================== *)
(** ** delete_bad_flyers.py *)
(* ================================================================== *)

(** [s.startswith(sub)] *)
Fixpoint startswith (s sub : string) {struct sub} : bool :=
  match sub with
  | EmptyString => true
  | String a sub' =>
      match s with
      | EmptyString => false
      | String b s' => Ascii.eqb a b && startswith s' sub'
      end
  end.

(** [sub in s] on strings: [sub] starts at some position of [s]. *)
Fixpoint contains (sub s : string) : bool :=
  if startswith s sub then true
  else match s with
       | EmptyString => false
       | String _ s' => contains sub s'
       end.

Module Flyers.

Import Apply.

(** The test of the inner loop of [delete_bad_flyer_files]. *)
Definition is_bad (filename : string) : bool :=
  contains "-flyer_itemimage." filename
  && contains "T00:00:00Z-flyer_itemimage." filename.

Fixpoint bad_flyer_files (files_data : list dict) : list string :=
  match files_data with
  | [] => []
  | file_info :: files_data' =>
      let filename := get_or (dict_get "name" file_info) "" in
      if is_bad filename then filename :: bad_flyer_files files_data'
      else bad_flyer_files files_data'
  end.

(** What the method prints, and the [ia delete] commands it runs. *)
Inductive event : Type :=
| Processing (identifier : string)
| Found (n : nat)
| Command (identifier filename : string)       (* ia delete identifier filename *)
| Deleted (filename : string)
| DeleteFailed (filename : string)
| Clean
| ListFailed (status_code : nat)
| ProcessError (identifier : string).

Section Cleaner.

Variable World : Type.

(** [requests.get(files_url)] and [response.json().get('result', [])]: the
    status code and, for status 200, the entries of the file list; [Raised]
    when the request or the decoding raises. *)
Variable get_files : World -> string -> World * outcome (nat * list dict).

(** [subprocess.run([ia, 'delete', identifier, filename], ...)]: the return
    code, or [Raised] (a timeout, a missing executable). *)
Variable ia_delete : World -> string -> string -> World * outcome nat.

Record run_state : Type := mkRun {
  world : World;
  success_count : nat;
  error_count : nat;
  log : list event
}.

(** The loop over [bad_flyer_files]. *)
Fixpoint delete_files (st : run_state) (identifier : string) (files : list string)
  : run_state :=
  match files with
  | [] => st
  | filename :: files' =>
      let lg := (log st ++ [Command identifier filename])%list in
      let st' :=
        match ia_delete (world st) identifier filename with
        | (w, Returned returncode) =>
            if returncode =? 0
            then mkRun w (success_count st) (error_count st) (lg ++ [Deleted filename])%list
            else mkRun w (success_count st) (S (error_count st))
                       (lg ++ [DeleteFailed filename])%list
        | (w, Raised) =>
            mkRun w (success_count st) (S (error_count st))
                  (lg ++ [DeleteFailed filename])%list
        end in
      delete_files st' identifier files'
  end.

(** One iteration of the loop over [identifiers]. *)
Definition process_one (st : run_state) (identifier : string) : run_state :=
  let lg := (log st ++ [Processing identifier])%list in
  match get_files (world st) identifier with
  | (w, Raised) =>
      mkRun w (success_count st) (S (error_count st)) (lg ++ [ProcessError identifier])%list
  | (w, Returned (status_code, files_data)) =>
      if status_code =? 200 then
        let st1 :=
          match bad_flyer_files files_data with
          | [] => mkRun w (success_count st) (error_count st) (lg ++ [Clean])%list
          | files =>
              delete_files
                (mkRun w (success_count st) (error_count st)
                       (lg ++ [Found (List.length files)])%list)
                identifier files
          end in
        mkRun (world st1) (S (success_count st1)) (error_count st1) (log st1)
      else
        mkRun w (success_count st) (S (error_count st)) (lg ++ [ListFailed status_code])%list
  end.

Fixpoint process_loop (st : run_state) (identifiers : list string) : run_state :=
  match identifiers with
  | [] => st
  | identifier :: identifiers' => process_loop (process_one st identifier) identifiers'
  end.

Definition delete_bad_flyer_files (w : World) (identifiers : list string) : run_state :=
  process_loop (mkRun w 0 0 []) identifiers.

End Cleaner.

End Flyers.

(* ================================================================== *)
(** ** find_facebook_events.py *)
(* ================================================================== *)

Module Facebook.

Import Apply.

(** [list(dict.fromkeys(l))]: the keys of a dictionary filled in the order
    of [l]; a key that is already there keeps its place. *)
Definition fromkeys (l : list string) : list string :=
  fold_left (fun keys k => if in_list k keys then keys else (keys ++ [k])%list) l [].

(** A metadata value: a string, or something else (a list, a number) of the
    given truth value. *)
Inductive value : Type :=
| Str (s : string)
| Other (truth : bool).

Definition value_truthy (v : value) : bool :=
  match v with
  | Str s => truthy (Some s)
  | Other b => b
  end.

(** An item of the search response. *)
Definition doc : Type := list (string * value).

Fixpoint doc_get (k : string) (default : value) (d : doc) : value :=
  match d with
  | [] => default
  | (k', v) :: d' => if String.eqb k' k then v else doc_get k default d'
  end.

Section Finder.

(** The number of entries of [facebook_patterns]. *)
Definition n_patterns : nat := 7.

(** [pattern.finditer(text)] for the compiled pattern number [i]: the texts
    [match.group(0)] of the matches, left to right.  [pattern.findall(text)]
    has one entry per match, so it is empty exactly when this list is. *)
Variable finditer : nat -> string -> list string.

Fixpoint links_loop (patterns : list nat) (text : string) (found_links : list string)
  : list string :=
  match patterns with
  | [] => found_links
  | pattern :: patterns' =>
      let found_links :=
        match finditer pattern text with
        | [] => found_links                              (* if matches: *)
        | full_matches => (found_links ++ full_matches)%list
        end in
      links_loop patterns' text found_links
  end.

Definition find_facebook_links (text : value) : list string :=
  match text with
  | Str (String c s) => fromkeys (links_loop (seq 0 n_patterns) (String c s) [])
  | _ => []                        (* not text or not isinstance(text, str) *)
  end.

Record facebook_info : Type := mkInfo {
  info_item : doc;
  facebook_links_found : list string;
  found_in_fields : list string;
  summary : string
}.

(** The three blocks of the loop body share this shape. *)
Definition scan_field (field : string) (item : doc) (info : facebook_info)
  : facebook_info :=
  let v := doc_get field (Str "") item in
  if value_truthy v then
    match find_facebook_links v with
    | [] => info
    | links =>
        mkInfo (info_item info) (facebook_links_found info ++ links)%list
               (found_in_fields info ++ [field])%list (summary info)
    end
  else info.

(** [', '.join(l)] *)
Fixpoint join (l : list string) : string :=
  match l with
  | [] => ""
  | [x] => x
  | x :: l' => x ++ ", " ++ join l'
  end.

Definition str_nat (n : nat) : string := NilEmpty.string_of_uint (Nat.to_uint n).

(** One iteration of the loop of [search_items_for_facebook_events]. *)
Definition search_item (item : doc) : option facebook_info :=
  let info := mkInfo item [] [] "" in
  let info := scan_field "description" item info in
  let info := scan_field "fb" item info in
  let info := scan_field "facebook" item info in
  let links := fromkeys (facebook_links_found info) in
  match links with
  | [] => None
  | _ =>
      let fields_str := join (found_in_fields info) in
      let links_count := List.length links in
      Some (mkInfo item links (found_in_fields info)
                   ("Found " ++ str_nat links_count ++ " Facebook link(s) in: " ++ fields_str))
  end.

Fixpoint search_items_for_facebook_events (items : list doc) : list facebook_info :=
  match items with
  | [] => []
  | item :: items' =>
      match search_item item with
      | Some info => info :: search_items_for_facebook_events items'
      | None => search_items_for_facebook_events items'
      end
  end.

End Finder.

(** *** get_user_items *)

Section Pages.

Variable Doc : Type.

(** The search request for a user at offset [start]: the 'docs' of the
    response, or [Raised] for a [requests.RequestException]. *)
Variable fetch : string -> nat -> outcome (list Doc).

Definition max_items_per_request : nat := 1000.

(** [s.split('@')[0]] *)
Fixpoint before_at (s : string) : string :=
  match s with
  | EmptyString => EmptyString
  | String c s' => if Ascii.eqb c "@" then EmptyString else String c (before_at s')
  end.

(** The user to search for; [None] is the [ValueError]. *)
Definition resolve_username (access_key : string) (username : option string)
  : option string :=
  if truthy username then username
  else
    let username :=
      if contains "@" access_key then Some (before_at access_key) else None in
    if truthy username then username else None.

(** The [while True] loop; [fuel] bounds the number of requests. *)
Fixpoint pages_loop (fuel : nat) (username : string) (start : nat) (all_items : list Doc)
  : option (list Doc) :=
  match fuel with
  | O => None
  | S fuel' =>
      match fetch username start with
      | Raised => Some all_items                                  (* break *)
      | Returned items =>
          match items with
          | [] => Some all_items                                  (* break *)
          | _ =>
              let all_items := (all_items ++ items)%list in
              if List.length items <? max_items_per_request then Some all_items
              else pages_loop fuel' username (start + max_items_per_request) all_items
          end
      end
  end.

(** [Raised] is the [ValueError]; [Returned None] is a run that needs more
    than [fuel] requests. *)
Definition get_user_items (fuel : nat) (access_key : string) (username : option string)
  : outcome (option (list Doc)) :=
  match resolve_username access_key username with
  | None => Raised
  | Some username => Returned (pages_loop fuel username 0 [])
  end.

End Pages.

End Facebook.

(* ================================================================== *)
(** * Properties *)
(* ================================================================== *)

Import Analyze.

(** ** Elementary facts about strings *)

Lemma append_cons_nonempty (s t : string) (c : ascii) : s ++ String c t <> "".
Proof. destruct s; simpl; discriminate. Qed.

Lemma length_append (s t : string) :
  String.length (s ++ t) = String.length s + String.length t.
Proof. induction s as [|c s IH]; simpl; [reflexivity | now rewrite IH]. Qed.

Lemma truthy_some (s : string) : s <> "" -> truthy (Some s) = true.
Proof. destruct s; [congruence | reflexivity]. Qed.

Lemma truthy_inv (o : option string) :
  truthy o = true -> exists s, o = Some s /\ s <> "".
Proof.
  destruct o as [[|c s]|]; simpl; try discriminate.
  intros _. exists (String c s). split; [reflexivity | discriminate].
Qed.

Lemma eqb_neq_false (a b : string) : a <> b -> String.eqb a b = false.
Proof. intro H. destruct (String.eqb_spec a b); [contradiction | reflexivity]. Qed.

Lemma format_date_nonempty (parsed : date) : format_date parsed <> "".
Proof. unfold format_date. apply append_cons_nonempty. Qed.

(** ** The free-text date extractor never returns the empty string *)

Lemma date_loop_nonempty (patterns : list (regex * string)) (title r : string) :
  date_loop patterns title = Some r -> r <> "".
Proof.
  induction patterns as [|[pattern date_format] patterns IH]; simpl; [discriminate|].
  destruct (search false pattern title) as [mt|]; [|exact IH].
  destruct (String.eqb date_format "%Y").
  - intros [= <-]. apply append_cons_nonempty.
  - destruct (endswith date_format "%y");
      (destruct (strptime (grp 1 mt) date_format) as [parsed|];
       [intros [= <-]; apply format_date_nonempty | exact IH]).
Qed.

Lemma extract_date_nonempty (title r : string) :
  extract_date_from_title title = Some r -> r <> "".
Proof.
  unfold extract_date_from_title. destruct title; [discriminate|].
  apply date_loop_nonempty.
Qed.

Lemma extract_date_truthy (title : string) :
  truthy (extract_date_from_title title)
  = match extract_date_from_title title with Some _ => true | None => false end.
Proof.
  destruct (extract_date_from_title title) as [r|] eqn:E; [|reflexivity].
  apply truthy_some. eapply extract_date_nonempty; eassumption.
Qed.

(** ** C2: the date rules of the Issue Detector *)

(** The condition of rule 1: the title carries a date, the stored date is of
    year precision once canonicalised, the title date is more precise, and
    the two differ. *)
Definition title_wins (std : string) (td : option string) (t : string) : Prop :=
  td = Some t /\ endswith std "-01-01" = true /\ endswith t "-01-01" = false /\ std <> t.

Lemma endswith_differ (a b suffix : string) :
  endswith a suffix = true -> endswith b suffix = false -> a <> b.
Proof. intros Ha Hb ->. congruence. Qed.

(** The detector flags issue [i] on the date of [item] and suggests [s]:
    the record it produces lists [i], suggests [s] for the date, and lists no
    other date issue. *)
Definition flags (item : Item) (i : Issue) (s : string) : Prop :=
  exists r, analyze_item item = Some r
    /\ In i (issues r)
    /\ dict_get "date" (suggestions r) = Some s
    /\ (forall j, In j (issues r) -> j = i \/ j = missing_band \/ j = missing_venue).

(** The detector reports nothing about the date of [item]. *)
Definition no_date_issue (item : Item) : Prop :=
  forall r, analyze_item item = Some r ->
    ~ In bad_date_format (issues r) /\ ~ In missing_date (issues r)
    /\ dict_get "date" (suggestions r) = None.

Ltac analyze_cases item :=
  unfold analyze_item;
  destruct (negb (truthy (item_band item)));
  [destruct (truthy (extract_band_from_title (get_or (item_title item) "")))|];
  (destruct (negb (truthy (item_venue item)));
   [destruct (truthy (extract_venue_from_title (get_or (item_title item) "")))|]).

Lemma analyze_item_flags (item : Item) (i : Issue) (s : string) :
  check_date (or_else (item_date item) (item_publicdate item))
             (get_or (item_title item) "") = Some (i, s) ->
  flags item i s.
Proof.
  intro H. unfold flags. analyze_cases item; rewrite H; cbn [app];
    (eexists; split; [reflexivity|]);
    cbn [issues suggestions dict_get String.eqb Ascii.eqb Bool.eqb In];
    (split; [tauto|]); (split; [reflexivity|]);
    intros j Hj; intuition auto.
Qed.

Lemma analyze_item_no_flag (item : Item) :
  check_date (or_else (item_date item) (item_publicdate item))
             (get_or (item_title item) "") = None ->
  no_date_issue item.
Proof.
  intros H r. analyze_cases item; rewrite H; cbn [app]; try discriminate;
    intros [= <-];
    cbn [issues suggestions dict_get String.eqb Ascii.eqb Bool.eqb In];
    (repeat split; try reflexivity); intros Hin; intuition discriminate.
Qed.

(** C2.  For a record whose effective stored date (primary, else fallback)
    is [raw], the detector applies three rules in order: (1) when the title
    date wins it flags bad_date_format and suggests the title date; (2)
    otherwise, when canonicalising changes [raw], it flags bad_date_format
    and suggests the canonical value; (3) otherwise it flags no date issue.
    Stored "2016" with title date "2016-02-28" gives bad_date_format with
    suggestion "2016-02-28". *)
Theorem C2_date_rules (item : Item) (raw : string) :
  or_else (item_date item) (item_publicdate item) = Some raw -> raw <> "" ->
  let std := standardize_date raw in
  let td := extract_date_from_title (get_or (item_title item) "") in
  (forall t, title_wins std td t -> flags item bad_date_format t)
  /\ ((forall t, ~ title_wins std td t) -> std <> raw -> flags item bad_date_format std)
  /\ ((forall t, ~ title_wins std td t) -> std = raw -> no_date_issue item)
  /\ (raw = "2016" -> td = Some "2016-02-28" -> flags item bad_date_format "2016-02-28").
Proof.
  intros Heff Hraw std td.
  set (title := get_or (item_title item) "") in *.
  assert (Hstep : forall t, title_wins std td t ->
            check_date (Some raw) title = Some (bad_date_format, t)).
  { intros t (Htd & Hs & Ht & Hne).
    unfold check_date. rewrite (truthy_some raw Hraw). simpl.
    fold std. fold td. rewrite Htd. simpl get_or.
    rewrite truthy_some by (eapply extract_date_nonempty; exact Htd).
    rewrite Hs, Ht. simpl. rewrite (eqb_neq_false _ _ Hne). reflexivity. }
  assert (Hno : (forall t, ~ title_wins std td t) ->
            check_date (Some raw) title
            = if negb (String.eqb std raw) then Some (bad_date_format, std) else None).
  { intros Hnone.
    unfold check_date. rewrite (truthy_some raw Hraw). simpl.
    fold std. fold td.
    destruct (truthy td && endswith std "-01-01"
              && negb (endswith (get_or td "") "-01-01")) eqn:Hc; [|reflexivity].
    exfalso.
    apply andb_true_iff in Hc as [Hc Ht]. apply andb_true_iff in Hc as [Htd Hs].
    apply truthy_inv in Htd as (t & Htd & _). rewrite Htd in Ht. simpl in Ht.
    apply negb_true_iff in Ht.
    apply (Hnone t). repeat split; try assumption.
    eapply endswith_differ; eassumption. }
  split; [|split; [|split]].
  - intros t Ht. apply analyze_item_flags. rewrite Heff. now apply Hstep.
  - intros Hnone Hne. apply analyze_item_flags. fold title.
    rewrite Heff, (Hno Hnone), (eqb_neq_false _ _ Hne). reflexivity.
  - intros Hnone He. apply analyze_item_no_flag. fold title.
    rewrite Heff, (Hno Hnone), He, String.eqb_refl. reflexivity.
  - intros -> Htd. apply analyze_item_flags. rewrite Heff. apply Hstep.
    repeat split; try assumption; try reflexivity. discriminate.
Qed.

Lemma C2_date_rules_witness :
  flags (mkItem (Some "thou-2016") (Some "Thou @ The Che Cafe 2016-02-28")
           (Some "Thou") (Some "The Che Cafe") None (Some "2016"))
        bad_date_format "2016-02-28".
Proof.
  apply (C2_date_rules
           (mkItem (Some "thou-2016") (Some "Thou @ The Che Cafe 2016-02-28")
              (Some "Thou") (Some "The Che Cafe") None (Some "2016")) "2016").
  - reflexivity.
  - discriminate.
  - reflexivity.
  - vm_compute. reflexivity.
Defined.

(** ** C5: the Che Cafe scenario *)

Definition che_cafe_title : string := "Thou @ The Che Cafe on 01.12.12".

Lemma che_cafe_band : extract_band_from_title che_cafe_title = Some "Thou".
Proof. vm_compute. reflexivity. Qed.

Lemma che_cafe_venue : extract_venue_from_title che_cafe_title = Some "The Che Cafe".
Proof. vm_compute. reflexivity. Qed.

Lemma che_cafe_date : extract_date_from_title che_cafe_title = Some "2012-01-12".
Proof. vm_compute. reflexivity. Qed.

(** C5.  For the title "Thou @ The Che Cafe on 01.12.12" the performer is
    "Thou" (found by the first performer pattern: trimmed, longer than two
    characters, not in the stoplist), the venue is "The Che Cafe" and the
    extracted date is "2012-01-12"; for a record with this title and no
    stored band, venue or date (primary or fallback) the detector flags
    missing_band, missing_venue and missing_date with exactly these three
    suggestions. *)
Theorem C5_che_cafe (id band venue date publicdate : option string) :
  truthy band = false -> truthy venue = false ->
  truthy date = false -> truthy publicdate = false ->
  extract_band_from_title che_cafe_title = Some "Thou"
  /\ band_loop [hd Empty band_patterns] che_cafe_title = Some "Thou"
  /\ (2 <? String.length "Thou") && negb (in_list (lower "Thou") band_stoplist) = true
  /\ extract_venue_from_title che_cafe_title = Some "The Che Cafe"
  /\ extract_date_from_title che_cafe_title = Some "2012-01-12"
  /\ analyze_item (mkItem id (Some che_cafe_title) band venue date publicdate)
     = Some (mkIssue (get_or id "") che_cafe_title
               (mkCurrent band venue (or_else date publicdate))
               [missing_band; missing_venue; missing_date]
               [("band", "Thou"); ("venue", "The Che Cafe"); ("date", "2012-01-12")]).
Proof.
  intros Hb Hv Hd Hp.
  assert (Heff : truthy (or_else date publicdate) = false)
    by (unfold or_else; now rewrite Hd).
  split; [exact che_cafe_band|].
  split; [vm_compute; reflexivity|].
  split; [vm_compute; reflexivity|].
  split; [exact che_cafe_venue|].
  split; [exact che_cafe_date|].
  unfold analyze_item, check_date.
  cbn [item_identifier item_title item_band item_venue item_date item_publicdate get_or].
  rewrite Hb, Hv, Heff, che_cafe_band, che_cafe_venue, che_cafe_date.
  reflexivity.
Qed.

Lemma C5_che_cafe_witness :
  analyze_item (mkItem (Some "01.12.12_Thou") (Some che_cafe_title) None None (Some "") None)
  = Some (mkIssue "01.12.12_Thou" che_cafe_title (mkCurrent None None None)
            [missing_band; missing_venue; missing_date]
            [("band", "Thou"); ("venue", "The Che Cafe"); ("date", "2012-01-12")]).
Proof.
  destruct (C5_che_cafe (Some "01.12.12_Thou") None None (Some "") None
              eq_refl eq_refl eq_refl eq_refl) as (_ & _ & _ & _ & _ & H).
  exact H.
Defined.

(** ** C9: per-item failure isolation in [apply_all_fixes] *)

Module ApplyProps.
Import Apply.

Section Isolation.

Variable World : Type.
Variable update : World -> string -> dict -> World * outcome bool.

(** What happens to each item when every item is attempted once, in order,
    in the world its predecessors left behind: [None] when there is nothing
    to send, else the outcome of its update. *)
Fixpoint attempts (w : World) (issues : list IssueRecord)
  : list (string * option (outcome bool)) :=
  match issues with
  | [] => []
  | issue_item :: issues' =>
      match build_updates (suggestions issue_item) with
      | [] => (identifier issue_item, None) :: attempts w issues'
      | metadata_updates =>
          let '(w', o) := update w (identifier issue_item) metadata_updates in
          (identifier issue_item, Some o) :: attempts w' issues'
      end
  end.

Definition is_success (a : string * option (outcome bool)) : bool :=
  match snd a with
  | Some (Returned true) => true
  | _ => false
  end.

Definition is_failure (a : string * option (outcome bool)) : bool :=
  match snd a with
  | Some (Returned false) | Some Raised => true
  | _ => false
  end.

Definition count {A} (f : A -> bool) (l : list A) : nat := List.length (filter f l).

Definition event_of (a : string * option (outcome bool)) : list event :=
  [ Updating (fst a);
    match snd a with
    | None => NoUpdates (fst a)
    | Some (Returned true) => Succeeded (fst a)
    | Some (Returned false) => Failed (fst a)
    | Some Raised => Errored (fst a)
    end ].

Lemma apply_loop_attempts (issues : list IssueRecord) (st : run_state World) :
  let r := apply_loop World update st issues in
  let tr := attempts (world World st) issues in
  success_count World r = success_count World st + count is_success tr
  /\ error_count World r = error_count World st + count is_failure tr
  /\ log World r = (log World st ++ flat_map event_of tr)%list.
Proof.
  revert st. induction issues as [|x issues IH]; intros st; simpl.
  - rewrite app_nil_r. unfold count. simpl. repeat split; lia.
  - unfold apply_one.
    destruct (build_updates (suggestions x)) as [|u us] eqn:Hu.
    + specialize (IH (mkRun World (world World st) (success_count World st)
                        (error_count World st)
                        ((log World st ++ [Updating (identifier x)])
                           ++ [NoUpdates (identifier x)])%list)).
      simpl in IH. destruct IH as (H1 & H2 & H3).
      rewrite H1, H2, H3. unfold count. simpl.
      repeat split; try reflexivity.
      rewrite <- !app_assoc. reflexivity.
    + destruct (update (world World st) (identifier x) (u :: us)) as [w' [[|]|]] eqn:Ho;
        match goal with
        | |- context [apply_loop World update ?s issues] =>
            specialize (IH s); simpl in IH; destruct IH as (H1 & H2 & H3);
            rewrite H1, H2, H3
        end;
        unfold count; simpl; (repeat split; try lia);
        rewrite <- !app_assoc; reflexivity.
Qed.

Lemma attempts_ids (issues : list IssueRecord) (w : World) :
  map fst (attempts w issues) = map identifier issues.
Proof.
  revert w. induction issues as [|x issues IH]; intros w; simpl; [reflexivity|].
  destruct (build_updates (suggestions x)) as [|u us].
  - simpl. now rewrite IH.
  - destruct (update w (identifier x) (u :: us)) as [w' o]. simpl. now rewrite IH.
Qed.

Lemma count_partition {A} (f g h : A -> bool) (l : list A) :
  (forall a, In a l -> (if f a then 1 else 0) + (if g a then 1 else 0)
                       + (if h a then 1 else 0) = 1) ->
  count f l + count g l + count h l = List.length l.
Proof.
  unfold count. induction l as [|a l IH]; intro H; simpl; [reflexivity|].
  assert (Ha := H a (or_introl eq_refl)).
  assert (IH' := IH (fun b Hb => H b (or_intror Hb))).
  destruct (f a), (g a), (h a); simpl in *; lia.
Qed.

End Isolation.

Section Library.

Variable World : Type.
Variable get_item : World -> string -> World * outcome dict.
Variable modify_metadata : World -> string -> dict -> World * outcome bool.

Lemma update_never_raises (w : World) (identifier : string) (updates : dict) :
  snd (update_archive_metadata_ia World get_item modify_metadata w identifier updates)
  <> Raised.
Proof.
  unfold update_archive_metadata_ia.
  destruct (get_item w identifier) as [w1 [md|]]; simpl; [|discriminate].
  destruct (filter_updates md updates) as [|f fs]; simpl; [discriminate|].
  destruct (modify_metadata w1 identifier (f :: fs)) as [w2 [b|]]; simpl; discriminate.
Qed.

End Library.

Definition no_update (a : string * option (outcome bool)) : bool :=
  match snd a with
  | None => true
  | Some _ => false
  end.

(** C9.  Whatever the update of an item does (return success, return
    failure or raise), every item of the sequence is attempted once and in
    order; an item whose update raises or returns failure adds one to the
    failure count, one that succeeds adds one to the success count, and the
    run ends with both counts, which together with the items that had
    nothing to send add up to the number of items.  An exception of the
    archive library inside the update is itself turned into a failure. *)
Theorem C9_failure_isolation
  (World : Type) (update : World -> string -> dict -> World * outcome bool)
  (get_item : World -> string -> World * outcome dict)
  (modify_metadata : World -> string -> dict -> World * outcome bool)
  (w : World) (issues : list IssueRecord) :
  let r := apply_all_fixes World update w issues in
  let tr := attempts World update w issues in
  map fst tr = map identifier issues
  /\ log World r = flat_map event_of tr
  /\ success_count World r = count is_success tr
  /\ error_count World r = count is_failure tr
  /\ success_count World r + error_count World r + count no_update tr
     = List.length issues
  /\ (forall w' id updates,
        snd (update_archive_metadata_ia World get_item modify_metadata w' id updates)
        <> Raised).
Proof.
  intros r tr.
  destruct (apply_loop_attempts World update issues (mkRun World w 0 0 []))
    as (H1 & H2 & H3).
  fold (apply_all_fixes World update w issues) in H1, H2, H3. fold r in H1, H2, H3.
  simpl in H1, H2, H3. fold tr in H1, H2, H3.
  assert (Hids : map fst tr = map identifier issues) by apply attempts_ids.
  repeat split; try assumption.
  - rewrite H1, H2.
    rewrite <- (length_map identifier issues), <- Hids, length_map.
    apply count_partition.
    intros [id [[[|]|]|]] _; reflexivity.
  - intros w' id updates. apply update_never_raises.
Qed.

End ApplyProps.

(** ** C6: the review ordering *)

Module SortProps.

(** *** The order on keys *)

Lemma ascii_compare_refl (a : ascii) : Ascii.compare a a = Eq.
Proof. unfold Ascii.compare. apply BinNat.N.compare_refl. Qed.

Lemma ascii_compare_trans (a b c : ascii) (o : comparison) :
  Ascii.compare a b = o -> Ascii.compare b c = o -> Ascii.compare a c = o.
Proof.
  unfold Ascii.compare. destruct o; intros H1 H2.
  - apply BinNat.N.compare_eq_iff in H1, H2. apply BinNat.N.compare_eq_iff. congruence.
  - apply BinNat.N.compare_lt_iff in H1, H2. apply BinNat.N.compare_lt_iff.
    eapply BinNat.N.lt_trans; eassumption.
  - apply BinNat.N.compare_gt_iff in H1, H2. apply BinNat.N.compare_gt_iff.
    eapply BinNat.N.lt_trans; eassumption.
Qed.

Lemma string_leb_refl (s : string) : String.leb s s = true.
Proof.
  unfold String.leb. induction s as [|c s IH]; simpl; [reflexivity|].
  now rewrite ascii_compare_refl.
Qed.

Lemma string_compare_lt_trans (a b c : string) :
  String.compare a b = Lt -> String.compare b c = Lt -> String.compare a c = Lt.
Proof.
  revert b c. induction a as [|x a IH]; intros [|y b] [|z c]; simpl; try congruence.
  destruct (Ascii.compare x y) eqn:Hxy; try discriminate;
    destruct (Ascii.compare y z) eqn:Hyz; try discriminate; intros H1 H2.
  - rewrite (ascii_compare_trans _ _ _ _ Hxy Hyz). eapply IH; eassumption.
  - apply Ascii.compare_eq_iff in Hxy. subst. now rewrite Hyz.
  - apply Ascii.compare_eq_iff in Hyz. subst. now rewrite Hxy.
  - now rewrite (ascii_compare_trans _ _ _ _ Hxy Hyz).
Qed.

Lemma string_leb_trans (a b c : string) :
  String.leb a b = true -> String.leb b c = true -> String.leb a c = true.
Proof.
  unfold String.leb.
  destruct (String.compare a b) eqn:Hab; try discriminate;
    destruct (String.compare b c) eqn:Hbc; try discriminate; intros _ _.
  - apply String.compare_eq_iff in Hab, Hbc. subst.
    fold (String.leb c c). apply string_leb_refl.
  - apply String.compare_eq_iff in Hab. subst. now rewrite Hbc.
  - apply String.compare_eq_iff in Hbc. subst. now rewrite Hab.
  - now rewrite (string_compare_lt_trans _ _ _ Hab Hbc).
Qed.

Definition le (a b : IssueRecord) : Prop :=
  key_le (get_sort_key a) (get_sort_key b) = true.

Lemma key_le_total (a b : nat * string) : key_le a b = false -> key_le b a = true.
Proof.
  unfold key_le. destruct a as [t1 i1], b as [t2 i2]; simpl.
  destruct (t1 <? t2) eqn:H1; [discriminate|].
  destruct (t2 <? t1) eqn:H2; [reflexivity|].
  apply Nat.ltb_ge in H1, H2.
  assert (t1 = t2) by lia. subst. rewrite Nat.eqb_refl. simpl.
  destruct (String.leb_total i1 i2) as [-> | ->]; [discriminate | reflexivity].
Qed.

Lemma key_le_trans (a b c : nat * string) :
  key_le a b = true -> key_le b c = true -> key_le a c = true.
Proof.
  unfold key_le. destruct a as [t1 i1], b as [t2 i2], c as [t3 i3]; simpl.
  intros H1 H2.
  apply orb_true_iff in H1 as [H1 | H1]; apply orb_true_iff in H2 as [H2 | H2];
    repeat match goal with
      | H : (_ <? _) = true |- _ => apply Nat.ltb_lt in H
      | H : _ && _ = true |- _ => apply andb_true_iff in H as [? ?]
      | H : (_ =? _) = true |- _ => apply Nat.eqb_eq in H
      end; subst.
  - apply orb_true_iff. left. apply Nat.ltb_lt. lia.
  - apply orb_true_iff. left. now apply Nat.ltb_lt.
  - apply orb_true_iff. left. now apply Nat.ltb_lt.
  - apply orb_true_iff. right. rewrite Nat.eqb_refl. simpl.
    eapply string_leb_trans; eassumption.
Qed.

Lemma key_le_antisym (a b : nat * string) :
  key_le a b = true -> key_le b a = true -> a = b.
Proof.
  unfold key_le. destruct a as [t1 i1], b as [t2 i2]; simpl. intros H1 H2.
  apply orb_true_iff in H1 as [H1 | H1]; apply orb_true_iff in H2 as [H2 | H2];
    repeat match goal with
      | H : (_ <? _) = true |- _ => apply Nat.ltb_lt in H
      | H : _ && _ = true |- _ => apply andb_true_iff in H as [? ?]
      | H : (_ =? _) = true |- _ => apply Nat.eqb_eq in H
      end; subst; try lia.
  f_equal. now apply String.leb_antisym.
Qed.

(** *** Insertion keeps the list sorted and its elements *)

Lemma insert_perm (x : IssueRecord) (l : list IssueRecord) :
  Permutation (x :: l) (insert_by_key x l).
Proof.
  induction l as [|y l IH]; simpl; [apply Permutation_refl|].
  destruct (key_le (get_sort_key x) (get_sort_key y)); [apply Permutation_refl|].
  eapply perm_trans; [apply perm_swap | apply perm_skip, IH].
Qed.

Lemma sort_perm (l : list IssueRecord) : Permutation l (sort_issues_by_type l).
Proof.
  induction l as [|x l IH]; simpl; [constructor|].
  eapply perm_trans; [apply perm_skip, IH | apply insert_perm].
Qed.

Lemma insert_sorted (x : IssueRecord) (l : list IssueRecord) :
  StronglySorted le l -> StronglySorted le (insert_by_key x l).
Proof.
  induction l as [|y l IH]; simpl; intro Hs.
  - constructor; constructor.
  - destruct (key_le (get_sort_key x) (get_sort_key y)) eqn:Hxy.
    + constructor; [exact Hs|].
      constructor; [exact Hxy|].
      inversion Hs as [|? ? _ Hall]; subst.
      eapply Forall_impl; [|exact Hall].
      intros z Hz. unfold le in *. eapply key_le_trans; eassumption.
    + inversion Hs as [|? ? Hl Hall]; subst.
      constructor; [apply IH, Hl|].
      eapply Permutation_Forall; [apply insert_perm|].
      constructor; [apply key_le_total, Hxy | exact Hall].
Qed.

Lemma sort_sorted (l : list IssueRecord) : StronglySorted le (sort_issues_by_type l).
Proof.
  induction l as [|x l IH]; simpl; [constructor | apply insert_sorted, IH].
Qed.

Lemma insert_head (x : IssueRecord) (l : list IssueRecord) :
  Forall (le x) l -> insert_by_key x l = x :: l.
Proof.
  destruct l as [|y l]; simpl; [reflexivity|].
  intro H. inversion H as [|? ? Hxy _]; subst. unfold le in Hxy. now rewrite Hxy.
Qed.

Lemma sort_of_sorted (l : list IssueRecord) :
  StronglySorted le l -> sort_issues_by_type l = l.
Proof.
  induction 1 as [|x l Hs IH Hall]; simpl; [reflexivity|].
  rewrite IH. now apply insert_head.
Qed.

(** *** With distinct identifiers the sorted list is unique *)

Lemma same_identifier (l : list IssueRecord) (a b : IssueRecord) :
  NoDup (map identifier l) -> In a l -> In b l -> identifier a = identifier b -> a = b.
Proof.
  induction l as [|x l IH]; simpl; [contradiction|].
  intros Hnd [Ha | Ha] [Hb | Hb] Hid; inversion Hnd as [|? ? Hx Hnd']; subst.
  - reflexivity.
  - exfalso. apply Hx. rewrite Hid. now apply in_map.
  - exfalso. apply Hx. rewrite <- Hid. now apply in_map.
  - now apply IH.
Qed.

Lemma sorted_unique (l1 l2 : list IssueRecord) :
  NoDup (map identifier l1) -> Permutation l1 l2 ->
  StronglySorted le l1 -> StronglySorted le l2 -> l1 = l2.
Proof.
  revert l2. induction l1 as [|a l1 IH]; intros l2 Hnd Hp Hs1 Hs2.
  - apply Permutation_nil in Hp. now subst.
  - destruct l2 as [|b l2].
    { apply Permutation_sym, Permutation_nil in Hp. discriminate. }
    inversion Hs1 as [|? ? Hs1' Hall1]; subst.
    inversion Hs2 as [|? ? Hs2' Hall2]; subst.
    assert (Hab : a = b).
    { assert (Ha : In a (b :: l2)) by (eapply Permutation_in; [exact Hp | now left]).
      assert (Hb : In b (a :: l1))
        by (eapply Permutation_in; [apply Permutation_sym, Hp | now left]).
      destruct Ha as [Ha | Ha]; [now subst|].
      destruct Hb as [Hb | Hb]; [now subst|].
      rewrite Forall_forall in Hall1, Hall2.
      assert (Hk : get_sort_key a = get_sort_key b)
        by (apply key_le_antisym; [apply Hall1, Hb | apply Hall2, Ha]).
      apply (same_identifier (a :: l1)); try assumption; try now left.
      - now right.
      - unfold get_sort_key in Hk. congruence. }
    subst b. f_equal.
    apply IH; try assumption.
    + now inversion Hnd.
    + eapply Permutation_cons_inv. exact Hp.
Qed.

Lemma sorted_pairs (l l1 l2 l3 : list IssueRecord) (a b : IssueRecord) :
  StronglySorted le l -> l = (l1 ++ a :: l2 ++ b :: l3)%list -> le a b.
Proof.
  intros Hs ->. revert Hs. induction l1 as [|x l1 IH]; simpl; intro Hs.
  - inversion Hs as [|? ? _ Hall]; subst.
    rewrite Forall_forall in Hall. apply Hall.
    apply in_or_app. right. now left.
  - inversion Hs; subst. now apply IH.
Qed.

(** *** The tiers *)

Lemma mem_In (x : Issue) (l : list Issue) : mem x l = true <-> In x l.
Proof.
  unfold mem. rewrite existsb_exists. split.
  - intros (y & Hy & He). destruct x, y; try discriminate; exact Hy.
  - intro H. exists x. split; [exact H | destruct x; reflexivity].
Qed.

Lemma set_is_spec (x : Issue) (l : list Issue) :
  set_is x l = true <-> (l <> [] /\ forall y, In y l -> y = x).
Proof.
  unfold set_is. destruct l as [|z l].
  - split; [discriminate | intros [H _]; congruence].
  - rewrite forallb_forall. split.
    + intro H. split; [discriminate|].
      intros y Hy. specialize (H y Hy). destruct x, y; try discriminate; reflexivity.
    + intros [_ H] y Hy. rewrite (H y Hy). destruct x; reflexivity.
Qed.

(** The issue set is exactly [{x}]. *)
Definition exactly (x : Issue) (l : list Issue) : Prop :=
  l <> [] /\ forall y, In y l -> y = x.

Definition all_issues : list Issue :=
  [missing_band; missing_venue; missing_date; bad_date_format].

Definition only (x : Issue) (l : list Issue) : bool :=
  mem x l && forallb (fun y => Issue_eqb y x || negb (mem y l)) all_issues.

Lemma only_spec (x : Issue) (l : list Issue) : only x l = true <-> exactly x l.
Proof.
  unfold only, exactly. rewrite andb_true_iff, forallb_forall, mem_In. split.
  - intros [Hx Hall]. split.
    + intros ->. exact Hx.
    + intros y Hy.
      assert (Hin : In y all_issues) by (destruct y; simpl; tauto).
      specialize (Hall y Hin). apply orb_true_iff in Hall as [He | Hn].
      * destruct x, y; try discriminate; reflexivity.
      * apply negb_true_iff in Hn. apply mem_In in Hy. congruence.
  - intros [Hne Hall]. split.
    + destruct l as [|z l]; [congruence|].
      rewrite <- (Hall z (or_introl eq_refl)). now left.
    + intros y _. destruct (mem y l) eqn:Hy.
      * apply mem_In in Hy. rewrite (Hall y Hy). destruct x; reflexivity.
      * apply orb_true_iff. now right.
Qed.

Lemma set_is_only (x : Issue) (l : list Issue) : set_is x l = only x l.
Proof.
  apply eq_iff_eq_true. rewrite set_is_spec, only_spec. reflexivity.
Qed.

Lemma tier_spec (i : list Issue) :
  (exactly bad_date_format i <-> tier i = 1)
  /\ (In missing_band i /\ In missing_venue i <-> tier i = 2)
  /\ (In missing_band i /\ ~ In missing_venue i /\ In bad_date_format i <-> tier i = 3)
  /\ (In missing_venue i /\ ~ In missing_band i /\ In bad_date_format i <-> tier i = 4)
  /\ (exactly missing_band i <-> tier i = 5)
  /\ (exactly missing_venue i <-> tier i = 6)
  /\ 1 <= tier i <= 7.
Proof.
  unfold tier. rewrite <- !only_spec, <- !mem_In, !set_is_only. unfold only. simpl.
  destruct (mem missing_band i), (mem missing_venue i), (mem missing_date i),
    (mem bad_date_format i); simpl;
    repeat split; intros; intuition (try discriminate; try congruence; try lia).
Qed.

Lemma nodup_middle (l1 l2 l3 : list IssueRecord) (a b : IssueRecord) :
  NoDup (map identifier (l1 ++ a :: l2 ++ b :: l3)) -> identifier a <> identifier b.
Proof.
  rewrite map_app. simpl. intros Hnd Heq.
  apply NoDup_remove_2 in Hnd. apply Hnd.
  apply in_or_app. right. rewrite map_app. apply in_or_app. right. simpl. now left.
Qed.

(** An issue about the date: either of the two date tags. *)
Definition date_issue (x : Issue) : Prop := x = missing_date \/ x = bad_date_format.

(** C6 (counterexample).  The claim's rule for tier 3, read with ``a date issue'' as either date
    tag, fails: a record missing its band and its date is in tier 7. *)
Lemma C6_counterexample :
  let i := [missing_band; missing_date] in
  In missing_band i /\ (exists x, In x i /\ date_issue x)
  /\ (In missing_venue i -> False) /\ tier i = 7.
Proof.
  simpl. repeat split.
  - now left.
  - exists missing_date. split; [right; now left | now left].
  - intros [H | [H | []]]; discriminate.
Qed.

(** C6 (amended).  Review order is the sort on (tier, identifier), with tier
    1 for exactly {bad_date_format}, 2 for sets with missing_band and
    missing_venue, 3 for missing_band with bad_date_format (no venue), 4 for
    missing_venue with bad_date_format (no band), 5 for exactly
    {missing_band}, 6 for exactly {missing_venue} and 7 for the rest.  For
    records with distinct identifiers the sorted list is a rearrangement of
    the input that does not depend on the input's order, sorting it again
    changes nothing, tiers never decrease along it, and records of equal
    tier are in strictly ascending identifier order. *)
Theorem C6_review_order (l : list IssueRecord) :
  NoDup (map identifier l) ->
  let s := sort_issues_by_type l in
  (forall i : list Issue,
      (exactly bad_date_format i <-> tier i = 1)
      /\ (In missing_band i /\ In missing_venue i <-> tier i = 2)
      /\ (In missing_band i /\ ~ In missing_venue i /\ In bad_date_format i <-> tier i = 3)
      /\ (In missing_venue i /\ ~ In missing_band i /\ In bad_date_format i <-> tier i = 4)
      /\ (exactly missing_band i <-> tier i = 5)
      /\ (exactly missing_venue i <-> tier i = 6)
      /\ 1 <= tier i <= 7)
  /\ Permutation l s
  /\ sort_issues_by_type s = s
  /\ (forall l', Permutation l l' -> sort_issues_by_type l' = s)
  /\ (forall l1 a l2 b l3, s = (l1 ++ a :: l2 ++ b :: l3)%list ->
        tier (issues a) <= tier (issues b)
        /\ (tier (issues a) = tier (issues b) ->
            String.ltb (identifier a) (identifier b) = true)).
Proof.
  intros Hnd s.
  assert (Hperm : Permutation l s) by apply sort_perm.
  assert (Hsorted : StronglySorted le s) by apply sort_sorted.
  assert (Hnds : NoDup (map identifier s)).
  { eapply Permutation_NoDup; [apply Permutation_map, Hperm | exact Hnd]. }
  split; [exact tier_spec|].
  split; [exact Hperm|].
  split; [now apply sort_of_sorted|].
  split.
  - intros l' Hl'. symmetry. apply sorted_unique.
    + exact Hnds.
    + eapply perm_trans; [apply Permutation_sym, Hperm|].
      eapply perm_trans; [exact Hl' | apply sort_perm].
    + exact Hsorted.
    + apply sort_sorted.
  - intros l1 a l2 b l3 Hs.
    assert (Hab : le a b) by (eapply sorted_pairs; eassumption).
    assert (Hid : identifier a <> identifier b).
    { rewrite Hs in Hnds. eapply nodup_middle. exact Hnds. }
    unfold le, key_le, get_sort_key in Hab. simpl in Hab.
    apply orb_true_iff in Hab as [Hlt | Heq].
    + apply Nat.ltb_lt in Hlt. split; [lia | intro; lia].
    + apply andb_true_iff in Heq as [Ht Hle]. apply Nat.eqb_eq in Ht.
      split; [lia|]. intros _.
      unfold String.leb in Hle. unfold String.ltb.
      destruct (String.compare (identifier a) (identifier b)) eqn:Hc;
        try reflexivity; try discriminate.
      apply String.compare_eq_iff in Hc. contradiction.
Qed.

Definition rec_a : IssueRecord :=
  mkIssue "b_item" "t" (mkCurrent None None None) [bad_date_format] [].
Definition rec_b : IssueRecord :=
  mkIssue "a_item" "t" (mkCurrent None None None) [bad_date_format] [].
Definition rec_c : IssueRecord :=
  mkIssue "c_item" "t" (mkCurrent None None None) [missing_band; missing_venue] [].

Lemma C6_review_order_witness :
  sort_issues_by_type (sort_issues_by_type [rec_c; rec_a; rec_b])
  = sort_issues_by_type [rec_c; rec_a; rec_b]
  /\ sort_issues_by_type [rec_c; rec_a; rec_b] = [rec_b; rec_a; rec_c].
Proof.
  split; [|vm_compute; reflexivity].
  assert (Hnd : NoDup (map identifier [rec_c; rec_a; rec_b])).
  { simpl. constructor; [intros [H | [H | []]]; discriminate|].
    constructor; [intros [H | []]; discriminate|].
    constructor; [intros [] | constructor]. }
  destruct (C6_review_order [rec_c; rec_a; rec_b] Hnd) as (_ & _ & H & _).
  exact H.
Defined.

End SortProps.

(** ** Symbolic evaluation of the matcher on digit strings *)

Fixpoint all_digits (s : string) : bool :=
  match s with
  | EmptyString => true
  | String c s' => is_digit c && all_digits s'
  end.

(** A string of between [lo] and [hi] digits. *)
Definition digits (lo hi : nat) (s : string) : Prop :=
  all_digits s = true /\ lo <= String.length s <= hi.

Lemma digit_neq (c x : ascii) :
  is_digit c = true -> is_digit x = false -> Ascii.eqb c x = false.
Proof.
  intros H1 H2. destruct (Ascii.eqb_spec c x); [subst; congruence | reflexivity].
Qed.

Lemma append_inv_head (s a b : string) : s ++ a = s ++ b -> a = b.
Proof. induction s as [|c s IH]; simpl; [trivial | intros [= H]; auto]. Qed.

Ltac closed_ascii c :=
  lazymatch c with
  | Ascii _ _ _ _ _ _ _ _ => idtac
  end.

Ltac re_cbn :=
  cbn [run cat step times upto d12 dN ch lit rest prev opened closed
       advance open_group close_group orelse cset_match map fst snd snoc append
       at_eol Nat.sub here rmatch search search_from group grp assoc Nat.eqb
       String.length app].

Ltac re_rw :=
  repeat match goal with
    | H : is_digit ?c = true |- context [is_digit ?c] => rewrite H
    | H : is_digit ?c = false |- context [is_digit ?c] => rewrite H
    | H : is_digit ?c = true |- context [Ascii.eqb ?c ?x] =>
        rewrite (digit_neq c x H eq_refl)
    | |- context [is_digit ?c] =>
        closed_ascii c;
        let v := eval vm_compute in (is_digit c) in change (is_digit c) with v
    | |- context [Ascii.eqb ?a ?b] =>
        closed_ascii a; closed_ascii b;
        let v := eval vm_compute in (Ascii.eqb a b) in change (Ascii.eqb a b) with v
    end.

Ltac re_eval := repeat (progress (re_cbn; re_rw)).

Ltac split_digits :=
  repeat match goal with
    | H : digits _ _ _ |- _ => destruct H as [? ?]
    | H : all_digits (String _ _) = true |- _ => simpl in H
    | H : _ && _ = true |- _ => apply andb_true_iff in H as [? ?]
    | H : _ <= String.length _ <= _ |- _ => simpl in H
    end.

(** Case analysis on a string of one or two digits, and on a year of two or
    four digits. *)
Ltac one_or_two H s :=
  let c1 := fresh s "1" in let c2 := fresh s "2" in let c3 := fresh s "3" in
  destruct s as [|c1 [|c2 [|c3 s]]];
  try (exfalso; destruct H as [_ H]; simpl in H; lia).

Ltac two_or_four H y :=
  let c1 := fresh y "1" in let c2 := fresh y "2" in let c3 := fresh y "3" in
  let c4 := fresh y "4" in let c5 := fresh y "5" in
  destruct y as [|c1 [|c2 [|c3 [|c4 [|c5 y]]]]]; simpl in H;
  try (exfalso; lia).

(** ["20" + year] for a two-digit year, the year itself otherwise. *)
Definition expand_year (y : string) : string :=
  if String.length y =? 2 then "20" ++ y else y.

Module DateProps.

Ltac unfold_standardize :=
  unfold standardize_date, expand_year, mmddyy_re, mmddyyyy_re, ddmmyy_re,
    ddmmyyyy_re, iso_date_re, yyyymmdd_re, yyyy_re.

Lemma standardize_slash (m d y : string) :
  digits 1 2 m -> digits 1 2 d -> all_digits y = true ->
  String.length y = 2 \/ String.length y = 4 ->
  standardize_date (m ++ "/" ++ d ++ "/" ++ y)
  = expand_year y ++ "-" ++ zfill 2 m ++ "-" ++ zfill 2 d.
Proof.
  intros Hm Hd Hy Hl.
  one_or_two Hm m; one_or_two Hd d; two_or_four Hl y;
    split_digits; unfold_standardize; re_eval; reflexivity.
Qed.

Lemma standardize_dot (d m y : string) :
  digits 1 2 d -> digits 1 2 m -> all_digits y = true ->
  String.length y = 2 \/ String.length y = 4 ->
  standardize_date (d ++ "." ++ m ++ "." ++ y)
  = expand_year y ++ "-" ++ zfill 2 m ++ "-" ++ zfill 2 d.
Proof.
  intros Hd Hm Hy Hl.
  one_or_two Hm m; one_or_two Hd d; two_or_four Hl y;
    split_digits; unfold_standardize; re_eval; reflexivity.
Qed.

Lemma zfill_one (c : ascii) :
  is_digit c = true -> zfill 2 (String c "") = String "0" (String c "").
Proof.
  intro H. unfold zfill. simpl.
  now rewrite (digit_neq c "+" H eq_refl), (digit_neq c "-" H eq_refl).
Qed.

Lemma zfill_two (c1 c2 : ascii) :
  zfill 2 (String c1 (String c2 "")) = String c1 (String c2 "").
Proof. reflexivity. Qed.

Lemma int_one (c : ascii) : is_digit c = true -> int (String c "") = digit_val c.
Proof. intro H. unfold int. simpl. rewrite H. lia. Qed.

Lemma int_two (c1 c2 : ascii) :
  is_digit c1 = true -> is_digit c2 = true ->
  int (String c1 (String c2 "")) = 10 * digit_val c1 + digit_val c2.
Proof. intros H1 H2. unfold int. simpl. rewrite H1, H2. lia. Qed.

Lemma digit_val_zero : digit_val "0" = 0.
Proof. reflexivity. Qed.

(** Padding to two digits keeps the number: equal fields, equal numbers. *)
Lemma zfill_int (a b : string) :
  digits 1 2 a -> digits 1 2 b -> zfill 2 a = zfill 2 b -> int a = int b.
Proof.
  intros Ha Hb.
  one_or_two Ha a; one_or_two Hb b; split_digits;
    repeat match goal with
      | H : is_digit ?c = true |- context [zfill 2 (String ?c "")] =>
          rewrite (zfill_one c H)
      end;
    rewrite ?zfill_two; intros [= ]; subst;
    repeat match goal with
      | H1 : is_digit ?c1 = true, H2 : is_digit ?c2 = true
        |- context [int (String ?c1 (String ?c2 ""))] => rewrite (int_two c1 c2 H1 H2)
      | H : is_digit ?c = true |- context [int (String ?c "")] => rewrite (int_one c H)
      end;
    rewrite ?digit_val_zero; lia.
Qed.

(** C4.  A slashed date is read month/day/year and a dotted date
    day.month.year: for the same digit triple the two canonical dates carry
    the first two fields in opposite positions, so they differ whenever the
    two fields are different numbers, in particular when one exceeds 12 and
    the other is at most 12. *)
Theorem C4_dot_vs_slash (a b y : string) :
  digits 1 2 a -> digits 1 2 b -> all_digits y = true ->
  String.length y = 2 \/ String.length y = 4 ->
  standardize_date (a ++ "/" ++ b ++ "/" ++ y)
  = expand_year y ++ "-" ++ zfill 2 a ++ "-" ++ zfill 2 b
  /\ standardize_date (a ++ "." ++ b ++ "." ++ y)
     = expand_year y ++ "-" ++ zfill 2 b ++ "-" ++ zfill 2 a
  /\ (int a <> int b ->
      standardize_date (a ++ "/" ++ b ++ "/" ++ y)
      <> standardize_date (a ++ "." ++ b ++ "." ++ y))
  /\ ((12 < int b /\ int a <= 12) \/ (12 < int a /\ int b <= 12) ->
      standardize_date (a ++ "/" ++ b ++ "/" ++ y)
      <> standardize_date (a ++ "." ++ b ++ "." ++ y)).
Proof.
  intros Ha Hb Hy Hl.
  assert (Hs := standardize_slash a b y Ha Hb Hy Hl).
  assert (Hd := standardize_dot a b y Ha Hb Hy Hl).
  assert (Hne : int a <> int b ->
            standardize_date (a ++ "/" ++ b ++ "/" ++ y)
            <> standardize_date (a ++ "." ++ b ++ "." ++ y)).
  { intros Hab Heq. rewrite Hs, Hd in Heq.
    apply append_inv_head in Heq. change ("-" ++ ?x) with (String "-" x) in Heq.
    injection Heq as Heq.
    apply Hab, zfill_int; try assumption.
    assert (Hlen : forall s, digits 1 2 s -> String.length (zfill 2 s) = 2).
    { intros s H. one_or_two H s; split_digits;
        [rewrite zfill_one by assumption | rewrite zfill_two]; reflexivity. }
    assert (Hpre : forall p q r s : string,
               String.length p = String.length q -> p ++ r = q ++ s -> p = q).
    { induction p as [|c p IH]; intros [|c' q] r s Hlen' Hpq; simpl in *;
        try discriminate; [reflexivity|].
      injection Hpq as -> Hpq. f_equal. eapply IH; [lia | eassumption]. }
    eapply Hpre; [|exact Heq]. now rewrite !Hlen. }
  repeat split; try assumption.
  intros [[H1 H2] | [H1 H2]]; apply Hne; lia.
Qed.

Lemma C4_dot_vs_slash_witness :
  standardize_date "13/02/2014" = "2014-13-02"
  /\ standardize_date "13.02.2014" = "2014-02-13".
Proof.
  assert (Ha : digits 1 2 "13") by (split; [reflexivity | simpl; lia]).
  assert (Hb : digits 1 2 "02") by (split; [reflexivity | simpl; lia]).
  destruct (C4_dot_vs_slash "13" "02" "2014" Ha Hb eq_refl (or_intror eq_refl))
    as (H1 & H2 & _).
  split; [exact H1 | exact H2].
Defined.

(** ** C3: the shape of canonical dates *)

(** Four digits, a hyphen, two digits, a hyphen, two digits. *)
Definition canonical_shape (s : string) : bool :=
  match s with
  | String y1 (String y2 (String y3 (String y4 (String h1 (String m1 (String m2
      (String h2 (String d1 (String d2 EmptyString))))))))) =>
      is_digit y1 && is_digit y2 && is_digit y3 && is_digit y4 && Ascii.eqb h1 "-"
      && is_digit m1 && is_digit m2 && Ascii.eqb h2 "-" && is_digit d1 && is_digit d2
  | _ => false
  end.

(** The month and day fields of a string of canonical shape, as numbers. *)
Definition month_field (s : string) : nat := int (substring 5 2 s).
Definition day_field (s : string) : nat := int (substring 8 2 s).

(** The input shapes the canonicaliser recognises. *)
Inductive recognized : string -> Prop :=
| rec_slash (m d y : string) :
    digits 1 2 m -> digits 1 2 d -> all_digits y = true ->
    String.length y = 2 \/ String.length y = 4 ->
    recognized (m ++ "/" ++ d ++ "/" ++ y)
| rec_dot (d m y : string) :
    digits 1 2 d -> digits 1 2 m -> all_digits y = true ->
    String.length y = 2 \/ String.length y = 4 ->
    recognized (d ++ "." ++ m ++ "." ++ y)
| rec_timestamp (c time : string) :
    canonical_shape c = true -> recognized (c ++ "T" ++ time)
| rec_canonical (c : string) :
    canonical_shape c = true -> recognized c
| rec_year (y : string) :
    all_digits y = true -> String.length y = 4 -> recognized y.

Ltac split_shape H :=
  unfold canonical_shape in H;
  repeat match type of H with
    | match ?s with _ => _ end = true => destruct s; try discriminate H
    end;
  repeat match goal with
    | H' : _ && _ = true |- _ => apply andb_true_iff in H' as [? ?]
    | H' : Ascii.eqb _ _ = true |- _ => apply Ascii.eqb_eq in H'; subst
    end.

Ltac shape_done :=
  unfold canonical_shape;
  repeat match goal with
    | H : is_digit ?c = true |- context [zfill 2 (String ?c "")] =>
        rewrite (zfill_one c H)
    end;
  rewrite ?zfill_two; cbn [append]; re_rw; reflexivity.

Lemma standardize_timestamp (c time : string) :
  canonical_shape c = true -> standardize_date (c ++ "T" ++ time) = c.
Proof.
  intro H. split_shape H. unfold_standardize. re_eval. reflexivity.
Qed.

Lemma standardize_canonical (c : string) :
  canonical_shape c = true -> standardize_date c = c.
Proof.
  intro H. split_shape H. unfold_standardize. re_eval. reflexivity.
Qed.

Lemma standardize_year (y : string) :
  all_digits y = true -> String.length y = 4 -> standardize_date y = y ++ "-01-01".
Proof.
  intros H Hl.
  destruct y as [|y1 [|y2 [|y3 [|y4 [|y5 y]]]]]; try discriminate Hl.
  split_digits. unfold_standardize. re_eval. reflexivity.
Qed.

Lemma shape_of_fields (a b y : string) :
  digits 1 2 a -> digits 1 2 b -> all_digits y = true ->
  String.length y = 2 \/ String.length y = 4 ->
  canonical_shape (expand_year y ++ "-" ++ zfill 2 a ++ "-" ++ zfill 2 b) = true.
Proof.
  intros Ha Hb Hy Hl.
  one_or_two Ha a; one_or_two Hb b; two_or_four Hl y; split_digits;
    unfold expand_year; cbn [String.length Nat.eqb]; shape_done.
Qed.

(** C3 (counterexample).  The claim's range for month and day fails: canonicalising copies the
    digits, so month 13 and day 45 come out as they went in. *)
Lemma C3_counterexample :
  recognized "13/45/2014"
  /\ standardize_date "13/45/2014" = "2014-13-45"
  /\ month_field "2014-13-45" = 13 /\ 12 < month_field "2014-13-45"
  /\ day_field "2014-13-45" = 45 /\ 31 < day_field "2014-13-45".
Proof.
  split.
  - apply (rec_slash "13" "45" "2014").
    + split; [reflexivity | simpl; lia].
    + split; [reflexivity | simpl; lia].
    + reflexivity.
    + now right.
  - vm_compute. repeat split; repeat constructor.
Qed.

(** C3 (amended).  For every input of a recognised shape the canonicaliser
    returns a string of the shape YYYY-MM-DD: four digits, a hyphen, two
    digits, a hyphen, two digits.  The month and day fields are the input's
    digits, padded to two, and are not checked against a calendar range. *)
Theorem C3_canonical_shape (s : string) :
  recognized s -> canonical_shape (standardize_date s) = true.
Proof.
  intros [m d y Hm Hd Hy Hl | d m y Hd Hm Hy Hl | c time Hc | c Hc | y Hy Hl].
  - rewrite standardize_slash by assumption. now apply shape_of_fields.
  - rewrite standardize_dot by assumption. now apply shape_of_fields.
  - now rewrite standardize_timestamp.
  - now rewrite standardize_canonical.
  - rewrite standardize_year by assumption.
    destruct y as [|y1 [|y2 [|y3 [|y4 [|y5 y]]]]]; try discriminate Hl.
    split_digits. shape_done.
Qed.

Lemma C3_canonical_shape_witness :
  canonical_shape (standardize_date "2016-02-28T00:00:00Z") = true.
Proof.
  apply C3_canonical_shape.
  apply (rec_timestamp "2016-02-28" "00:00:00Z"). reflexivity.
Defined.

End DateProps.

(** ** The free-text extractor on two-digit years (C1) and its calendar check (C10) *)

Module ExtractProps.
Import DateProps.

Lemma lower_digit c : is_digit c = true -> lower_char c = c.
Proof.
  unfold is_digit, lower_char, between. intro H.
  apply andb_true_iff in H as [H1 H2]. apply Nat.leb_le in H1, H2.
  replace (65 <=? code c) with false by (symmetry; apply Nat.leb_gt; lia).
  replace (192 <=? code c) with false by (symmetry; apply Nat.leb_gt; lia).
  reflexivity.
Qed.

Lemma code_inj a b : code a = code b -> a = b.
Proof.
  unfold code. intro H.
  rewrite <- (ascii_nat_embedding a), <- (ascii_nat_embedding b). now rewrite H.
Qed.

Lemma between_true lo hi c : between lo hi c = true -> lo <= code c <= hi.
Proof.
  unfold between. intro H. apply andb_true_iff in H as [H1 H2].
  apply Nat.leb_le in H1, H2. lia.
Qed.

Lemma between_false lo hi c : between lo hi c = false -> code c < lo \/ hi < code c.
Proof.
  unfold between. intro H.
  apply andb_false_iff in H as [H | H]; apply Nat.leb_gt in H; lia.
Qed.

Lemma eqb_false_code c x : Ascii.eqb c x = false -> code c <> code x.
Proof. intros H E. apply code_inj in E. subst. now rewrite Ascii.eqb_refl in H. Qed.

Lemma days_le_31 y m : days_in_month y m <= 31.
Proof.
  unfold days_in_month.
  do 13 (destruct m as [|m]; [try lia; try (destruct (is_leap y); lia)|]). lia.
Qed.

Ltac sp_rw :=
  repeat match goal with
    | H : is_digit ?c = true |- context [lower_char ?c] => rewrite (lower_digit c H)
    | |- context [lower_char ?c] =>
        closed_ascii c;
        let v := eval vm_compute in (lower_char c) in change (lower_char c) with v
    | |- context [code ?c] =>
        closed_ascii c;
        let v := eval vm_compute in (code c) in change (code c) with v
    | |- context [between ?lo ?hi ?c] =>
        closed_ascii c;
        let v := eval vm_compute in (between lo hi c) in change (between lo hi c) with v
    end.

Lemma orelse_none_r {A} (a : option A) : orelse a None = a.
Proof. now destruct a. Qed.

Ltac st_norm :=
  unfold advance, open_group, close_group;
  cbn [map fst snd snoc append opened closed prev rest];
  rewrite ?orelse_none_r.

Ltac sp_eval := repeat (progress (re_cbn; re_rw; sp_rw)); st_norm.

Ltac sp_case :=
  match goal with
  | |- context [if Ascii.eqb ?c ?x then _ else _] =>
      let E := fresh "E" in destruct (Ascii.eqb c x) eqn:E;
      [apply Ascii.eqb_eq in E; subst c | ]
  | |- context [if between ?lo ?hi ?c then _ else _] =>
      let E := fresh "E" in destruct (between lo hi c) eqn:E
  end.

(** What is known about the characters, as arithmetic on their codes. *)
Ltac code_facts :=
  repeat match goal with
    | H : is_digit ?c = true |- _ => apply (between_true 48 57 c) in H
    | H : between _ _ _ = true |- _ => apply between_true in H
    | H : between _ _ _ = false |- _ => apply between_false in H
    | H : Ascii.eqb _ _ = false |- _ => apply eqb_false_code in H
    end;
  repeat match goal with
    | H : context [code ?c] |- _ =>
        closed_ascii c;
        let v := eval vm_compute in (code c) in change (code c) with v in H
    | |- context [code ?c] =>
        closed_ascii c;
        let v := eval vm_compute in (code c) in change (code c) with v
    end.

Definition month_ok (m : nat) : bool := (1 <=? m) && (m <=? 12).
Definition day_ok (d : nat) : bool := (1 <=? d) && (d <=? 31).

Ltac int_unfold_in E :=
  unfold int in E; cbn [int_acc] in E;
  repeat match type of E with
    | context [is_digit ?c] =>
        first [ closed_ascii c;
                let v := eval vm_compute in (is_digit c) in
                change (is_digit c) with v in E
              | match goal with H : is_digit c = true |- _ => rewrite H in E end ]
    end;
  unfold digit_val in E.

(** Decide a range test on a number read from digits. *)
Ltac range_contra E :=
  unfold month_ok, day_ok in E; int_unfold_in E; code_facts;
  repeat match goal with
    | H : _ && _ = true |- _ => apply andb_true_iff in H as [? ?]
    | H : _ && _ = false |- _ => apply andb_false_iff in H as [H | H]
    | H : (_ <=? _) = true |- _ => apply Nat.leb_le in H
    | H : (_ <=? _) = false |- _ => apply Nat.leb_gt in H
    end; lia.

Ltac range_split :=
  match goal with
  | |- _ = (if ?b then _ else _) =>
      let E := fresh "E" in
      destruct b eqn:E; first [ reflexivity | exfalso; range_contra E ]
  end.

(** *** [strptime] on a token month-sep-day-sep-YY *)

Section Sep.
Variable sep : ascii.
Hypothesis sep_slash_or_dot : sep = "/"%char \/ sep = "."%char.

Lemma month_sep (p : option ascii) (m rest : string) (cl : list (nat * string))
  (R : regex) (k : cont) :
  digits 1 2 m ->
  run true (Cat month_re (Cat (ch sep) R)) (mkState p (m ++ String sep rest) [] cl) k
  = if month_ok (int m)
    then run true R (mkState (Some sep) rest [] ((2, m) :: cl)) k
    else None.
Proof.
  intro Hm. unfold month_re, digit_range.
  destruct sep_slash_or_dot; subst sep;
  one_or_two Hm m; split_digits; sp_eval; repeat (sp_case; sp_eval);
  range_split.
Qed.

Lemma day_sep (p : option ascii) (d rest : string) (cl : list (nat * string))
  (R : regex) (k : cont) :
  digits 1 2 d ->
  run true (Cat day_re (Cat (ch sep) R)) (mkState p (d ++ String sep rest) [] cl) k
  = if day_ok (int d)
    then run true R (mkState (Some sep) rest [] ((3, d) :: cl)) k
    else None.
Proof.
  intro Hm. unfold day_re, digit_range.
  destruct sep_slash_or_dot; subst sep;
  one_or_two Hm d; split_digits; sp_eval; repeat (sp_case; sp_eval);
  range_split.
Qed.



Lemma format_regex_sep :
  format_regex ("%m" ++ String sep ("%d" ++ String sep "%y"))
  = Some [month_re; ch sep; day_re; ch sep; year2_re].
Proof. destruct sep_slash_or_dot; subst sep; reflexivity. Qed.

Lemma valid_date_ranges (y m d : nat) :
  valid_date y m d = true -> month_ok m = true /\ day_ok d = true.
Proof.
  unfold valid_date, month_ok, day_ok. intro H.
  repeat match goal with
    | H : _ && _ = true |- _ => apply andb_true_iff in H as [? ?]
    end.
  assert (Hd := days_le_31 y m).
  repeat match goal with
    | H : (_ <=? _) = true |- _ => apply Nat.leb_le in H
    end.
  split; apply andb_true_iff; split; apply Nat.leb_le; lia.
Qed.

Lemma strptime_two_digit (m d : string) (y1 y2 : ascii) :
  digits 1 2 m -> digits 1 2 d -> is_digit y1 = true -> is_digit y2 = true ->
  strptime (m ++ String sep (d ++ String sep (String y1 (String y2 ""))))
           ("%m" ++ String sep ("%d" ++ String sep "%y"))
  = let y := two_digit_year (int (String y1 (String y2 ""))) in
    if valid_date y (int m) (int d) then Some (mkDate y (int m) (int d)) else None.
Proof.
  intros Hm Hd H1 H2. unfold strptime. rewrite format_regex_sep.
  unfold rmatch, here. cbn [cat].
  rewrite month_sep by assumption.
  destruct (month_ok (int m)) eqn:Em.
  - rewrite day_sep by assumption.
    destruct (day_ok (int d)) eqn:Ed.
    + unfold year2_re. sp_eval. reflexivity.
    + cbv zeta.
      destruct (valid_date _ (int m) (int d)) eqn:V; [|reflexivity].
      apply valid_date_ranges in V. destruct V; congruence.
  - cbv zeta.
    destruct (valid_date _ (int m) (int d)) eqn:V; [|reflexivity].
    apply valid_date_ranges in V. destruct V; congruence.
Qed.

End Sep.

(** *** Skipping a prefix without digits *)
Fixpoint no_digit (s : string) : bool :=
  match s with EmptyString => true | String c s' => negb (is_digit c) && no_digit s' end.

Fixpoint prev_after (p : option ascii) (pre : string) : option ascii :=
  match pre with EmptyString => p | String c pre' => prev_after (Some c) pre' end.

Definition digit_led (r : regex) : Prop :=
  forall p c s, is_digit c = false -> here false r p (String c s) = None.

Lemma search_skip (r : regex) (pre s : string) (p : option ascii) :
  digit_led r -> no_digit pre = true ->
  search_from false r p (pre ++ s) = search_from false r (prev_after p pre) s.
Proof.
  intros Hr. revert p. induction pre as [|c pre IH]; intros p Hpre; [reflexivity|].
  simpl in Hpre. apply andb_true_iff in Hpre as [Hc Hpre]. apply negb_true_iff in Hc.
  cbn [append search_from prev_after]. rewrite (Hr p c _ Hc). now apply IH.
Qed.

Ltac digit_led_tac :=
  unfold digit_led; intros ? ? ? ?; unfold here; re_eval; reflexivity.

Lemma date_patterns_digit_led :
  Forall (fun pf => digit_led (fst pf)) date_patterns.
Proof.
  unfold date_patterns. repeat constructor; cbn [fst]; digit_led_tac.
Qed.

Lemma extract_eq_loop (t : string) :
  extract_date_from_title t = date_loop date_patterns t.
Proof. destruct t; [vm_compute; reflexivity | reflexivity]. Qed.

Lemma date_loop_miss (pat : regex) (fmt : string) (pats : list (regex * string))
  (title : string) :
  search false pat title = None ->
  date_loop ((pat, fmt) :: pats) title = date_loop pats title.
Proof. intro H. cbn [date_loop]. now rewrite H. Qed.

Lemma date_loop_hit (pat : regex) (fmt : string) (pats : list (regex * string))
  (title : string) (mt : state) :
  search false pat title = Some mt -> String.eqb fmt "%Y" = false ->
  date_loop ((pat, fmt) :: pats) title
  = match strptime (grp 1 mt) fmt with
    | Some parsed => Some (format_date parsed)
    | None => date_loop pats title
    end.
Proof.
  intros H Hf. cbn [date_loop]. rewrite H, Hf.
  destruct (endswith fmt "%y"); reflexivity.
Qed.

Lemma date_loop_year (pat : regex) (pats : list (regex * string))
  (title : string) (mt : state) :
  search false pat title = Some mt ->
  date_loop ((pat, "%Y") :: pats) title = Some (grp 1 mt ++ "-01-01").
Proof. intro H. cbn [date_loop]. now rewrite H. Qed.

Ltac search_eval Hpre :=
  unfold search;
  rewrite search_skip by (first [exact Hpre | digit_led_tac]);
  re_eval; reflexivity.

Section Token.

Variable sep : ascii.
Hypothesis sep_slash_or_dot : sep = "/"%char \/ sep = "."%char.

(** A title that ends in a token month-sep-day-sep-YY, with no digit before
    it: the token is what the extractor reads, through [strptime]. *)
Lemma extract_two_digit (pre m d : string) (y1 y2 : ascii) :
  no_digit pre = true -> digits 1 2 m -> digits 1 2 d ->
  is_digit y1 = true -> is_digit y2 = true ->
  extract_date_from_title
    (pre ++ m ++ String sep (d ++ String sep (String y1 (String y2 ""))))
  = let y := two_digit_year (int (String y1 (String y2 ""))) in
    if valid_date y (int m) (int d)
    then Some (format_date (mkDate y (int m) (int d)))
    else None.
Proof.
  intros Hpre Hm Hd H1 H2.
  assert (Hs := strptime_two_digit sep sep_slash_or_dot m d y1 y2 Hm Hd H1 H2).
  cbv zeta in *. rewrite extract_eq_loop.
  destruct sep_slash_or_dot; subst sep;
    one_or_two Hm m; one_or_two Hd d; split_digits;
    unfold date_patterns; cbn [append] in *;
    repeat (rewrite date_loop_miss by search_eval Hpre);
    (erewrite date_loop_hit; [| search_eval Hpre | reflexivity]);
    cbn [grp group assoc closed Nat.eqb]; rewrite Hs;
    (destruct (valid_date _ _ _); [reflexivity|]);
    repeat (rewrite date_loop_miss by search_eval Hpre); reflexivity.
Qed.

End Token.

(** *** C1 *)

(** C1 (counterexample).  The rule year = 2000 + YY fails in the free-text extractor:
    "1/2/99" is read as 1999 there, while the canonicaliser gives 2099. *)
Lemma C1_counterexample :
  extract_date_from_title "1/2/99" = Some "1999-01-02"
  /\ standardize_date "1/2/99" = "2099-01-02"
  /\ int "1999" <> 2000 + int "99".
Proof. vm_compute. repeat split; try reflexivity. discriminate. Qed.

(** C1 (amended).  The canonicaliser expands a two-digit year YY by
    prefixing "20", for every YY, in the slash form (month/day/YY) and in the
    dot form (day.month.YY).  The free-text extractor reads YY through
    [strptime]'s %y: the year is 2000 + YY for YY up to 68 and 1900 + YY from
    69 on; this holds for a title that ends in the date token with no digit
    before it, and the date is returned only when it is a calendar date. *)
Theorem C1_two_digit_year (pre m d : string) (y1 y2 : ascii) :
  no_digit pre = true -> digits 1 2 m -> digits 1 2 d ->
  is_digit y1 = true -> is_digit y2 = true ->
  let yy := String y1 (String y2 "") in
  let y := two_digit_year (int yy) in
  standardize_date (m ++ "/" ++ d ++ "/" ++ yy)
  = "20" ++ yy ++ "-" ++ zfill 2 m ++ "-" ++ zfill 2 d
  /\ standardize_date (d ++ "." ++ m ++ "." ++ yy)
     = "20" ++ yy ++ "-" ++ zfill 2 m ++ "-" ++ zfill 2 d
  /\ extract_date_from_title (pre ++ m ++ "/" ++ d ++ "/" ++ yy)
     = (if valid_date y (int m) (int d)
        then Some (format_date (mkDate y (int m) (int d))) else None)
  /\ extract_date_from_title (pre ++ m ++ "." ++ d ++ "." ++ yy)
     = (if valid_date y (int m) (int d)
        then Some (format_date (mkDate y (int m) (int d))) else None)
  /\ (int yy <= 68 -> y = 2000 + int yy)
  /\ (69 <= int yy -> y = 1900 + int yy).
Proof.
  intros Hpre Hm Hd H1 H2 yy y.
  assert (Hyy : all_digits yy = true) by (unfold yy; simpl; now rewrite H1, H2).
  repeat split.
  - apply (standardize_slash m d yy Hm Hd Hyy). now left.
  - apply (standardize_dot d m yy Hd Hm Hyy). now left.
  - apply (extract_two_digit "/" (or_introl eq_refl) pre m d y1 y2); assumption.
  - apply (extract_two_digit "." (or_intror eq_refl) pre m d y1 y2); assumption.
  - intro H. unfold y, two_digit_year.
    destruct (Nat.leb_spec (int yy) 68); lia.
  - intro H. unfold y, two_digit_year.
    destruct (Nat.leb_spec (int yy) 68); lia.
Qed.

Lemma C1_two_digit_year_witness :
  extract_date_from_title ("Live at The Smell on " ++ "1" ++ "/" ++ "2" ++ "/" ++ "99")
  = Some "1999-01-02"
  /\ standardize_date ("1" ++ "/" ++ "2" ++ "/" ++ "99") = "2099-01-02".
Proof.
  assert (H1 : digits 1 2 "1") by (split; [reflexivity | simpl; lia]).
  assert (H2 : digits 1 2 "2") by (split; [reflexivity | simpl; lia]).
  destruct (C1_two_digit_year "Live at The Smell on " "1" "2" "9" "9"
              eq_refl H1 H2 eq_refl eq_refl) as (Hs & _ & He & _).
  split; [rewrite He; vm_compute; reflexivity | exact Hs].
Defined.

(** *** C10 *)

Lemma strptime_valid (s fmt : string) (parsed : date) :
  strptime s fmt = Some parsed ->
  valid_date (year parsed) (month parsed) (day parsed) = true.
Proof.
  unfold strptime.
  destruct (format_regex fmt) as [rs|]; [|discriminate].
  destruct (rmatch true (cat rs) s) as [found|]; [|discriminate].
  destruct (rest found); [|discriminate].
  match goal with
  | |- (if valid_date ?y ?m ?d then _ else _) = _ -> _ =>
      destruct (valid_date y m d) eqn:V; [|discriminate]
  end.
  intros [= <-]. exact V.
Qed.

Lemma valid_date_calendar (y m d : nat) :
  valid_date y m d = true -> 1 <= m <= 12 /\ 1 <= d <= days_in_month y m.
Proof.
  unfold valid_date. intro H.
  repeat match goal with
    | H : _ && _ = true |- _ => apply andb_true_iff in H as [? ?]
    end.
  repeat match goal with
    | H : (_ <=? _) = true |- _ => apply Nat.leb_le in H
    end.
  lia.
Qed.

Lemma search_from_here (r : regex) (s : string) (p : option ascii) (mt : state) :
  search_from false r p s = Some mt ->
  exists p' s', here false r p' s' = Some mt.
Proof.
  revert p. induction s as [|c s IH]; intros p; cbn [search_from].
  - destruct (here false r p "") eqn:E; [|discriminate].
    intros [= <-]. eauto.
  - destruct (here false r p (String c s)) eqn:E.
    + intros [= <-]. eauto.
    + apply IH.
Qed.

Lemma year_match (p : option ascii) (s : string) (mt : state) :
  here false (Group 1 (dN 4)) p s = Some mt ->
  all_digits (grp 1 mt) = true /\ String.length (grp 1 mt) = 4.
Proof.
  unfold here.
  destruct s as [|c1 [|c2 [|c3 [|c4 s]]]]; re_cbn;
    repeat match goal with
      | |- context [if is_digit ?c then _ else _] => destruct (is_digit c) eqn:?
      end; re_cbn; try discriminate.
  intros [= <-]. unfold close_group, advance, open_group.
  cbn [grp group assoc closed opened map fst snd snoc append Nat.eqb all_digits
       String.length].
  re_rw. split; reflexivity.
Qed.

(** A calendar date, rendered. *)
Definition calendar_date (r : string) : Prop :=
  exists parsed, r = format_date parsed
    /\ 1 <= month parsed <= 12
    /\ 1 <= day parsed <= days_in_month (year parsed) (month parsed).

(** The first of January of a four-digit year. *)
Definition year_only (r : string) : Prop :=
  exists yyyy, all_digits yyyy = true /\ String.length yyyy = 4
    /\ r = yyyy ++ "-01-01".

Lemma date_loop_result (pats : list (regex * string)) (title r : string) :
  Forall (fun pf => snd pf = "%Y" -> fst pf = Group 1 (dN 4)) pats ->
  date_loop pats title = Some r -> calendar_date r \/ year_only r.
Proof.
  induction 1 as [|[pat fmt] pats Hpf Hall IH]; cbn [date_loop]; [discriminate|].
  destruct (search false pat title) as [mt|] eqn:Hs; [|exact IH].
  assert (Hparsed : forall o : option date,
             o = strptime (grp 1 mt) fmt ->
             match o with
             | Some parsed => Some (format_date parsed)
             | None => date_loop pats title
             end = Some r -> calendar_date r \/ year_only r).
  { intros [parsed|] Ho; [|exact IH].
    intros [= <-]. left. exists parsed. split; [reflexivity|].
    apply valid_date_calendar. eapply strptime_valid. symmetry. exact Ho. }
  destruct (String.eqb_spec fmt "%Y") as [-> | Hne].
  - intros [= <-]. right. simpl in Hpf. rewrite (Hpf eq_refl) in Hs.
    apply search_from_here in Hs as (p' & s' & Hh).
    apply year_match in Hh as [Hd Hl].
    exists (grp 1 mt). auto.
  - destruct (endswith fmt "%y"); now apply Hparsed.
Qed.

(** C10.  The free-text extractor accepts a match of a full-date pattern
    only if [strptime] does: a match that is not a calendar date is skipped
    and the later patterns, the bare year included, are still tried.  So
    every date it returns is either a calendar date (month 1..12, day within
    the month) or the first of January of a bare year.  The canonicaliser
    makes no such check. *)
Theorem C10_calendar_validation :
  (forall pat fmt pats title mt,
      search false pat title = Some mt -> String.eqb fmt "%Y" = false ->
      strptime (grp 1 mt) fmt = None ->
      date_loop ((pat, fmt) :: pats) title = date_loop pats title)
  /\ (forall title r,
      extract_date_from_title title = Some r -> calendar_date r \/ year_only r)
  /\ extract_date_from_title "13/45/2014" = Some "2014-01-01"
  /\ extract_date_from_title "Show 04/31/2014" = Some "2014-01-01"
  /\ extract_date_from_title "02/30/14 at The Smell" = None
  /\ standardize_date "13/45/2014" = "2014-13-45".
Proof.
  split; [|split].
  - intros pat fmt pats title mt Hs Hf Hp.
    rewrite (date_loop_hit pat fmt pats title mt Hs Hf), Hp. reflexivity.
  - intros title r. rewrite extract_eq_loop. apply date_loop_result.
    unfold date_patterns. repeat constructor; cbn [fst snd]; try discriminate.
  - vm_compute. repeat split; reflexivity.
Qed.

Lemma C10_calendar_validation_witness :
  calendar_date "2014-06-14" \/ year_only "2014-06-14".
Proof.
  destruct C10_calendar_validation as (_ & H & _).
  apply (H "Band on 2014-06-14"). vm_compute. reflexivity.
Defined.

End ExtractProps.

(** ** The identifier and title parsers of the auditor and the corrector *)

Module ParseProps.
Import DateProps ExtractProps.

(** Case analysis along the head of a match that is assumed to succeed. *)
Ltac head_cases :=
  repeat first
    [ match goal with
      | |- (if ?b then _ else _) = _ -> _ => destruct b eqn:?
      | |- match ?s with EmptyString => _ | String _ _ => _ end = _ -> _ => destruct s
      | |- None = Some _ -> _ => discriminate
      end
    | progress re_cbn
    | unfold step at 1; cbn [rest open_group advance] ];
  cbn [cset_match] in *.

Ltac shape_of_match :=
  intros [= <-]; unfold close_group, advance, open_group;
  cbn [grp group assoc closed opened map fst snd snoc append Nat.eqb canonical_shape];
  repeat match goal with
    | H : Ascii.eqb _ _ = true |- _ => apply Ascii.eqb_eq in H; subst
    end;
  re_rw; reflexivity.

(** (\d{4}-\d{2}-\d{2}) *)
Definition iso_re : regex := Group 1 (cat [dN 4; ch "-"; dN 2; ch "-"; dN 2]).

Lemma iso_match (p : option ascii) (s : string) (mt : state) :
  here false iso_re p s = Some mt -> canonical_shape (grp 1 mt) = true.
Proof. unfold here, iso_re. head_cases. shape_of_match. Qed.

Lemma iso_identifier_match (s : string) (mt : state) :
  rmatch false (cat [Bol; iso_re; ch "-"]) s = Some mt ->
  canonical_shape (grp 1 mt) = true.
Proof. unfold rmatch, here, iso_re. head_cases. shape_of_match. Qed.

Lemma shape_nonempty (c : string) : canonical_shape c = true -> c <> "".
Proof. intros H ->. discriminate. Qed.

Lemma date_of_match_nonempty (pattern : regex) (mt : state) :
  ngroups pattern = 3 \/ grp 1 mt <> "" -> date_of_match pattern mt <> "".
Proof.
  unfold date_of_match. intros [-> | H].
  - cbn [Nat.eqb]. apply append_cons_nonempty.
  - destruct (ngroups pattern =? 3); [apply append_cons_nonempty | exact H].
Qed.

Lemma parse_identifier_nonempty (identifier r : string) :
  Audit.parse_date_from_identifier identifier = Some r -> r <> "".
Proof.
  unfold Audit.parse_date_from_identifier, Audit.identifier_patterns.
  cbn [Audit.identifier_loop].
  repeat match goal with
    | |- match rmatch false ?r ?s with _ => _ end = _ -> _ =>
        let E := fresh "E" in
        destruct (rmatch false r s) as [mt|] eqn:E;
        [ intros [= <-]; apply date_of_match_nonempty;
          first [ left; reflexivity
                | right; apply shape_nonempty, (iso_identifier_match _ _ E) ]
        | ]
    end.
  discriminate.
Qed.

Ltac title_nonempty :=
  repeat match goal with
    | |- match search false ?r ?s with _ => _ end = _ -> _ =>
        let E := fresh "E" in
        destruct (search false r s) as [mt|] eqn:E;
        [ intros [= <-]; apply date_of_match_nonempty;
          first [ left; reflexivity
                | right; apply search_from_here in E as (? & ? & E);
                  apply shape_nonempty, (iso_match _ _ _ E) ]
        | ]
    end;
  discriminate.

Lemma audit_title_nonempty (title r : string) :
  Audit.parse_date_from_title title = Some r -> r <> "".
Proof.
  unfold Audit.parse_date_from_title, Audit.title_patterns.
  cbn [Audit.title_loop]. title_nonempty.
Qed.

Lemma fix_title_nonempty (title r : string) :
  Fix.parse_date_from_title title = Some r -> r <> "".
Proof.
  unfold Fix.parse_date_from_title, Fix.patterns.
  cbn [Fix.title_loop]. title_nonempty.
Qed.

(** *** Skipping a prefix without digits, for the patterns led by "on " *)

(** The fourth character, if any, is not a digit. *)
Definition fourth_not_digit (s : string) : bool :=
  match s with
  | String _ (String _ (String _ (String c _))) => negb (is_digit c)
  | _ => true
  end.

Definition on_led (r : regex) : Prop :=
  forall p s, fourth_not_digit s = true -> here false r p s = None.

Lemma search_skip_on (r : regex) (pre : string) (a b c : ascii) (tail : string)
  (p : option ascii) :
  on_led r -> no_digit pre = true ->
  is_digit a = false -> is_digit b = false -> is_digit c = false ->
  search_from false r p (pre ++ String a (String b (String c tail)))
  = search_from false r (prev_after p pre) (String a (String b (String c tail))).
Proof.
  intros Hr Hpre Ha Hb Hc. revert p Hpre.
  induction pre as [|x pre IH]; intros p Hpre; [reflexivity|].
  assert (Hpre' := Hpre). simpl in Hpre'.
  apply andb_true_iff in Hpre' as [_ Hpre'].
  cbn [append search_from prev_after]. rewrite Hr; [now apply IH|].
  destruct pre as [|x2 [|x3 [|x4 pre]]]; simpl in Hpre |- *;
    repeat match goal with
      | H : _ && _ = true |- _ => apply andb_true_iff in H as [? ?]
      end;
    try assumption; now rewrite ?Ha, ?Hb, ?Hc.
Qed.

Ltac on_led_tac :=
  unfold on_led; intros ? s ?; unfold here;
  destruct s as [|? [|? [|? [|? ?]]]];
  repeat first
    [ reflexivity
    | match goal with
      | |- (if ?b then _ else _) = None => destruct b eqn:?
      | H : fourth_not_digit _ = true |- _ =>
          simpl in H; apply negb_true_iff in H
      end
    | progress re_eval
    | unfold step at 1; cbn [rest open_group advance] ].

Lemma audit_dotted_on_led : on_led (hd Empty Audit.title_patterns).
Proof. cbn [hd Audit.title_patterns]. on_led_tac. Qed.


(** *** C7 *)

Lemma audit_title_hit (pat : regex) (pats : list regex) (title : string) (mt : state) :
  search false pat title = Some mt ->
  Audit.title_loop (pat :: pats) title = Some (date_of_match pat mt).
Proof. intro H. cbn [Audit.title_loop]. now rewrite H. Qed.

Lemma audit_title_on (pre post : string) :
  no_digit pre = true ->
  Audit.parse_date_from_title (pre ++ "on 01.12.12" ++ post) = Some "2012-01-12".
Proof.
  intro Hpre. unfold Audit.parse_date_from_title, Audit.title_patterns.
  erewrite audit_title_hit; cycle 1.
  - unfold search. cbn [append lit cat app].
    rewrite search_skip_on;
      [ | apply audit_dotted_on_led | exact Hpre | reflexivity | reflexivity
        | reflexivity ].
    re_eval. reflexivity.
  - reflexivity.
Qed.

Lemma audit_list (fetch : string -> option dict) (issues : list IssueRecord)
  (m : Audit.Mismatch) :
  In m (Audit.audit_date_mismatches fetch issues)
  <-> exists item, In item issues /\ Audit.audit_item fetch item = Some m.
Proof.
  induction issues as [|x issues IH]; simpl.
  - split; [contradiction | intros (? & [] & _)].
  - destruct (Audit.audit_item fetch x) as [mx|] eqn:Ex; simpl; rewrite IH; split.
    + intros [<- | (item & Hin & Hm)]; [exists x; auto | exists item; auto].
    + intros (item & [<- | Hin] & Hm); [left; congruence | right; eauto].
    + intros (item & Hin & Hm). exists item; auto.
    + intros (item & [<- | Hin] & Hm); [congruence | eauto].
Qed.

(** C7 (counterexample).  A title that contains "01.12.12" without the word "on" before it gives
    no title date, so no mismatch is emitted for it. *)
Lemma C7_counterexample :
  "Thou 01.12.12" = "Thou " ++ "01.12.12" ++ ""
  /\ Audit.parse_date_from_identifier "01.20.12_Thou" = Some "2012-01-20"
  /\ Audit.parse_date_from_title "Thou 01.12.12" = None
  /\ Audit.audit_item (fun _ => Some [("date", "2012-01-20")])
       (mkIssue "01.20.12_Thou" "Thou 01.12.12" (mkCurrent None None None) [] [])
     = None.
Proof. vm_compute. repeat split; reflexivity. Qed.

(** C7 (amended).  A mismatch is emitted for a record exactly when the date
    read from the identifier and the date read from the title both exist and
    differ; it carries both dates and the date the archive currently stores
    (or a placeholder when that is missing or cannot be fetched).  For the
    identifier "01.20.12_Thou" and any title in which "on 01.12.12" follows
    text without digits, the mismatch has identifier date "2012-01-20" and
    title date "2012-01-12". *)
Theorem C7_mismatch (get_archive_metadata : string -> option dict)
  (item : IssueRecord) :
  (forall m, Audit.audit_item get_archive_metadata item = Some m <->
     exists a b,
       Audit.parse_date_from_identifier (identifier item) = Some a
       /\ Audit.parse_date_from_title (title item) = Some b
       /\ a <> b
       /\ m = Audit.mkMismatch (identifier item) (title item) a b
                (Audit.current_date_of (get_archive_metadata (identifier item))))
  /\ (forall issues m,
        In m (Audit.audit_date_mismatches get_archive_metadata issues)
        <-> exists it, In it issues /\ Audit.audit_item get_archive_metadata it = Some m)
  /\ (forall md d, md <> [] -> dict_get "date" md = Some d ->
        Audit.current_date_of (Some md) = d)
  /\ (forall pre post,
        no_digit pre = true ->
        identifier item = "01.20.12_Thou" ->
        title item = pre ++ "on 01.12.12" ++ post ->
        Audit.audit_item get_archive_metadata item
        = Some (Audit.mkMismatch "01.20.12_Thou" (title item) "2012-01-20" "2012-01-12"
                  (Audit.current_date_of (get_archive_metadata "01.20.12_Thou")))).
Proof.
  repeat split.
  - unfold Audit.audit_item.
    destruct (Audit.parse_date_from_identifier (identifier item)) as [a|] eqn:Ea;
      [|discriminate].
    destruct (Audit.parse_date_from_title (title item)) as [b|] eqn:Eb;
      [|rewrite andb_false_r; discriminate].
    rewrite (truthy_some a) by (eapply parse_identifier_nonempty; exact Ea).
    rewrite (truthy_some b) by (eapply audit_title_nonempty; exact Eb).
    cbn [andb get_or].
    destruct (String.eqb_spec a b) as [-> | Hne]; [discriminate|].
    intros [= <-]. exists a, b. auto.
  - intros (a & b & Ea & Eb & Hne & ->).
    unfold Audit.audit_item. rewrite Ea, Eb.
    rewrite (truthy_some a) by (eapply parse_identifier_nonempty; exact Ea).
    rewrite (truthy_some b) by (eapply audit_title_nonempty; exact Eb).
    cbn [andb get_or]. now rewrite (eqb_neq_false _ _ Hne).
  - apply audit_list.
  - apply audit_list.
  - intros md d Hmd Hd. destruct md as [|kv md]; [congruence|].
    unfold Audit.current_date_of. now rewrite Hd.
  - intros pre post Hpre Hid Ht.
    assert (Htd : Audit.parse_date_from_title (title item) = Some "2012-01-12")
      by (rewrite Ht; now apply audit_title_on).
    assert (Hidd : Audit.parse_date_from_identifier "01.20.12_Thou" = Some "2012-01-20")
      by (vm_compute; reflexivity).
    unfold Audit.audit_item. rewrite Hid, Htd, Hidd. reflexivity.
Qed.

Lemma C7_mismatch_witness :
  Audit.audit_item (fun _ => Some [("date", "2012-01-20")])
    (mkIssue "01.20.12_Thou" ("Thou @ The Che Cafe " ++ "on 01.12.12" ++ "")
       (mkCurrent None None None) [missing_band] [("band", "Thou")])
  = Some (Audit.mkMismatch "01.20.12_Thou" "Thou @ The Che Cafe on 01.12.12"
            "2012-01-20" "2012-01-12" "2012-01-20").
Proof.
  destruct (C7_mismatch (fun _ => Some [("date", "2012-01-20")])
              (mkIssue "01.20.12_Thou" ("Thou @ The Che Cafe " ++ "on 01.12.12" ++ "")
                 (mkCurrent None None None) [missing_band] [("band", "Thou")]))
    as (_ & _ & _ & H).
  apply (H "Thou @ The Che Cafe " ""); reflexivity.
Defined.


(** *** C8 *)

Lemma fix_title_hit (pat : regex) (pats : list regex) (title : string) (mt : state) :
  search false pat title = Some mt ->
  Fix.title_loop (pat :: pats) title = Some (date_of_match pat mt).
Proof. intro H. cbn [Fix.title_loop]. now rewrite H. Qed.

Lemma fix_title_miss (pat : regex) (pats : list regex) (title : string) :
  search false pat title = None ->
  Fix.title_loop (pat :: pats) title = Fix.title_loop pats title.
Proof. intro H. cbn [Fix.title_loop]. now rewrite H. Qed.

Ltac fix_eval Hpre :=
  unfold Fix.parse_date_from_title, Fix.patterns;
  repeat (rewrite fix_title_miss by search_eval Hpre);
  (erewrite fix_title_hit; cycle 1; [search_eval Hpre|]);
  unfold date_of_match, expand_year;
  cbn [ngroups cat Nat.add Nat.eqb grp group assoc closed String.length append];
  reflexivity.

(** Two characters as a string. *)
Definition chars2 (a b : ascii) : string := String a (String b "").

(** MM.DD.YY anywhere after text without digits: month first. *)
Lemma fix_dotted (pre post : string) (a b c d e f : ascii) :
  no_digit pre = true ->
  is_digit a = true -> is_digit b = true -> is_digit c = true ->
  is_digit d = true -> is_digit e = true -> is_digit f = true ->
  Fix.parse_date_from_title
    (pre ++ chars2 a b ++ "." ++ chars2 c d ++ "." ++ chars2 e f ++ post)
  = Some ("20" ++ chars2 e f ++ "-" ++ chars2 a b ++ "-" ++ chars2 c d).
Proof.
  intros Hpre Ha Hb Hc Hd He Hf. unfold chars2. cbn [append]. fix_eval Hpre.
Qed.

(** M/D/Y at the end of the title, after text without digits. *)
Lemma fix_slash (pre m d y : string) :
  no_digit pre = true -> digits 1 2 m -> digits 1 2 d -> digits 2 4 y ->
  Fix.parse_date_from_title (pre ++ m ++ "/" ++ d ++ "/" ++ y)
  = Some (expand_year y ++ "-" ++ zfill 2 m ++ "-" ++ zfill 2 d).
Proof.
  intros Hpre Hm Hd Hy.
  one_or_two Hm m; one_or_two Hd d;
    (destruct y as [|y1 [|y2 [|y3 [|y4 [|y5 y]]]]];
     try (exfalso; destruct Hy as [_ Hy]; simpl in Hy; lia));
    split_digits; cbn [append]; fix_eval Hpre.
Qed.

(** YYYY-MM-DD at the end of the title, after text without digits. *)
Lemma fix_iso (pre c : string) :
  no_digit pre = true -> canonical_shape c = true ->
  Fix.parse_date_from_title (pre ++ c) = Some c.
Proof.
  intros Hpre Hc. split_shape Hc. fix_eval Hpre.
Qed.

Lemma dict_get_set (k v : string) (d : dict) : dict_get k (dict_set k v d) = Some v.
Proof.
  induction d as [|[k' v'] d IH]; simpl.
  - now rewrite String.eqb_refl.
  - destruct (String.eqb k' k) eqn:E; simpl; [now rewrite String.eqb_refl|].
    now rewrite E.
Qed.

Lemma dict_get_set_other (k k' v : string) (d : dict) :
  k' <> k -> dict_get k' (dict_set k v d) = dict_get k' d.
Proof.
  intro Hne. induction d as [|[k0 v0] d IH]; simpl.
  - destruct (String.eqb_spec k k'); [congruence | reflexivity].
  - destruct (String.eqb_spec k0 k) as [-> | Hk]; simpl.
    + destruct (String.eqb_spec k k'); [congruence | reflexivity].
    + destruct (String.eqb k0 k'); [reflexivity | exact IH].
Qed.

Lemma dict_set_keys (k v : string) (d : dict) :
  dict_has k d = true -> map fst (dict_set k v d) = map fst d.
Proof.
  unfold dict_has. induction d as [|[k0 v0] d IH]; simpl; [discriminate|].
  destruct (String.eqb_spec k0 k) as [-> | Hk]; simpl; [reflexivity|].
  intro H. f_equal. exact (IH H).
Qed.

(** C8.  For a record with a date suggestion the corrector re-reads a date
    from the title and overwrites the suggestion exactly when a date is found
    and differs from it; identifier, title, stored values, issues, the other
    suggestions and the order of the suggestion keys stay as they were, and
    a record without a date suggestion is left as it is.  The title is read
    by three patterns in order: MM.DD.YY (month first), M/D/Y with a year of
    two to four digits (month first), then YYYY-MM-DD; a two-digit year gets
    the prefix "20". *)
Theorem C8_suggestion_corrector (item : IssueRecord) :
  let item' := fst (Fix.fix_item item) in
  (dict_get "date" (suggestions item) = None -> item' = item)
  /\ (forall cur, dict_get "date" (suggestions item) = Some cur ->
        match Fix.parse_date_from_title (title item) with
        | Some fresh =>
            if String.eqb fresh cur then item' = item /\ snd (Fix.fix_item item) = false
            else dict_get "date" (suggestions item') = Some fresh
                 /\ snd (Fix.fix_item item) = true
        | None => item' = item /\ snd (Fix.fix_item item) = false
        end)
  /\ identifier item' = identifier item
  /\ title item' = title item
  /\ current item' = current item
  /\ issues item' = issues item
  /\ map fst (suggestions item') = map fst (suggestions item)
  /\ (forall k, k <> "date" ->
        dict_get k (suggestions item') = dict_get k (suggestions item))
  /\ (forall pre post a b c d e f,
        no_digit pre = true ->
        is_digit a = true -> is_digit b = true -> is_digit c = true ->
        is_digit d = true -> is_digit e = true -> is_digit f = true ->
        Fix.parse_date_from_title
          (pre ++ chars2 a b ++ "." ++ chars2 c d ++ "." ++ chars2 e f ++ post)
        = Some ("20" ++ chars2 e f ++ "-" ++ chars2 a b ++ "-" ++ chars2 c d))
  /\ (forall pre m d y,
        no_digit pre = true -> digits 1 2 m -> digits 1 2 d -> digits 2 4 y ->
        Fix.parse_date_from_title (pre ++ m ++ "/" ++ d ++ "/" ++ y)
        = Some (expand_year y ++ "-" ++ zfill 2 m ++ "-" ++ zfill 2 d))
  /\ (forall pre c,
        no_digit pre = true -> canonical_shape c = true ->
        Fix.parse_date_from_title (pre ++ c) = Some c)
  /\ Fix.parse_date_from_title "2012-01-13 on 01.12.12" = Some "2012-01-12"
  /\ Fix.parse_date_from_title "2012-01-13 on 1/12/12" = Some "2012-01-12".
Proof.
  intro item'.
  assert (Hcases :
    item' = item
    \/ exists fresh, dict_has "date" (suggestions item) = true
         /\ item' = Fix.set_suggestions item (dict_set "date" fresh (suggestions item))).
  { unfold item', Fix.fix_item.
    destruct (dict_has "date" (suggestions item)) eqn:Hh; [|now left].
    destruct (truthy (Fix.parse_date_from_title (title item))
              && negb (String.eqb (get_or (Fix.parse_date_from_title (title item)) "")
                         (get_or (dict_get "date" (suggestions item)) "")));
      [right; eexists; split; reflexivity | now left]. }
  split; [|split].
  - intro Hnone. unfold item', Fix.fix_item, dict_has. now rewrite Hnone.
  - intros cur Hcur. unfold item', Fix.fix_item, dict_has. rewrite Hcur.
    destruct (Fix.parse_date_from_title (title item)) as [fresh|] eqn:Ep;
      [|split; reflexivity].
    rewrite (truthy_some fresh) by (eapply fix_title_nonempty; exact Ep).
    cbn [get_or andb]. destruct (String.eqb fresh cur); cbn [negb fst snd].
    + split; reflexivity.
    + split; [apply dict_get_set | reflexivity].
  - destruct Hcases as [-> | (fresh & Hh & ->)]; cbn.
    + repeat split; try reflexivity; try apply fix_dotted; try apply fix_slash;
        try apply fix_iso; vm_compute; reflexivity.
    + repeat split; try reflexivity; try apply fix_dotted; try apply fix_slash;
        try apply fix_iso; try (vm_compute; reflexivity).
      * now apply dict_set_keys.
      * intros k Hk. now apply dict_get_set_other.
Qed.

Definition stale_record : IssueRecord :=
  mkIssue "01.20.12_Thou" "Thou @ The Che Cafe on 01.12.12" (mkCurrent None None None)
    [missing_band; bad_date_format] [("band", "Thou"); ("date", "2012-01-20")].

Lemma C8_suggestion_corrector_witness :
  dict_get "date" (suggestions (fst (Fix.fix_item stale_record))) = Some "2012-01-12"
  /\ snd (Fix.fix_item stale_record) = true.
Proof.
  destruct (C8_suggestion_corrector stale_record) as (_ & H & _).
  exact (H "2012-01-20" eq_refl).
Defined.

End ParseProps.

(** ** Further properties of the canonicaliser, the detector and the
    identifier parser *)

Module MoreProps.
Import DateProps ExtractProps ParseProps.

(** X1.  Canonicalising is idempotent on every recognised input; a string that is
    already of the shape YYYY-MM-DD is returned unchanged. *)
Theorem canonical_idempotent (s : string) :
  recognized s ->
  standardize_date (standardize_date s) = standardize_date s
  /\ (canonical_shape s = true -> standardize_date s = s).
Proof.
  intro H. split; [|apply standardize_canonical].
  apply standardize_canonical.
  destruct H as [m d y Hm Hd Hy Hl | d m y Hd Hm Hy Hl | c time Hc | c Hc | y Hy Hl].
  - rewrite standardize_slash by assumption. now apply shape_of_fields.
  - rewrite standardize_dot by assumption. now apply shape_of_fields.
  - now rewrite standardize_timestamp.
  - now rewrite standardize_canonical.
  - rewrite standardize_year by assumption.
    destruct y as [|y1 [|y2 [|y3 [|y4 [|y5 y]]]]]; try discriminate Hl.
    split_digits. shape_done.
Qed.

Lemma canonical_idempotent_witness :
  standardize_date (standardize_date "3/12/14") = standardize_date "3/12/14"
  /\ standardize_date "3/12/14" = "2014-03-12".
Proof.
  assert (H : recognized ("3" ++ "/" ++ "12" ++ "/" ++ "14")).
  { apply rec_slash; try (split; [reflexivity | simpl; lia]); [reflexivity | now left]. }
  split; [exact (proj1 (canonical_idempotent _ H)) | vm_compute; reflexivity].
Defined.

(** X2.  A record whose band and venue are present and whose stored date
    is already canonical, with day precision, produces no issue record. *)
Theorem complete_record_no_issue (item : Item) (c : string) :
  truthy (item_band item) = true -> truthy (item_venue item) = true ->
  or_else (item_date item) (item_publicdate item) = Some c ->
  canonical_shape c = true -> endswith c "-01-01" = false ->
  analyze_item item = None.
Proof.
  intros Hb Hv Hd Hc He.
  unfold analyze_item, check_date. rewrite Hb, Hv, Hd.
  rewrite (truthy_some c) by now apply shape_nonempty.
  cbn [negb get_or]. rewrite (standardize_canonical c Hc), He.
  rewrite andb_false_r, String.eqb_refl. reflexivity.
Qed.

Lemma complete_record_no_issue_witness :
  analyze_item (mkItem (Some "thou-2012") (Some "Thou @ The Che Cafe on 01.12.12")
                  (Some "Thou") (Some "The Che Cafe") (Some "2012-01-12") None)
  = None.
Proof.
  apply (complete_record_no_issue _ "2012-01-12"); reflexivity.
Defined.

(** X3.  A stored timestamp is cut to its date, and the record is flagged
    bad_date_format with that date when the title carries no date. *)
Theorem timestamp_flagged (item : Item) (c time : string) :
  or_else (item_date item) (item_publicdate item) = Some (c ++ "T" ++ time) ->
  canonical_shape c = true ->
  extract_date_from_title (get_or (item_title item) "") = None ->
  standardize_date (c ++ "T" ++ time) = c
  /\ flags item bad_date_format c.
Proof.
  intros Hd Hc Ht.
  assert (Hs := standardize_timestamp c time Hc).
  split; [exact Hs|].
  apply analyze_item_flags. rewrite Hd. unfold check_date.
  rewrite truthy_some by apply append_cons_nonempty.
  cbn [negb get_or]. rewrite Hs, Ht. cbn [truthy andb].
  rewrite eqb_neq_false; [reflexivity|].
  intro Heq. apply (f_equal String.length) in Heq.
  rewrite length_append in Heq. simpl in Heq. lia.
Qed.

Lemma timestamp_flagged_witness :
  standardize_date ("2016-02-28" ++ "T" ++ "00:00:00Z") = "2016-02-28"
  /\ flags (mkItem (Some "x") (Some "Thou @ The Che Cafe") (Some "Thou")
              (Some "The Che Cafe") (Some "2016-02-28T00:00:00Z") None)
           bad_date_format "2016-02-28".
Proof.
  apply (timestamp_flagged
           (mkItem (Some "x") (Some "Thou @ The Che Cafe") (Some "Thou")
              (Some "The Che Cafe") (Some "2016-02-28T00:00:00Z") None)
           "2016-02-28" "00:00:00Z"); reflexivity.
Defined.

(** X4.  The identifier parser reads a leading MM.DD.YY_ month first and
    prefixes the year with "20"; a leading YYYY-MM-DD- is returned as it is;
    an identifier that starts with neither has no date. *)
Theorem identifier_date (a b c d e f : ascii) (name : string) :
  is_digit a = true -> is_digit b = true -> is_digit c = true ->
  is_digit d = true -> is_digit e = true -> is_digit f = true ->
  Audit.parse_date_from_identifier
    (chars2 a b ++ "." ++ chars2 c d ++ "." ++ chars2 e f ++ "_" ++ name)
  = Some ("20" ++ chars2 e f ++ "-" ++ chars2 a b ++ "-" ++ chars2 c d)
  /\ Audit.parse_date_from_identifier "2012-01-20-thou" = Some "2012-01-20"
  /\ Audit.parse_date_from_identifier "Thou_01.20.12" = None.
Proof.
  intros Ha Hb Hc Hd He Hf. split; [|split; vm_compute; reflexivity].
  unfold Audit.parse_date_from_identifier, Audit.identifier_patterns, chars2.
  cbn [Audit.identifier_loop append]. re_eval.
  unfold date_of_match.
  cbn [ngroups cat Nat.add Nat.eqb grp group assoc closed String.length append].
  reflexivity.
Qed.

Lemma identifier_date_witness :
  Audit.parse_date_from_identifier
    (chars2 "0" "1" ++ "." ++ chars2 "2" "0" ++ "." ++ chars2 "1" "2" ++ "_" ++ "Thou")
  = Some "2012-01-20".
Proof.
  exact (proj1 (identifier_date "0" "1" "2" "0" "1" "2" "Thou"
                  eq_refl eq_refl eq_refl eq_refl eq_refl eq_refl)).
Defined.

End MoreProps.

(** ** Further facts about strings *)

Lemma append_assoc (a b c : string) : (a ++ b) ++ c = a ++ b ++ c.
Proof. induction a as [|x a IH]; cbn; [reflexivity | now rewrite IH]. Qed.

Lemma append_nil_r (a : string) : a ++ "" = a.
Proof. induction a as [|x a IH]; cbn; [reflexivity | now rewrite IH]. Qed.

(** ** The range of the date functions, the records of the detector and the
    corrector on a whole report *)

Module RangeProps.
Import DateProps ExtractProps ParseProps SortProps.

(** *** Inverting the matches of the canonicaliser *)

(** A match of one of the four slash and dot patterns: three digit groups. *)
Definition three_fields (ylen : nat) (mt : state) : Prop :=
  digits 1 2 (grp 1 mt) /\ digits 1 2 (grp 2 mt)
  /\ all_digits (grp 3 mt) = true /\ String.length (grp 3 mt) = ylen.

Ltac any_case :=
  match goal with
  | |- context [if is_digit ?c then _ else _] => destruct (is_digit c) eqn:?
  | |- context [if Ascii.eqb ?c ?x then _ else _] => destruct (Ascii.eqb c x) eqn:?
  end.

Ltac fields_done :=
  intros [= <-]; unfold three_fields, digits, close_group, advance, open_group;
  cbn [grp group assoc closed opened map fst snd snoc append Nat.eqb all_digits
       String.length];
  re_rw; repeat split; try reflexivity; lia.

Ltac fields_inv :=
  unfold rmatch, here;
  repeat first
    [ progress re_eval
    | match goal with
      | |- None = Some _ -> _ => discriminate
      | |- Some _ = Some _ -> _ => fields_done
      | |- orelse None ?x = _ -> _ => change (orelse None x) with x
      | |- orelse (Some ?y) ?x = _ -> _ => change (orelse (Some y) x) with (Some y)
      end
    | any_case ].

Lemma mmddyy_inv (s : string) (mt : state) :
  rmatch false mmddyy_re s = Some mt -> three_fields 2 mt.
Proof.
  unfold mmddyy_re.
  destruct s as [|c1 [|c2 [|c3 [|c4 [|c5 [|c6 [|c7 [|c8 [|c9 [|c10 s]]]]]]]]]];
    fields_inv.
Qed.

Ltac destruct10 s :=
  destruct s as [|?c [|?c [|?c [|?c [|?c [|?c [|?c [|?c [|?c [|?c [|?c [|?c s]]]]]]]]]]]].

Lemma mmddyyyy_inv (s : string) (mt : state) :
  rmatch false mmddyyyy_re s = Some mt -> three_fields 4 mt.
Proof. unfold mmddyyyy_re. destruct10 s; fields_inv. Qed.

Lemma ddmmyy_inv (s : string) (mt : state) :
  rmatch false ddmmyy_re s = Some mt -> three_fields 2 mt.
Proof. unfold ddmmyy_re. destruct10 s; fields_inv. Qed.

Lemma ddmmyyyy_inv (s : string) (mt : state) :
  rmatch false ddmmyyyy_re s = Some mt -> three_fields 4 mt.
Proof. unfold ddmmyyyy_re. destruct10 s; fields_inv. Qed.

Lemma iso_stamp_inv (s : string) (mt : state) :
  rmatch false iso_date_re s = Some mt -> canonical_shape (grp 1 mt) = true.
Proof. unfold rmatch, here, iso_date_re. head_cases. shape_of_match. Qed.

(** A bare year, possibly followed by one newline. *)
Lemma yyyy_inv (s : string) (mt : state) :
  rmatch false yyyy_re s = Some mt ->
  exists y, all_digits y = true /\ String.length y = 4
    /\ (s = y \/ s = y ++ String newline "").
Proof.
  unfold yyyy_re, rmatch, here.
  destruct s as [|c1 [|c2 [|c3 [|c4 [|c5 [|c6 s]]]]]];
    repeat first
      [ progress re_eval
      | match goal with
        | |- None = Some _ -> _ => discriminate
        end
      | any_case ];
    intros _;
    repeat match goal with
      | H : Ascii.eqb _ _ = true |- _ => apply Ascii.eqb_eq in H; subst
      end;
    exists (String c1 (String c2 (String c3 (String c4 ""))));
    (split; [cbn [all_digits]; re_rw; reflexivity|]);
    (split; [reflexivity|]); [left | right]; reflexivity.
Qed.

Lemma three_fields_shape (mt : state) (ylen : nat) :
  three_fields ylen mt -> ylen = 2 \/ ylen = 4 ->
  canonical_shape (expand_year (grp 3 mt) ++ "-" ++ zfill 2 (grp 1 mt) ++ "-"
                   ++ zfill 2 (grp 2 mt)) = true.
Proof.
  intros (H1 & H2 & H3 & H4) Hy. apply shape_of_fields; try assumption.
  rewrite H4. exact Hy.
Qed.

Lemma standardize_cases (s : string) :
  standardize_date s = s
  \/ canonical_shape (standardize_date s) = true
  \/ exists y, all_digits y = true /\ String.length y = 4
       /\ s = y ++ String newline ""
       /\ standardize_date s = y ++ String newline "-01-01".
Proof.
  unfold standardize_date. destruct s as [|c0 s0]; [now left|].
  set (s := String c0 s0).
  destruct (rmatch false mmddyy_re s) as [mt|] eqn:E1.
  { right; left. apply mmddyy_inv in E1.
    assert (H := three_fields_shape mt 2 E1 (or_introl eq_refl)).
    unfold expand_year in H. destruct E1 as (_ & _ & _ & Hl). rewrite Hl in H.
    exact H. }
  destruct (rmatch false mmddyyyy_re s) as [mt|] eqn:E2.
  { right; left. apply mmddyyyy_inv in E2.
    assert (H := three_fields_shape mt 4 E2 (or_intror eq_refl)).
    unfold expand_year in H. destruct E2 as (_ & _ & _ & Hl). rewrite Hl in H.
    exact H. }
  destruct (rmatch false ddmmyy_re s) as [mt|] eqn:E3.
  { right; left. apply ddmmyy_inv in E3.
    destruct E3 as (H1 & H2 & H3 & Hl).
    assert (H := shape_of_fields (grp 2 mt) (grp 1 mt) (grp 3 mt) H2 H1 H3).
    unfold expand_year in H. rewrite Hl in H. apply H. now left. }
  destruct (rmatch false ddmmyyyy_re s) as [mt|] eqn:E4.
  { right; left. apply ddmmyyyy_inv in E4.
    destruct E4 as (H1 & H2 & H3 & Hl).
    assert (H := shape_of_fields (grp 2 mt) (grp 1 mt) (grp 3 mt) H2 H1 H3).
    unfold expand_year in H. rewrite Hl in H. apply H. now right. }
  destruct (rmatch false iso_date_re s) as [mt|] eqn:E5.
  { right; left. now apply iso_stamp_inv in E5. }
  destruct (rmatch false yyyymmdd_re s) as [mt|] eqn:E6; [now left|].
  destruct (rmatch false yyyy_re s) as [mt|] eqn:E7; [|now left].
  apply yyyy_inv in E7 as (y & Hd & Hl & [Hs | Hs]).
  - right; left. rewrite Hs.
    destruct y as [|y1 [|y2 [|y3 [|y4 [|y5 y]]]]]; try discriminate Hl.
    split_digits. shape_done.
  - right; right. exists y. repeat split; try assumption.
    rewrite Hs. clear Hs.
    destruct y as [|y1 [|y2 [|y3 [|y4 [|y5 y]]]]]; try discriminate Hl.
    reflexivity.
Qed.

Lemma standardize_year_newline (y : string) :
  all_digits y = true -> String.length y = 4 ->
  standardize_date (y ++ String newline "-01-01") = y ++ String newline "-01-01".
Proof.
  intros H Hl.
  destruct y as [|y1 [|y2 [|y3 [|y4 [|y5 y]]]]]; try discriminate Hl.
  split_digits. unfold_standardize.
  change newline with (Ascii false true false true false false false false).
  re_eval. reflexivity.
Qed.

(** X5.  The canonicaliser returns its input unchanged, or a string of the shape
    YYYY-MM-DD, or, for four digits and a line break, that text followed by
    -01-01; applied twice it gives what it gives applied once, for every
    input. *)
Theorem standardize_range (s : string) :
  (standardize_date s = s
   \/ canonical_shape (standardize_date s) = true
   \/ exists y, all_digits y = true /\ String.length y = 4
        /\ s = y ++ String newline ""
        /\ standardize_date s = y ++ String newline "-01-01")
  /\ standardize_date (standardize_date s) = standardize_date s.
Proof.
  split; [apply standardize_cases|].
  destruct (standardize_cases s) as [H | [H | (y & Hy & Hl & _ & H)]].
  - now rewrite !H.
  - now apply standardize_canonical.
  - rewrite H. now apply standardize_year_newline.
Qed.

(** *** The dates read from identifiers and titles *)

(** Three digit groups, the third of two to four digits. *)
Definition date_fields (mt : state) : Prop :=
  digits 1 2 (grp 1 mt) /\ digits 1 2 (grp 2 mt) /\ digits 2 4 (grp 3 mt).

Ltac date_fields_done :=
  intros [= <-]; unfold date_fields, digits, close_group, advance, open_group;
  cbn [grp group assoc closed opened map fst snd snoc append Nat.eqb all_digits
       String.length];
  re_rw; repeat split; try reflexivity; lia.

Ltac date_fields_inv :=
  unfold rmatch, here;
  repeat first
    [ progress re_eval
    | match goal with
      | |- None = Some _ -> _ => discriminate
      | |- Some _ = Some _ -> _ => date_fields_done
      | |- orelse None ?x = _ -> _ => change (orelse None x) with x
      | |- orelse (Some ?y) ?x = _ -> _ => change (orelse (Some y) x) with (Some y)
      end
    | any_case ].

Lemma identifier_fields (pattern : regex) (s : string) (mt : state) :
  pattern = nth 0 Audit.identifier_patterns Empty
  \/ pattern = nth 1 Audit.identifier_patterns Empty ->
  rmatch false pattern s = Some mt -> date_fields mt /\ String.length (grp 3 mt) = 2.
Proof.
  intros [-> | ->]; cbn [nth Audit.identifier_patterns];
    (destruct10 s;
     unfold rmatch, here;
     repeat first
       [ progress re_eval
       | match goal with
         | |- None = Some _ -> _ => discriminate
         | |- Some _ = Some _ -> _ =>
             intros [= <-];
             unfold date_fields, digits, close_group, advance, open_group;
             cbn [grp group assoc closed opened map fst snd snoc append Nat.eqb
                  all_digits String.length];
             re_rw; repeat split; try reflexivity; lia
         | |- orelse None ?x = _ -> _ => change (orelse None x) with x
         | |- orelse (Some ?y) ?x = _ -> _ => change (orelse (Some y) x) with (Some y)
         end
       | any_case ]).
Qed.

Ltac destruct14 s :=
  destruct s as [|?c [|?c [|?c [|?c [|?c [|?c [|?c [|?c [|?c [|?c [|?c [|?c
                [|?c [|?c s]]]]]]]]]]]]]].

Lemma title_fields (pattern : regex) (p : option ascii) (s : string) (mt : state) :
  In pattern [nth 0 Audit.title_patterns Empty; nth 1 Audit.title_patterns Empty;
              nth 3 Audit.title_patterns Empty;
              nth 0 Fix.patterns Empty; nth 1 Fix.patterns Empty] ->
  here false pattern p s = Some mt -> date_fields mt.
Proof.
  intros [<- | [<- | [<- | [<- | [<- | []]]]]];
    cbn [nth Audit.title_patterns Fix.patterns lit app cat];
    (destruct14 s; date_fields_inv).
Qed.

(** Three digits, a hyphen, two digits, a hyphen, two digits. *)
Definition short_year_shape (s : string) : bool :=
  match s with
  | String y1 (String y2 (String y3 (String h1 (String m1 (String m2
      (String h2 (String d1 (String d2 EmptyString)))))))) =>
      is_digit y1 && is_digit y2 && is_digit y3 && Ascii.eqb h1 "-"
      && is_digit m1 && is_digit m2 && Ascii.eqb h2 "-" && is_digit d1 && is_digit d2
  | _ => false
  end.

Lemma date_of_match_shape (pattern : regex) (mt : state) :
  ngroups pattern = 3 -> date_fields mt ->
  (String.length (grp 3 mt) <> 3 /\ canonical_shape (date_of_match pattern mt) = true)
  \/ (String.length (grp 3 mt) = 3 /\ short_year_shape (date_of_match pattern mt) = true).
Proof.
  intros Hn (Hm & Hd & Hy). unfold date_of_match. rewrite Hn. cbn [Nat.eqb].
  destruct (grp 1 mt) as [|m1 [|m2 [|m3 m]]] eqn:E1;
    try (exfalso; destruct Hm as [_ Hm]; simpl in Hm; lia);
  destruct (grp 2 mt) as [|d1 [|d2 [|d3 d]]] eqn:E2;
    try (exfalso; destruct Hd as [_ Hd]; simpl in Hd; lia);
  (destruct (grp 3 mt) as [|y1 [|y2 [|y3 [|y4 [|y5 y]]]]] eqn:E3;
    try (exfalso; destruct Hy as [_ Hy]; simpl in Hy; lia));
  split_digits; cbn [String.length Nat.eqb];
  first [ left; split; [discriminate|]; shape_done
        | right; split; [reflexivity|]; unfold short_year_shape;
          repeat match goal with
            | H : is_digit ?c = true |- context [zfill 2 (String ?c "")] =>
                rewrite (zfill_one c H)
            end;
          rewrite ?zfill_two; cbn [append]; re_rw; reflexivity ].
Qed.

Ltac next_pattern E :=
  match goal with
  | |- match rmatch false ?r ?s with _ => _ end = _ -> _ =>
      destruct (rmatch false r s) as [mt|] eqn:E
  end.

(** X6.  Every date the auditor reads from an identifier has the shape
    YYYY-MM-DD, whichever of the three identifier patterns matched. *)
Theorem identifier_date_shape (identifier r : string) :
  Audit.parse_date_from_identifier identifier = Some r -> canonical_shape r = true.
Proof.
  unfold Audit.parse_date_from_identifier, Audit.identifier_patterns.
  cbn [Audit.identifier_loop].
  next_pattern E1.
  { intros [= <-].
    apply (identifier_fields _ _ _ (or_introl eq_refl)) in E1 as [Hf Hl].
    match goal with
    | |- canonical_shape (date_of_match ?p _) = true =>
        destruct (date_of_match_shape p mt eq_refl Hf) as [[_ H] | [H _]];
          [exact H | congruence]
    end. }
  next_pattern E2.
  { intros [= <-].
    apply (identifier_fields _ _ _ (or_intror eq_refl)) in E2 as [Hf Hl].
    match goal with
    | |- canonical_shape (date_of_match ?p _) = true =>
        destruct (date_of_match_shape p mt eq_refl Hf) as [[_ H] | [H _]];
          [exact H | congruence]
    end. }
  next_pattern E3; [|discriminate].
  intros [= <-]. unfold date_of_match; cbn [ngroups cat Nat.add Nat.eqb].
  apply iso_identifier_match in E3. exact E3.
Qed.

Lemma identifier_date_shape_witness :
  Audit.parse_date_from_identifier "1.5.12_Band" = Some "2012-01-05"
  /\ canonical_shape "2012-01-05" = true.
Proof.
  split; [vm_compute; reflexivity|].
  apply (identifier_date_shape "1.5.12_Band"). vm_compute. reflexivity.
Defined.

Lemma title_loop_shape (f : list regex -> string -> option string)
  (pats : list regex) (title r : string) :
  (forall pat pats' t, f (pat :: pats') t =
     match search false pat t with
     | Some mt => Some (date_of_match pat mt)
     | None => f pats' t
     end) ->
  (forall t, f [] t = None) ->
  Forall (fun pat =>
     (ngroups pat = 3
      /\ forall p s mt, here false pat p s = Some mt -> date_fields mt)
     \/ pat = iso_re) pats ->
  f pats title = Some r ->
  canonical_shape r = true \/ short_year_shape r = true.
Proof.
  intros Hcons Hnil Hall. induction Hall as [|pat pats Hpat Hall IH].
  - rewrite Hnil. discriminate.
  - rewrite Hcons. destruct (search false pat title) as [mt|] eqn:Hs; [|exact IH].
    intros [= <-]. apply search_from_here in Hs as (p & s & Hh).
    destruct Hpat as [[Hn Hf] | ->].
    + destruct (date_of_match_shape pat mt Hn (Hf _ _ _ Hh)) as [[_ H] | [_ H]];
        [now left | now right].
    + left. unfold date_of_match. cbn [ngroups iso_re cat Nat.add Nat.eqb].
      exact (iso_match _ _ _ Hh).
Qed.

Lemma fix_title_shape (title r : string) :
  Fix.parse_date_from_title title = Some r ->
  canonical_shape r = true \/ short_year_shape r = true.
Proof.
  apply (title_loop_shape Fix.title_loop); [reflexivity | reflexivity |].
  unfold Fix.patterns. repeat apply Forall_cons; [| | |apply Forall_nil].
  - left. split; [reflexivity|]. intros p s mt. apply title_fields. cbn. tauto.
  - left. split; [reflexivity|]. intros p s mt. apply title_fields. cbn. tauto.
  - now right.
Qed.

Lemma audit_title_shape (title r : string) :
  Audit.parse_date_from_title title = Some r ->
  canonical_shape r = true \/ short_year_shape r = true.
Proof.
  apply (title_loop_shape Audit.title_loop); [reflexivity | reflexivity |].
  unfold Audit.title_patterns. repeat apply Forall_cons; [| | | |apply Forall_nil].
  - left. split; [reflexivity|]. intros p s mt. apply title_fields. cbn. tauto.
  - left. split; [reflexivity|]. intros p s mt. apply title_fields. cbn. tauto.
  - now right.
  - left. split; [reflexivity|]. intros p s mt. apply title_fields. cbn. tauto.
Qed.

(** X7.  Every date the corrector or the auditor reads from a title has the
    shape YYYY-MM-DD, or YYY-MM-DD: the slash pattern takes a year of two to
    four digits and only a two-digit year is expanded. *)
Theorem title_date_shape (title r : string) :
  Fix.parse_date_from_title title = Some r \/ Audit.parse_date_from_title title = Some r ->
  canonical_shape r = true \/ short_year_shape r = true.
Proof.
  intros [H | H]; [exact (fix_title_shape _ _ H) | exact (audit_title_shape _ _ H)].
Qed.

Lemma title_date_shape_witness :
  Fix.parse_date_from_title "1/2/123" = Some "123-01-02"
  /\ (canonical_shape "123-01-02" = true \/ short_year_shape "123-01-02" = true).
Proof.
  split; [vm_compute; reflexivity|].
  apply (title_date_shape "1/2/123"). left. vm_compute. reflexivity.
Defined.

(** *** Texts without digits *)

Lemma digit_led_search (r : regex) (s : string) (p : option ascii) :
  digit_led r -> (forall p', here false r p' "" = None) -> no_digit s = true ->
  search_from false r p s = None.
Proof.
  intros Hr He. revert p. induction s as [|c s IH]; intros p Hs; cbn [search_from].
  - now rewrite He.
  - simpl in Hs. apply andb_true_iff in Hs as [Hc Hs]. apply negb_true_iff in Hc.
    rewrite (Hr p c s Hc). now apply IH.
Qed.

Lemma no_digit_fourth (s : string) : no_digit s = true -> fourth_not_digit s = true.
Proof.
  destruct s as [|a [|b [|c [|d s]]]]; try reflexivity. simpl.
  intro H. repeat (apply andb_true_iff in H as [? H]). assumption.
Qed.

Lemma on_led_search (r : regex) (s : string) (p : option ascii) :
  on_led r -> no_digit s = true -> search_from false r p s = None.
Proof.
  intros Hr. revert p. induction s as [|c s IH]; intros p Hs; cbn [search_from].
  - now rewrite Hr.
  - rewrite (Hr p _ (no_digit_fourth _ Hs)).
    simpl in Hs. apply andb_true_iff in Hs as [_ Hs]. now apply IH.
Qed.

Ltac no_digit_search Hs :=
  unfold search;
  first [ apply digit_led_search; [digit_led_tac | intro; vm_compute; reflexivity | exact Hs]
        | apply on_led_search; [on_led_tac | exact Hs] ].

(** X8.  A text without a digit carries no date for any of the four
    parsers: the detector's extractor, the corrector's and the auditor's title
    parsers and the auditor's identifier parser. *)
Theorem no_digit_no_date (t : string) :
  no_digit t = true ->
  extract_date_from_title t = None
  /\ Fix.parse_date_from_title t = None
  /\ Audit.parse_date_from_title t = None
  /\ Audit.parse_date_from_identifier t = None.
Proof.
  intro Hs. split; [|split; [|split]].
  - rewrite extract_eq_loop. unfold date_patterns.
    repeat (rewrite date_loop_miss by no_digit_search Hs). reflexivity.
  - unfold Fix.parse_date_from_title, Fix.patterns.
    repeat (rewrite fix_title_miss by no_digit_search Hs). reflexivity.
  - unfold Audit.parse_date_from_title, Audit.title_patterns.
    cbn [Audit.title_loop].
    repeat match goal with
      | |- context [search false ?r t] =>
          replace (search false r t) with (@None state)
            by (symmetry; no_digit_search Hs)
      end.
    reflexivity.
  - unfold Audit.parse_date_from_identifier, Audit.identifier_patterns.
    cbn [Audit.identifier_loop].
    destruct t as [|c t]; [vm_compute; reflexivity|].
    simpl in Hs. apply andb_true_iff in Hs as [Hc _]. apply negb_true_iff in Hc.
    unfold rmatch, here. re_eval. reflexivity.
Qed.

Lemma no_digit_no_date_witness :
  extract_date_from_title "Thou @ The Che Cafe" = None
  /\ Fix.parse_date_from_title "Thou @ The Che Cafe" = None
  /\ Audit.parse_date_from_title "Thou @ The Che Cafe" = None
  /\ Audit.parse_date_from_identifier "Thou @ The Che Cafe" = None.
Proof. apply (no_digit_no_date "Thou @ The Che Cafe"). reflexivity. Defined.

(** *** The records the detector writes *)

(** The metadata field an issue is about. *)
Definition field_of (i : Issue) : string :=
  match i with
  | missing_band => "band"
  | missing_venue => "venue"
  | missing_date | bad_date_format => "date"
  end.

Lemma standardize_nonempty (s : string) : s <> "" -> standardize_date s <> "".
Proof.
  intro Hs. destruct (standardize_cases s) as [-> | [H | (y & _ & _ & _ & ->)]].
  - exact Hs.
  - now apply shape_nonempty.
  - apply append_cons_nonempty.
Qed.

Lemma check_date_result (d : option string) (t : string) (i : Issue) (s : string) :
  check_date d t = Some (i, s) -> field_of i = "date" /\ s <> "".
Proof.
  unfold check_date. destruct (truthy d) eqn:Hd; cbn [negb].
  - apply truthy_inv in Hd as (raw & -> & Hraw). cbn [get_or].
    destruct (truthy (extract_date_from_title t)) eqn:Ht; cbn [andb].
    + apply truthy_inv in Ht as (td & -> & Htd). cbn [get_or].
      destruct (endswith (standardize_date raw) "-01-01" && negb (endswith td "-01-01")).
      * destruct (negb (String.eqb (standardize_date raw) td)); [|discriminate].
        intros [= <- <-]. now split.
      * destruct (negb (String.eqb (standardize_date raw) raw)); [|discriminate].
        intros [= <- <-]. split; [reflexivity | now apply standardize_nonempty].
    + destruct (negb (String.eqb (standardize_date raw) raw)); [|discriminate].
      intros [= <- <-]. split; [reflexivity | now apply standardize_nonempty].
  - destruct (truthy (extract_date_from_title t)) eqn:Ht; [|discriminate].
    apply truthy_inv in Ht as (td & -> & Htd). intros [= <- <-]. now split.
Qed.

Lemma analyze_item_record (item : Item) (r : IssueRecord) :
  analyze_item item = Some r ->
  issues r <> []
  /\ map fst (suggestions r) = map field_of (issues r)
  /\ NoDup (map fst (suggestions r))
  /\ Forall (fun kv => snd kv <> "") (suggestions r)
  /\ Apply.build_updates (suggestions r) = suggestions r.
Proof.
  unfold analyze_item.
  destruct (negb (truthy (item_band item)));
  [destruct (truthy (extract_band_from_title (get_or (item_title item) ""))) eqn:Hb;
   [apply truthy_inv in Hb as (b & -> & Hb)|]|];
  (destruct (negb (truthy (item_venue item)));
   [destruct (truthy (extract_venue_from_title (get_or (item_title item) ""))) eqn:Hv;
    [apply truthy_inv in Hv as (v & -> & Hv)|]|]);
  (destruct (check_date _ _) as [[i s]|] eqn:Hc;
   [apply check_date_result in Hc as [Hi Hs]|]);
  cbn [app get_or]; try discriminate; intros [= <-]; cbn [issues suggestions map fst field_of];
  rewrite ?Hi;
  (split; [discriminate|]); (split; [reflexivity|]);
  (split; [repeat constructor; cbn [In]; intuition discriminate|]);
  (split; [repeat constructor; assumption | reflexivity]).
Qed.

Lemma analyze_item_title (item : Item) (r : IssueRecord) :
  analyze_item item = Some r ->
  title r = get_or (item_title item) ""
  /\ identifier r = get_or (item_identifier item) "".
Proof.
  analyze_cases item;
    (destruct (check_date _ _) as [[i s]|]); cbn [app]; try discriminate;
    intros [= <-]; split; reflexivity.
Qed.

(** X9.  Every record the detector writes copies the identifier and the
    title of its item, lists at least one issue, has one suggestion per
    issue, in the same order and under the field the issue is about, never
    suggests an empty value, and is sent unchanged by the metadata
    applier. *)
Theorem analyze_item_wellformed (item : Item) (r : IssueRecord) :
  analyze_item item = Some r ->
  identifier r = get_or (item_identifier item) ""
  /\ title r = get_or (item_title item) ""
  /\ issues r <> []
  /\ map fst (suggestions r) = map field_of (issues r)
  /\ NoDup (map fst (suggestions r))
  /\ Forall (fun kv => snd kv <> "") (suggestions r)
  /\ Apply.build_updates (suggestions r) = suggestions r.
Proof.
  intro H. destruct (analyze_item_title item r H) as [Ht Hi].
  split; [exact Hi|]. split; [exact Ht|]. now apply (analyze_item_record item).
Qed.

Definition che_cafe_record : IssueRecord :=
  mkIssue "01.12.12_Thou" "Thou @ The Che Cafe on 01.12.12" (mkCurrent None None None)
    [missing_band; missing_venue; missing_date]
    [("band", "Thou"); ("venue", "The Che Cafe"); ("date", "2012-01-12")].

Lemma analyze_item_wellformed_witness :
  map fst (suggestions che_cafe_record) = map field_of (issues che_cafe_record)
  /\ Apply.build_updates (suggestions che_cafe_record) = suggestions che_cafe_record.
Proof.
  destruct (analyze_item_wellformed
              (mkItem (Some "01.12.12_Thou") (Some "Thou @ The Che Cafe on 01.12.12")
                 None None None None)
              che_cafe_record) as (_ & _ & _ & H1 & _ & _ & H2);
    [vm_compute; reflexivity | split; assumption].
Defined.

(** *** The corrector on the whole report *)

Lemma fix_item_cases (item : IssueRecord) :
  Fix.fix_item item = (item, false)
  \/ exists fresh cur,
       Fix.parse_date_from_title (title item) = Some fresh
       /\ dict_get "date" (suggestions item) = Some cur
       /\ fresh <> cur /\ fresh <> ""
       /\ Fix.fix_item item
          = (Fix.set_suggestions item (dict_set "date" fresh (suggestions item)), true).
Proof.
  unfold Fix.fix_item, dict_has.
  destruct (dict_get "date" (suggestions item)) as [cur|] eqn:Hcur; [|now left].
  destruct (Fix.parse_date_from_title (title item)) as [fresh|] eqn:Ep; [|now left].
  assert (Hne : fresh <> "") by (eapply fix_title_nonempty; exact Ep).
  rewrite (truthy_some fresh Hne). cbn [get_or andb].
  destruct (String.eqb_spec fresh cur) as [-> | Hd]; cbn [negb]; [now left|].
  right. exists fresh, cur. repeat split; assumption.
Qed.

Lemma fix_item_again (item : IssueRecord) :
  Fix.fix_item (fst (Fix.fix_item item)) = (fst (Fix.fix_item item), false).
Proof.
  destruct (fix_item_cases item) as [H | (fresh & cur & Ep & Hcur & Hd & Hne & H)];
    rewrite H; cbn [fst]; [exact H|].
  unfold Fix.fix_item, Fix.set_suggestions, dict_has. cbn [suggestions title].
  rewrite dict_get_set, Ep, (truthy_some fresh Hne). cbn [get_or andb].
  now rewrite String.eqb_refl.
Qed.

Lemma fix_item_changed (item : IssueRecord) :
  snd (Fix.fix_item item) = false <-> fst (Fix.fix_item item) = item.
Proof.
  destruct (fix_item_cases item) as [H | (fresh & cur & Ep & Hcur & Hd & Hne & H)];
    rewrite H; cbn [fst snd]; [tauto|].
  split; [discriminate|]. intro He. exfalso. apply Hd.
  apply (f_equal (fun x => dict_get "date" (suggestions x))) in He.
  unfold Fix.set_suggestions in He. cbn [suggestions] in He.
  rewrite dict_get_set, Hcur in He. congruence.
Qed.

(** X10.  Running the corrector on its own output changes nothing and counts no
    fix, so the report is not written a second time. *)
Theorem fix_all_idempotent (report : list IssueRecord) :
  Fix.fix_all (fst (Fix.fix_all report)) = (fst (Fix.fix_all report), 0).
Proof.
  induction report as [|x report IH]; [reflexivity|].
  cbn [Fix.fix_all].
  destruct (Fix.fix_item x) as [x' fixed] eqn:Hx.
  destruct (Fix.fix_all report) as [rest' n] eqn:Hr.
  cbn [fst] in *. cbn [Fix.fix_all].
  assert (Hx' := fix_item_again x). rewrite Hx in Hx'. cbn [fst] in Hx'.
  now rewrite Hx', IH.
Qed.

Lemma fix_item_key (item : IssueRecord) :
  get_sort_key (fst (Fix.fix_item item)) = get_sort_key item.
Proof.
  destruct (fix_item_cases item) as [H | (fresh & cur & _ & _ & _ & _ & H)];
    rewrite H; reflexivity.
Qed.

Lemma fix_all_map (report : list IssueRecord) :
  fst (Fix.fix_all report) = map (fun x => fst (Fix.fix_item x)) report.
Proof.
  induction report as [|x report IH]; [reflexivity|]. cbn [Fix.fix_all map].
  destruct (Fix.fix_item x) as [x' fixed]. destruct (Fix.fix_all report) as [rest' n].
  cbn [fst] in *. now rewrite IH.
Qed.

Lemma insert_map (f : IssueRecord -> IssueRecord) (x : IssueRecord)
  (l : list IssueRecord) :
  (forall y, get_sort_key (f y) = get_sort_key y) ->
  insert_by_key (f x) (map f l) = map f (insert_by_key x l).
Proof.
  intro Hf. induction l as [|y l IH]; [reflexivity|]. cbn [map insert_by_key].
  rewrite !Hf. destruct (key_le (get_sort_key x) (get_sort_key y)); [reflexivity|].
  cbn [map]. now rewrite IH.
Qed.

(** X11.  The number of fixes is zero exactly when the corrector leaves the report
    as it found it; the report keeps its length, the count never exceeds it,
    and the review order is kept: sorting before or after the corrector
    gives the same report. *)
Theorem fix_all_count (report : list IssueRecord) :
  (snd (Fix.fix_all report) = 0 <-> fst (Fix.fix_all report) = report)
  /\ List.length (fst (Fix.fix_all report)) = List.length report
  /\ snd (Fix.fix_all report) <= List.length report
  /\ sort_issues_by_type (fst (Fix.fix_all report))
     = fst (Fix.fix_all (sort_issues_by_type report)).
Proof.
  split; [|split; [|split]].
  4: { rewrite !fix_all_map. induction report as [|x report IH]; [reflexivity|].
       cbn [map sort_issues_by_type]. rewrite IH.
       apply (insert_map (fun y => fst (Fix.fix_item y))). exact fix_item_key. }
  all: induction report as [|x report IH];
    [simpl; first [lia | split; intros; reflexivity]|];
    cbn [Fix.fix_all];
    assert (Hx := fix_item_changed x);
    destruct (Fix.fix_item x) as [x' fixed];
    destruct (Fix.fix_all report) as [rest' n];
    cbn [fst snd List.length] in *.
  - destruct fixed.
    + split; [discriminate|]. intros [= Hx' _]. apply Hx in Hx'. discriminate.
    + rewrite IH. split.
      * intros ->. f_equal. now apply Hx.
      * now intros [= _ ->].
  - lia.
  - destruct fixed; lia.
Qed.

(** *** The century of a two-digit year, from the detector to the corrector *)

Lemma digit_cases (c : ascii) :
  is_digit c = true ->
  In c ["0"; "1"; "2"; "3"; "4"; "5"; "6"; "7"; "8"; "9"]%char.
Proof.
  destruct c as [[] [] [] [] [] [] [] []]; intro H;
    first [discriminate H | cbn [In]; tauto].
Qed.

Ltac each_digit c H :=
  apply digit_cases in H; cbn [In] in H;
  repeat (destruct H as [<- | H]; [|]); [.. | contradiction].

Lemma pad_two (m : string) : digits 1 2 m -> pad_num 2 (int m) = zfill 2 m.
Proof.
  intro Hm. one_or_two Hm m; split_digits.
  - each_digit m1 H; vm_compute; reflexivity.
  - each_digit m1 H; each_digit m2 H1; vm_compute; reflexivity.
Qed.

(** The century [strptime]'s %y gives a two-digit year. *)
Definition century (yy : string) : string := if int yy <=? 68 then "20" else "19".

Lemma pad_year (y1 y2 : ascii) :
  is_digit y1 = true -> is_digit y2 = true ->
  let yy := String y1 (String y2 "") in
  pad_num 4 (two_digit_year (int yy)) = century yy ++ yy.
Proof.
  intros H1 H2. each_digit y1 H1; each_digit y2 H2; vm_compute; reflexivity.
Qed.

(** X12.  A record without a stored date whose title ends in M/D/YY: the detector
    suggests the date with [strptime]'s century (19 from YY = 69 on), and the
    corrector then reads the same title with the century 20, so it rewrites
    the suggestion exactly when YY is 69 or more. *)
Theorem century_rewritten (item : Item) (pre m d : string) (y1 y2 : ascii) :
  let yy := String y1 (String y2 "") in
  no_digit pre = true -> digits 1 2 m -> digits 1 2 d ->
  is_digit y1 = true -> is_digit y2 = true ->
  item_title item = Some (pre ++ m ++ "/" ++ d ++ "/" ++ yy) ->
  truthy (or_else (item_date item) (item_publicdate item)) = false ->
  valid_date (two_digit_year (int yy)) (int m) (int d) = true ->
  exists r, analyze_item item = Some r
    /\ dict_get "date" (suggestions r)
       = Some (century yy ++ yy ++ "-" ++ zfill 2 m ++ "-" ++ zfill 2 d)
    /\ dict_get "date" (suggestions (fst (Fix.fix_item r)))
       = Some ("20" ++ yy ++ "-" ++ zfill 2 m ++ "-" ++ zfill 2 d)
    /\ (snd (Fix.fix_item r) = true <-> 69 <= int yy).
Proof.
  intros yy Hpre Hm Hd H1 H2 Ht Hnone Hv.
  assert (He : extract_date_from_title (pre ++ m ++ "/" ++ d ++ "/" ++ yy)
               = Some (century yy ++ yy ++ "-" ++ zfill 2 m ++ "-" ++ zfill 2 d)).
  { etransitivity;
      [exact (extract_two_digit "/" (or_introl eq_refl) pre m d y1 y2 Hpre Hm Hd H1 H2)|].
    cbv zeta. fold yy. rewrite Hv. unfold format_date. cbn [year month day].
    unfold yy at 1. rewrite (pad_year y1 y2 H1 H2), !pad_two by assumption.
    fold yy. f_equal. destruct (century yy) as [|a [|b [|]]] eqn:Ec;
      unfold century in Ec; destruct (int yy <=? 68); try discriminate.
    all: injection Ec as <- <-; reflexivity. }
  assert (Hf : Fix.parse_date_from_title (pre ++ m ++ "/" ++ d ++ "/" ++ yy)
               = Some ("20" ++ yy ++ "-" ++ zfill 2 m ++ "-" ++ zfill 2 d)).
  { rewrite fix_slash; try assumption; [reflexivity|].
    split; [unfold yy; simpl; now rewrite H1, H2 | simpl; lia]. }
  set (sug := century yy ++ yy ++ "-" ++ zfill 2 m ++ "-" ++ zfill 2 d) in *.
  assert (Hflag : flags item missing_date sug).
  { apply analyze_item_flags. unfold check_date. rewrite Hnone, Ht. cbn [negb get_or].
    rewrite He. rewrite truthy_some by (eapply extract_date_nonempty; exact He).
    reflexivity. }
  destruct Hflag as (r & Hr & _ & Hsug & _).
  exists r. split; [exact Hr|]. split; [exact Hsug|].
  apply analyze_item_title in Hr as [Hrt _]. rewrite Ht in Hrt. cbn [get_or] in Hrt.
  unfold Fix.fix_item, dict_has. rewrite Hsug, Hrt, Hf.
  rewrite truthy_some by discriminate. cbn [get_or andb].
  clear He. revert Hsug. unfold sug, century.
  destruct (Nat.leb_spec (int yy) 68) as [Hle | Hgt]; intro Hsug.
  - rewrite String.eqb_refl. cbn [negb fst snd]. split; [exact Hsug|].
    split; [discriminate | lia].
  - cbn [append String.eqb Ascii.eqb Bool.eqb andb negb fst snd].
    split; [apply dict_get_set|]. split; [lia | reflexivity].
Qed.

Lemma century_rewritten_witness :
  exists r,
    analyze_item (mkItem (Some "x") (Some "Live at The Smell on 1/2/99") None None None None)
    = Some r
    /\ dict_get "date" (suggestions r) = Some "1999-01-02"
    /\ dict_get "date" (suggestions (fst (Fix.fix_item r))) = Some "2099-01-02"
    /\ (snd (Fix.fix_item r) = true <-> 69 <= int "99").
Proof.
  assert (H1 : digits 1 2 "1") by (split; [reflexivity | simpl; lia]).
  assert (H2 : digits 1 2 "2") by (split; [reflexivity | simpl; lia]).
  exact (century_rewritten
           (mkItem (Some "x") (Some "Live at The Smell on 1/2/99") None None None None)
           "Live at The Smell on " "1" "2" "9" "9"
           eq_refl H1 H2 eq_refl eq_refl eq_refl eq_refl eq_refl).
Defined.

(** *** The mismatch list of the auditor *)

Lemma audit_item_spec (get_archive_metadata : string -> option dict)
  (x : IssueRecord) (mm : Audit.Mismatch) :
  Audit.audit_item get_archive_metadata x = Some mm <->
  Audit.parse_date_from_identifier (identifier x) = Some (Audit.identifier_date mm)
  /\ Audit.parse_date_from_title (title x) = Some (Audit.title_date mm)
  /\ Audit.identifier_date mm <> Audit.title_date mm
  /\ Audit.m_identifier mm = identifier x
  /\ Audit.m_title mm = title x
  /\ Audit.current_archive_date mm
     = Audit.current_date_of (get_archive_metadata (identifier x)).
Proof.
  unfold Audit.audit_item.
  destruct (Audit.parse_date_from_identifier (identifier x)) as [idd|] eqn:Ei.
  2: { cbn [truthy andb]. split; [discriminate | intros ([=] & _)]. }
  rewrite (truthy_some idd) by (eapply parse_identifier_nonempty; exact Ei).
  destruct (Audit.parse_date_from_title (title x)) as [td|] eqn:Et.
  2: { cbn [truthy andb]. split; [discriminate | intros (_ & [=] & _)]. }
  rewrite (truthy_some td) by (eapply audit_title_nonempty; exact Et).
  cbn [andb get_or]. destruct (String.eqb_spec idd td) as [-> | Hne]; cbn [negb].
  - split; [discriminate|]. intros ([= <-] & [= <-] & Hd & _). congruence.
  - split.
    + intros [= <-]. cbn. repeat split; try reflexivity. exact Hne.
    + destruct mm as [i t a b c]. cbn.
      intros ([= ->] & [= ->] & _ & -> & -> & ->). reflexivity.
Qed.

Lemma audit_mismatches_In (get_archive_metadata : string -> option dict)
  (report : list IssueRecord) (mm : Audit.Mismatch) :
  In mm (Audit.audit_date_mismatches get_archive_metadata report) <->
  exists x, In x report /\ Audit.audit_item get_archive_metadata x = Some mm.
Proof.
  induction report as [|x report IH]; cbn [Audit.audit_date_mismatches In].
  - split; [contradiction | intros (? & [] & _)].
  - destruct (Audit.audit_item get_archive_metadata x) as [m|] eqn:Hx;
      cbn [In]; rewrite IH; split.
    + intros [<- | (y & Hy & H)]; eauto.
    + intros (y & [<- | Hy] & H); [left; congruence | eauto].
    + intros (y & Hy & H); eauto.
    + intros (y & [<- | Hy] & H); [congruence | eauto].
Qed.

(** X13.  The auditor lists a mismatch exactly for the records of the report whose
    identifier and title both carry a date and whose two dates differ; the
    mismatch copies identifier and title and carries the two dates and the
    date the archive has now; the list is no longer than the report. *)
Theorem audit_mismatches_exact (get_archive_metadata : string -> option dict)
  (report : list IssueRecord) (mm : Audit.Mismatch) :
  (In mm (Audit.audit_date_mismatches get_archive_metadata report) <->
   exists x, In x report
     /\ Audit.parse_date_from_identifier (identifier x) = Some (Audit.identifier_date mm)
     /\ Audit.parse_date_from_title (title x) = Some (Audit.title_date mm)
     /\ Audit.identifier_date mm <> Audit.title_date mm
     /\ Audit.m_identifier mm = identifier x
     /\ Audit.m_title mm = title x
     /\ Audit.current_archive_date mm
        = Audit.current_date_of (get_archive_metadata (identifier x)))
  /\ List.length (Audit.audit_date_mismatches get_archive_metadata report)
     <= List.length report.
Proof.
  split.
  - rewrite audit_mismatches_In.
    split; intros (x & Hx & H); exists x; (split; [exact Hx|]);
      now apply audit_item_spec.
  - clear. induction report as [|x report IH]; cbn [Audit.audit_date_mismatches];
      [simpl; lia|].
    destruct (Audit.audit_item get_archive_metadata x); cbn [List.length]; lia.
Qed.

End RangeProps.

Module PipelineProps.
Import DateProps ExtractProps ParseProps Apply ApplyProps SortProps RangeProps.

(** *** From the detector to the applier *)

Lemma analyze_items_In (items : list Item) (r : IssueRecord) :
  In r (analyze_items items) <-> exists item, In item items /\ analyze_item item = Some r.
Proof.
  induction items as [|x items IH]; simpl.
  - split; [contradiction | intros (? & [] & _)].
  - destruct (analyze_item x) as [rx|] eqn:Hx; simpl; rewrite IH; split.
    + intros [<- | (item & Hi & Hr)]; eauto.
    + intros (item & [<- | Hi] & Hr); [left; congruence | eauto].
    + intros (item & Hi & Hr); eauto.
    + intros (item & [<- | Hi] & Hr); [congruence | eauto].
Qed.

Lemma attempts_sent (World : Type)
  (update : World -> string -> dict -> World * outcome bool)
  (issues : list IssueRecord) (w : World) :
  Forall (fun x => build_updates (suggestions x) <> []) issues ->
  Forall (fun a => snd a <> None) (attempts World update w issues).
Proof.
  intro H. revert w. induction H as [|x issues Hx _ IH]; intro w; simpl; [constructor|].
  destruct (build_updates (suggestions x)) as [|u us]; [congruence|].
  destruct (update w (identifier x) (u :: us)) as [w' o]. constructor; [discriminate | apply IH].
Qed.

(** X14.  Run on the report the detector saves, the applier sends something for
    every record: no record is skipped with nothing to update, so the two
    counts add up to the number of records. *)
Theorem detector_report_all_sent (World : Type)
  (update : World -> string -> dict -> World * outcome bool)
  (w : World) (items : list Item) :
  let report := sort_issues_by_type (analyze_items items) in
  let r := apply_all_fixes World update w report in
  success_count World r + error_count World r = List.length report
  /\ (forall id, ~ In (NoUpdates id) (log World r))
  /\ List.length report <= List.length items.
Proof.
  intros report r.
  assert (Hall : Forall (fun x => build_updates (suggestions x) <> []) report).
  { apply Forall_forall. intros x Hx.
    apply (Permutation_in _ (Permutation_sym (sort_perm _))) in Hx.
    apply analyze_items_In in Hx as (item & _ & Hr).
    apply analyze_item_record in Hr as (Hne & Hmap & _ & _ & ->).
    intro He. rewrite He in Hmap. destruct (issues x); [congruence | discriminate]. }
  pose proof (attempts_sent World update report w Hall) as Hsent.
  destruct (apply_loop_attempts World update report (mkRun World w 0 0 []))
    as (H1 & H2 & H3).
  fold (apply_all_fixes World update w report) in H1, H2, H3. fold r in H1, H2, H3.
  simpl in H1, H2, H3.
  set (tr := attempts World update w report) in *.
  split; [|split].
  - rewrite H1, H2.
    rewrite <- (length_map identifier report), <- (attempts_ids World update report w).
    fold tr. rewrite length_map.
    rewrite <- (count_partition is_success is_failure no_update tr)
      by (intros [id [[[|]|]|]] _; reflexivity).
    assert (Hz : count no_update tr = 0).
    { unfold count. clear -Hsent. induction Hsent as [|[id [o|]] tr Ha _ IH]; simpl;
        [reflexivity | exact IH | simpl in Ha; congruence]. }
    lia.
  - intros id Hin. rewrite H3 in Hin. apply in_flat_map in Hin as (a & Ha & Hin).
    rewrite Forall_forall in Hsent. specialize (Hsent a Ha).
    destruct a as [ida [[[|]|]|]]; simpl in Hin, Hsent;
      try congruence; intuition discriminate.
  - unfold report. rewrite <- (Permutation_length (sort_perm _)).
    clear. induction items as [|x items IH]; simpl; [lia|].
    destruct (analyze_item x); simpl; lia.
Qed.

End PipelineProps.

(** ** The band and the venue of a title *)

Module TitleProps.
Import DateProps ExtractProps ParseProps RangeProps.

(** *** What the band and venue extractors can return *)

Lemma rstrip_cons (c : ascii) (s : string) :
  is_space c = false -> rstrip (String c s) = String c (rstrip s).
Proof. intro H. cbn [rstrip]. rewrite H. now destruct (rstrip s). Qed.

Lemma rstrip_cons_more (c : ascii) (s : string) :
  rstrip s <> "" -> rstrip (String c s) = String c (rstrip s).
Proof. intro H. cbn [rstrip]. destruct (rstrip s); [congruence | reflexivity]. Qed.

Lemma rstrip_idem (s : string) : rstrip (rstrip s) = rstrip s.
Proof.
  induction s as [|c s IH]; [reflexivity|].
  destruct (rstrip s) as [|r rs] eqn:E.
  - cbn [rstrip]. rewrite E.
    destruct (is_space c) eqn:Hc; [reflexivity|]. cbn [rstrip]. now rewrite Hc.
  - rewrite (rstrip_cons_more c s) by (rewrite E; discriminate). rewrite E.
    rewrite (rstrip_cons_more c (String r rs)) by (rewrite IH; discriminate).
    now rewrite IH.
Qed.

Lemma lstrip_head (s : string) :
  lstrip s = "" \/ exists c s', lstrip s = String c s' /\ is_space c = false.
Proof.
  induction s as [|c s IH]; [now left|]. cbn [lstrip].
  destruct (is_space c) eqn:Hc; [exact IH | right; eauto].
Qed.

Lemma strip_idem (s : string) : strip (strip s) = strip s.
Proof.
  unfold strip. destruct (lstrip_head s) as [-> | (c & s' & -> & Hc)]; [reflexivity|].
  rewrite (rstrip_cons c s' Hc). cbn [lstrip]. rewrite Hc.
  rewrite <- (rstrip_cons c s' Hc). apply rstrip_idem.
Qed.

Lemma band_loop_result (patterns : list regex) (title b : string) :
  band_loop patterns title = Some b ->
  2 < String.length b /\ strip b = b /\ in_list (lower b) band_stoplist = false.
Proof.
  induction patterns as [|p patterns IH]; cbn [band_loop]; [discriminate|].
  destruct (search false p title) as [mt|]; [|exact IH].
  destruct (truthy (group 1 mt)); [|exact IH].
  destruct (2 <? String.length (strip (grp 1 mt))) eqn:Hl; cbn [andb]; [|exact IH].
  destruct (in_list (lower (strip (grp 1 mt))) band_stoplist) eqn:Hs; cbn [negb]; [exact IH|].
  intros [= <-]. apply Nat.ltb_lt in Hl. repeat split; [exact Hl | apply strip_idem | exact Hs].
Qed.

Lemma venue_loop_result (patterns : list regex) (title v : string) :
  venue_loop patterns title = Some v -> 2 < String.length v /\ strip v = v.
Proof.
  induction patterns as [|p patterns IH]; cbn [venue_loop]; [discriminate|].
  destruct (search true p title) as [mt|]; [|exact IH].
  destruct (truthy (group 1 mt)); [|exact IH].
  destruct (2 <? String.length (strip (sub_empty false paren_re (strip (grp 1 mt))))) eqn:Hl;
    [|exact IH].
  intros [= <-]. apply Nat.ltb_lt in Hl. split; [exact Hl | apply strip_idem].
Qed.

(** X15.  A band name the extractor returns has more than two characters, no
    white space at either end, and is none of live, show, concert and
    performance in any letter case; a venue it returns has more than two
    characters and no white space at either end. *)
Theorem extracted_names (title : string) :
  (forall b, extract_band_from_title title = Some b ->
     2 < String.length b /\ strip b = b /\ in_list (lower b) band_stoplist = false)
  /\ (forall v, extract_venue_from_title title = Some v ->
        2 < String.length v /\ strip v = v).
Proof.
  split.
  - intro b. unfold extract_band_from_title. destruct title; [discriminate|].
    apply band_loop_result.
  - intro v. unfold extract_venue_from_title. destruct title; [discriminate|].
    apply venue_loop_result.
Qed.

(** *** A lazy group closed by white space and a delimiter *)

(** [d] does not occur in [s]. *)
Fixpoint lacks (d : ascii) (s : string) : bool :=
  match s with
  | EmptyString => true
  | String c s' => negb (Ascii.eqb c d) && lacks d s'
  end.

Fixpoint all_space (s : string) : bool :=
  match s with
  | EmptyString => true
  | String c s' => is_space c && all_space s'
  end.

Lemma rstrip_all_space (s : string) : all_space s = true <-> rstrip s = "".
Proof.
  induction s as [|c s IH]; cbn [all_space rstrip]; [tauto|].
  destruct (rstrip s) as [|r rs].
  - destruct (is_space c); cbn [andb]; [|split; discriminate].
    split; [reflexivity | intros _; now apply IH].
  - split; [|discriminate]. intro H. apply andb_true_iff in H as [_ H].
    apply IH in H. discriminate.
Qed.

(** A text is white space throughout, or has a first character that is
    not. *)
Lemma space_prefix (u : string) :
  all_space u = true
  \/ exists w c t, u = w ++ String c t /\ all_space w = true /\ is_space c = false.
Proof.
  induction u as [|x u IH]; [now left|]. cbn [all_space].
  destruct (is_space x) eqn:Hx; cbn [andb].
  - destruct IH as [H | (w & c & t & -> & Hw & Hc)]; [now left|].
    right. exists (String x w), c, t. cbn [all_space append]. rewrite Hx. auto.
  - right. exists "", x, u. auto.
Qed.

Lemma lacks_app (d : ascii) (a b : string) : lacks d (a ++ b) = lacks d a && lacks d b.
Proof. induction a as [|c a IH]; cbn; [reflexivity | now rewrite IH, andb_assoc]. Qed.

Lemma strip_commute (s : string) : lstrip (rstrip s) = rstrip (lstrip s).
Proof.
  induction s as [|c s IH]; [reflexivity|].
  destruct (is_space c) eqn:Hc.
  - cbn [lstrip]. rewrite Hc. cbn [rstrip]. rewrite Hc.
    destruct (rstrip s) as [|r rs] eqn:E.
    + rewrite <- IH. reflexivity.
    + cbn [lstrip]. rewrite Hc. exact IH.
  - rewrite (rstrip_cons c s Hc). cbn [lstrip]. rewrite Hc. now rewrite rstrip_cons.
Qed.

Lemma strip_rstrip_tail (c : ascii) (s : string) :
  strip (String c (rstrip s)) = strip (String c s).
Proof.
  unfold strip. cbn [lstrip]. destruct (is_space c) eqn:Hc.
  - now rewrite strip_commute, rstrip_idem.
  - rewrite !(rstrip_cons c _ Hc). now rewrite rstrip_idem.
Qed.

Section Delimiter.

(** The flag of the search and the delimiter: @ for the band, ( for the
    venue. *)
Variable icase : bool.
Variable d : ascii.
Hypothesis lit_d : forall c, cset_match icase (Lit d) c = Ascii.eqb c d.
Hypothesis d_not_space : is_space d = false.

Lemma none_of_d (c : ascii) : cset_match icase (NoneOf d) c = negb (Ascii.eqb c d).
Proof. exact (f_equal negb (lit_d c)). Qed.

Lemma space_not_d (c : ascii) : is_space c = true -> Ascii.eqb c d = false.
Proof.
  intro H. destruct (Ascii.eqb_spec c d); [subst; congruence | reflexivity].
Qed.

(** The continuations: the delimiter after the white space, and \s* with
    the delimiter after the group is closed. *)
Definition at_k : cont := fun st => run icase (ch d) st (fun st' => Some st').
Definition tail_k : cont :=
  fun st => run icase (Cat sp0 (ch d)) (close_group st) (fun st' => Some st').

Lemma tail_k_eq (p : option ascii) (s : string) (g : nat * string)
  (cl : list (nat * string)) :
  tail_k (mkState p s [g] cl) = many icase Space true p s [] (g :: cl) at_k.
Proof. reflexivity. Qed.

Lemma spaces_then_d (w t : string) (p : option ascii) (cl : list (nat * string)) :
  all_space w = true ->
  exists mt, many icase Space true p (w ++ String d t) [] cl at_k = Some mt
             /\ closed mt = cl.
Proof.
  revert p. induction w as [|c w IH]; intros p Hw; cbn [append many].
  - cbn [cset_match]. rewrite d_not_space. unfold at_k.
    cbn [orelse run ch step rest]. rewrite lit_d, Ascii.eqb_refl.
    eexists. split; reflexivity.
  - cbn [all_space] in Hw. apply andb_true_iff in Hw as [Hc Hw].
    cbn [cset_match]. rewrite Hc. cbn [advance opened closed prev map].
    destruct (IH (Some c) Hw) as (mt & -> & Hcl). cbn [orelse]. eauto.
Qed.

Lemma spaces_then_other (w t : string) (c : ascii) (p : option ascii)
  (cl : list (nat * string)) :
  all_space w = true -> is_space c = false -> Ascii.eqb c d = false ->
  many icase Space true p (w ++ String c t) [] cl at_k = None.
Proof.
  intros Hw Hc Hat. revert p. induction w as [|x w IH]; intro p; cbn [append many].
  - cbn [cset_match]. rewrite Hc. unfold at_k.
    cbn [orelse run ch step rest]. now rewrite lit_d, Hat.
  - cbn [all_space] in Hw. apply andb_true_iff in Hw as [Hx Hw].
    cbn [cset_match]. rewrite Hx. cbn [advance opened closed prev map].
    rewrite (IH Hw). unfold at_k. cbn [orelse run ch step rest].
    now rewrite lit_d, (space_not_d x Hx).
Qed.

(** The lazy group grows until only white space is left before the
    delimiter. *)
Lemma lazy_before (u t acc : string) (p : option ascii) (n : nat)
  (cl : list (nat * string)) :
  lacks d u = true ->
  exists mt,
    many icase (NoneOf d) false p (u ++ String d t) [(n, acc)] cl tail_k = Some mt
    /\ closed mt = (n, acc ++ rstrip u) :: cl.
Proof.
  revert acc p. induction u as [|c u IH]; intros acc p Hu.
  - cbn [append many]. rewrite tail_k_eq.
    destruct (spaces_then_d "" t p ((n, acc) :: cl) eq_refl) as (mt & E & Hcl).
    cbn [append] in E. rewrite E.
    exists mt. cbn [orelse rstrip]. now rewrite append_nil_r.
  - assert (Hall := Hu).
    cbn [lacks] in Hu. apply andb_true_iff in Hu as [Hc Hu]. apply negb_true_iff in Hc.
    cbn [append many]. rewrite tail_k_eq, none_of_d, Hc. cbn [negb].
    cbn [advance opened closed prev map fst snd].
    change (String c (u ++ String d t)) with (String c u ++ String d t).
    destruct (space_prefix (String c u)) as [Hsp | (w & x & t' & Hs & Hw & Hx)].
    + destruct (spaces_then_d (String c u) t p ((n, acc) :: cl) Hsp) as (mt & -> & Hcl).
      exists mt. cbn [orelse]. apply rstrip_all_space in Hsp. rewrite Hsp.
      now rewrite append_nil_r.
    + assert (Hxd : Ascii.eqb x d = false).
      { rewrite Hs, lacks_app in Hall. apply andb_true_iff in Hall as [_ H].
        cbn [lacks] in H. apply andb_true_iff in H as [H _]. now apply negb_true_iff. }
      replace (String c u ++ String d t) with (w ++ String x (t' ++ String d t))
        by (rewrite Hs, append_assoc; reflexivity).
      rewrite (spaces_then_other w _ x p _ Hw Hx Hxd). cbn [orelse].
      destruct (IH (snoc acc c) (Some c) Hu) as (mt & -> & Hcl).
      exists mt. split; [reflexivity|]. rewrite Hcl. f_equal. f_equal.
      unfold snoc. rewrite append_assoc. cbn [append]. f_equal.
      assert (Hns : all_space (String c u) = false).
      { rewrite Hs. clear -Hw Hx. induction w as [|y w IH]; cbn [append all_space].
        - now rewrite Hx.
        - cbn [all_space] in Hw. apply andb_true_iff in Hw as [Hy Hw].
          rewrite Hy. now apply IH. }
      cbn [all_space] in Hns. symmetry.
      destruct (is_space c) eqn:Hsc; cbn [andb] in Hns.
      * apply rstrip_cons_more. intro He. apply rstrip_all_space in He. congruence.
      * now apply rstrip_cons.
Qed.

End Delimiter.

(** *** The band before the first @ *)

Lemma extract_band_eq_loop (t : string) :
  extract_band_from_title t = band_loop band_patterns t.
Proof. destruct t; [vm_compute; reflexivity | reflexivity]. Qed.

(** The first band pattern on a text, an @ and whatever follows. *)
Lemma band_pattern_match (c : ascii) (u after : string) :
  Ascii.eqb c "@" = false -> lacks "@" u = true ->
  exists mt,
    search false (nth 0 band_patterns Empty) (String c (u ++ String "@" after)) = Some mt
    /\ closed mt = [(1, String c (rstrip u))].
Proof.
  intros Hc Hu. cbn [nth band_patterns].
  unfold search. cbn [search_from]. unfold here.
  cbn [cat run prev open_group rest opened closed times step cset_match].
  rewrite Hc. cbn [negb advance opened closed prev rest map fst snd snoc append].
  destruct (lazy_before false "@" (fun c => eq_refl) eq_refl
              u after (String c "") (Some c) 1 [] Hu) as (mt & E & Hcl).
  match goal with
  | |- context [many false (NoneOf "@") false (Some c) ?s ?op ?cl ?k] =>
      change (many false (NoneOf "@") false (Some c) s op cl k)
        with (many false (NoneOf "@") false (Some c) s [(1, String c "")] []
                (tail_k false "@"))
  end.
  rewrite E. exists mt. split; [reflexivity | exact Hcl].
Qed.

Lemma band_loop_at (before after : string) :
  lacks "@" before = true ->
  2 < String.length (strip before) ->
  in_list (lower (strip before)) band_stoplist = false ->
  band_loop band_patterns (before ++ "@" ++ after) = Some (strip before).
Proof.
  intros Hat Hlen Hstop.
  destruct before as [|c u]; [cbn in Hlen; lia|].
  cbn [lacks] in Hat. apply andb_true_iff in Hat as [Hc Hu]. apply negb_true_iff in Hc.
  destruct (band_pattern_match c u after Hc Hu) as (mt & Hs & Hcl).
  cbn [nth band_patterns] in Hs.
  cbn [append]. unfold band_patterns. cbn [band_loop].
  rewrite Hs. unfold grp, group. rewrite Hcl. cbn [assoc Nat.eqb truthy].
  rewrite strip_rstrip_tail.
  apply Nat.ltb_lt in Hlen. rewrite Hlen, Hstop. reflexivity.
Qed.

(** X16.  Whatever follows the first @, the band is the text before it with the
    white space at its ends removed, provided that text is longer than two
    characters and is not one of the four stop words. *)
Theorem band_before_at (before after : string) :
  lacks "@" before = true ->
  2 < String.length (strip before) ->
  in_list (lower (strip before)) band_stoplist = false ->
  extract_band_from_title (before ++ "@" ++ after) = Some (strip before).
Proof.
  intros Hat Hlen Hstop.
  destruct before as [|c u]; [cbn in Hlen; lia|].
  cbn [append extract_band_from_title].
  exact (band_loop_at (String c u) after Hat Hlen Hstop).
Qed.

Lemma band_before_at_witness :
  extract_band_from_title ("  Thou  " ++ "@" ++ " The Che Cafe on 01.12.12") = Some "Thou".
Proof.
  apply (band_before_at "  Thou  " " The Che Cafe on 01.12.12");
    [reflexivity | vm_compute; lia | reflexivity].
Defined.

(** *** The venue between @ and an opening parenthesis *)

(** Under re.I the two delimiters still match only themselves. *)
Lemma lit_at_icase (c : ascii) : cset_match true (Lit "@") c = Ascii.eqb c "@".
Proof. destruct c as [[] [] [] [] [] [] [] []]; reflexivity. Qed.

Lemma lit_paren_icase (c : ascii) : cset_match true (Lit "(") c = Ascii.eqb c "(".
Proof. destruct c as [[] [] [] [] [] [] [] []]; reflexivity. Qed.

(** A pattern that starts with the literal @ finds nothing before the
    first @. *)
Definition at_led (icase : bool) (r : regex) : Prop :=
  forall p c s, Ascii.eqb c "@" = false -> here icase r p (String c s) = None.

Lemma search_skip_at (icase : bool) (r : regex) (pre s : string) (p : option ascii) :
  at_led icase r -> lacks "@" pre = true ->
  search_from icase r p (pre ++ s) = search_from icase r (prev_after p pre) s.
Proof.
  intros Hr. revert p. induction pre as [|c pre IH]; intros p Hpre; [reflexivity|].
  cbn [lacks] in Hpre. apply andb_true_iff in Hpre as [Hc Hpre]. apply negb_true_iff in Hc.
  cbn [append search_from prev_after]. rewrite (Hr p c _ Hc). now apply IH.
Qed.

(** Greedy white space before a character that is not white space: all of
    it is taken when what follows then matches. *)
Lemma greedy_spaces (icase : bool) (w t : string) (c : ascii) (p : option ascii)
  (cl : list (nat * string)) (k : cont) (Q : state -> Prop) :
  all_space w = true -> is_space c = false ->
  (forall p', exists mt, k (mkState p' (String c t) [] cl) = Some mt /\ Q mt) ->
  exists mt, many icase Space true p (w ++ String c t) [] cl k = Some mt /\ Q mt.
Proof.
  intros Hw Hc Hk. revert p. induction w as [|x w IH]; intro p; cbn [append many].
  - cbn [cset_match]. rewrite Hc. cbn [orelse]. apply Hk.
  - cbn [all_space] in Hw. apply andb_true_iff in Hw as [Hx Hw].
    cbn [cset_match]. rewrite Hx. cbn [advance opened closed prev map].
    destruct (IH Hw (Some x)) as (mt & -> & HQ). cbn [orelse]. eauto.
Qed.

Lemma lacks_lstrip (d : ascii) (s : string) : lacks d s = true -> lacks d (lstrip s) = true.
Proof.
  induction s as [|c s IH]; [reflexivity|]. cbn [lstrip]. intro H.
  destruct (is_space c); [|exact H].
  cbn [lacks] in H. apply andb_true_iff in H as [_ H]. now apply IH.
Qed.

Lemma lacks_rstrip (d : ascii) (s : string) : lacks d s = true -> lacks d (rstrip s) = true.
Proof.
  induction s as [|c s IH]; [reflexivity|]. cbn [lacks rstrip]. intro H.
  apply andb_true_iff in H as [Hc H]. specialize (IH H).
  destruct (rstrip s) as [|r rs].
  - destruct (is_space c); [reflexivity|]. cbn [lacks]. now rewrite Hc.
  - cbn [lacks] in *. now rewrite Hc, IH.
Qed.

Lemma lacks_strip (d : ascii) (s : string) : lacks d s = true -> lacks d (strip s) = true.
Proof. intro H. unfold strip. now apply lacks_rstrip, lacks_lstrip. Qed.

Lemma paren_re_none (s : string) (p : option ascii) :
  lacks "(" s = true -> here false paren_re p s = None.
Proof.
  unfold here, paren_re, sp0. cbn [cat run times prev rest opened closed].
  revert p. induction s as [|c s IH]; intros p Hs; cbn [many].
  - reflexivity.
  - cbn [lacks] in Hs. apply andb_true_iff in Hs as [Hc Hs]. apply negb_true_iff in Hc.
    cbn [cset_match advance opened closed prev map].
    rewrite (IH (Some c) Hs).
    replace (if is_space c then None else None) with (@None state) by now destruct (is_space c).
    cbn [orelse run ch step rest cset_match]. now rewrite Hc.
Qed.

Lemma sub_paren_id (s : string) (p : option ascii) :
  lacks "(" s = true -> sub_from false paren_re 0 p s = s.
Proof.
  revert p. induction s as [|c s IH]; intros p Hs; [reflexivity|].
  cbn [sub_from]. rewrite (paren_re_none _ p Hs).
  cbn [lacks] in Hs. apply andb_true_iff in Hs as [_ Hs]. now rewrite IH.
Qed.

Lemma strip_spaces (w x : string) : all_space w = true -> strip (w ++ x) = strip x.
Proof.
  unfold strip. induction w as [|c w IH]; intro Hw; [reflexivity|].
  cbn [all_space] in Hw. apply andb_true_iff in Hw as [Hc Hw].
  cbn [append lstrip]. rewrite Hc. now apply IH.
Qed.

Lemma strip_all_space (w : string) : all_space w = true -> strip w = "".
Proof.
  intro H. rewrite <- (append_nil_r w). now rewrite strip_spaces.
Qed.

Lemma extract_venue_eq_loop (t : string) :
  extract_venue_from_title t = venue_loop venue_patterns t.
Proof. destruct t; [vm_compute; reflexivity | reflexivity]. Qed.

Lemma venue_loop_hit (pat : regex) (pats : list regex) (title g : string) (mt : state) :
  search true pat title = Some mt -> group 1 mt = Some g -> g <> "" ->
  2 < String.length (strip (sub_empty false paren_re (strip g))) ->
  venue_loop (pat :: pats) title = Some (strip (sub_empty false paren_re (strip g))).
Proof.
  intros Hs Hg Hne Hl. cbn [venue_loop]. unfold grp. rewrite Hs, Hg.
  rewrite (truthy_some g Hne). apply Nat.ltb_lt in Hl. now rewrite Hl.
Qed.

(** The first venue pattern on a title with an @, white space, a text
    without parenthesis and then an opening parenthesis. *)
Lemma paren_pattern_match (pre between after : string) (sp : ascii) :
  lacks "@" pre = true -> is_space sp = true ->
  lacks "(" between = true -> strip between <> "" ->
  exists mt g,
    search true (nth 0 venue_patterns Empty)
           (pre ++ "@" ++ String sp between ++ "(" ++ after) = Some mt
    /\ group 1 mt = Some g /\ g <> "" /\ strip g = strip between.
Proof.
  intros Hpre Hsp Hb Hne. unfold search. cbn [nth venue_patterns].
  rewrite search_skip_at; [|
    intros p c s Hc; unfold here; cbn [cat ch run step rest];
    now rewrite lit_at_icase, Hc | exact Hpre].
  destruct (space_prefix between) as [Hall | (w & v0 & V & -> & Hw & Hv0)];
    [now apply strip_all_space in Hall|].
  rewrite lacks_app in Hb. apply andb_true_iff in Hb as [_ Hb].
  cbn [lacks] in Hb. apply andb_true_iff in Hb as [Hv0p HV]. apply negb_true_iff in Hv0p.
  cbn [append search_from]. unfold here.
  cbn [cat ch run step rest]. rewrite lit_at_icase. cbn [Ascii.eqb Bool.eqb].
  unfold sp1. cbn [run times step rest advance opened closed prev map cset_match].
  rewrite Hsp. cbn [opened closed prev rest].
  rewrite append_assoc. cbn [append].
  match goal with
  | |- context [many true Space true ?p ?s [] [] ?k] =>
      destruct (greedy_spaces true w (V ++ String "(" after) v0 p [] k
                  (fun mt => closed mt = [(1, String v0 (rstrip V))]) Hw Hv0)
        as (mt & E & Hcl)
  end.
  { intro p'. cbn [run open_group prev rest opened closed times step].
    change (cset_match true (NoneOf "(") v0) with (negb (cset_match true (Lit "(") v0)).
    rewrite lit_paren_icase, Hv0p. cbn [negb advance opened closed prev rest map fst snd snoc append].
    destruct (lazy_before true "(" lit_paren_icase eq_refl V after (String v0 "")
                (Some v0) 1 [] HV) as (mt & E & Hcl).
    match goal with
    | |- context [many true (NoneOf "(") false (Some v0) ?s ?op ?cl ?k] =>
        change (many true (NoneOf "(") false (Some v0) s op cl k)
          with (many true (NoneOf "(") false (Some v0) s [(1, String v0 "")] []
                  (tail_k true "("))
    end.
    rewrite E. exists mt. split; [reflexivity | exact Hcl]. }
  rewrite E. exists mt, (String v0 (rstrip V)).
  split; [reflexivity|]. split; [unfold group; rewrite Hcl; reflexivity|].
  split; [discriminate|].
  now rewrite strip_rstrip_tail, strip_spaces.
Qed.

(** X17.  A title with an @ followed by white space and, later, an opening
    parenthesis: the venue is the text between the two, with the white space
    at its ends removed, provided it is longer than two characters. *)
Theorem venue_before_paren (pre between after : string) (sp : ascii) :
  lacks "@" pre = true -> is_space sp = true ->
  lacks "(" between = true -> 2 < String.length (strip between) ->
  extract_venue_from_title (pre ++ "@" ++ String sp between ++ "(" ++ after)
  = Some (strip between).
Proof.
  intros Hpre Hsp Hb Hlen.
  assert (Hne : strip between <> "") by (intro H; rewrite H in Hlen; cbn in Hlen; lia).
  destruct (paren_pattern_match pre between after sp Hpre Hsp Hb Hne)
    as (mt & g & Hs & Hg & Hgne & Hstrip).
  assert (Hv : strip (sub_empty false paren_re (strip g)) = strip between).
  { rewrite Hstrip. unfold sub_empty.
    rewrite sub_paren_id by now apply lacks_strip. apply strip_idem. }
  rewrite extract_venue_eq_loop. unfold venue_patterns.
  erewrite venue_loop_hit; [| exact Hs | exact Hg | exact Hgne | now rewrite Hv].
  now rewrite Hv.
Qed.

Lemma venue_before_paren_witness :
  extract_venue_from_title
    ("Thou " ++ "@" ++ String " " "The Che Cafe " ++ "(" ++ "San Diego, CA) on 01.12.12")
  = Some "The Che Cafe".
Proof.
  apply (venue_before_paren "Thou " "The Che Cafe " "San Diego, CA) on 01.12.12" " ");
    [reflexivity | reflexivity | reflexivity | vm_compute; lia].
Defined.

(** *** The venue between @ and " on ", or the end of the title *)

(** A repetition whose continuation fails on every text without [(]
    fails on such a text. *)
Lemma many_none (icase : bool) (cs : cset) (greedy : bool) (k : cont) (s : string) :
  (forall p' s' op' cl', lacks "(" s' = true -> k (mkState p' s' op' cl') = None) ->
  lacks "(" s = true ->
  forall p op cl, many icase cs greedy p s op cl k = None.
Proof.
  intro Hk. induction s as [|c s IH]; intros Hs p op cl; cbn [many].
  - now apply Hk.
  - rewrite (Hk _ _ _ _ Hs).
    cbn [lacks] in Hs. apply andb_true_iff in Hs as [_ Hs].
    cbn [advance prev opened closed]. rewrite (IH Hs).
    destruct (cset_match icase cs c), greedy; reflexivity.
Qed.

Lemma step_none (icase : bool) (cs : cset) (k : cont) (st : state) :
  (forall p' s' op' cl', lacks "(" s' = true -> k (mkState p' s' op' cl') = None) ->
  lacks "(" (rest st) = true -> step icase cs st k = None.
Proof.
  intros Hk Hs. unfold step. destruct (rest st) as [|c s]; [reflexivity|].
  cbn [lacks] in Hs. apply andb_true_iff in Hs as [_ Hs].
  destruct (cset_match icase cs c); [|reflexivity]. unfold advance. now apply Hk.
Qed.

(** The patterns with a parenthesis find nothing in a title without one. *)
Lemma paren_tail_none (p : option ascii) (s : string)
  (op cl : list (nat * string)) :
  lacks "(" s = true ->
  run true (Cat sp0 (ch "(")) (close_group (mkState p s op cl)) (fun st => Some st) = None.
Proof.
  intro Hs.
  assert (H : forall st, rest st = s ->
            run true (Cat sp0 (ch "(")) st (fun st' => Some st') = None).
  { intros st <-. unfold sp0. cbn [run times]. apply many_none; [|exact Hs].
    intros p' s' op' cl' Hs'.
    destruct s' as [|c s']; cbn [ch run step rest]; [reflexivity|].
    cbn [lacks] in Hs'. apply andb_true_iff in Hs' as [Hc _]. apply negb_true_iff in Hc.
    now rewrite lit_paren_icase, Hc. }
  apply H. unfold close_group. cbn [opened]. destruct op; reflexivity.
Qed.

Lemma paren_group_none (p : option ascii) (s : string) (op cl : list (nat * string)) :
  lacks "(" s = true ->
  run true (cat [sp1; Group 1 (Rep (NoneOf "(") 1 None false); sp0; ch "("])
      (mkState p s op cl) (fun st => Some st) = None.
Proof.
  intro Hs. unfold sp1. cbn [cat run times].
  apply step_none; [|exact Hs].
  intros p1 s1 op1 cl1 Hs1. cbn [prev rest opened closed].
  apply many_none; [|exact Hs1].
  intros p2 s2 op2 cl2 Hs2. cbn [run open_group prev rest opened closed times].
  apply step_none; [|exact Hs2].
  intros p3 s3 op3 cl3 Hs3. cbn [prev rest opened closed].
  apply many_none; [|exact Hs3].
  intros p4 s4 op4 cl4 Hs4. now apply paren_tail_none.
Qed.

Lemma paren_pattern_none (s : string) (p : option ascii) :
  lacks "(" s = true -> search_from true (nth 0 venue_patterns Empty) p s = None.
Proof.
  cbn [nth venue_patterns].
  assert (H : forall p s, lacks "(" s = true ->
            here true (cat [ch "@"; sp1; Group 1 (Rep (NoneOf "(") 1 None false);
                            sp0; ch "("]) p s = None).
  { clear. intros p s Hs. unfold here.
    change (cat [ch "@"; sp1; Group 1 (Rep (NoneOf "(") 1 None false); sp0; ch "("])
      with (Cat (ch "@") (cat [sp1; Group 1 (Rep (NoneOf "(") 1 None false); sp0; ch "("])).
    cbn [run ch]. apply step_none; [|exact Hs].
    intros p1 s1 op1 cl1 Hs1. now apply paren_group_none. }
  revert p. induction s as [|c s IH]; intros p Hs; cbn [search_from]; rewrite (H p _ Hs).
  - reflexivity.
  - cbn [lacks] in Hs. apply andb_true_iff in Hs as [_ Hs]. now apply IH.
Qed.

(** A venue the second pattern reads whole: it starts and ends with a
    character that is not white space, has no line break, and every white
    space in it is followed by a character that is not white space, o, O, [
    or a digit, so that no stop (" on ", " [", a four-digit number) begins
    inside it. *)
Definition starts_stop (c : ascii) : bool :=
  Ascii.eqb (lower_char c) "o" || Ascii.eqb c "[" || is_digit c.

Fixpoint plain_from (after_space : bool) (s : string) : bool :=
  match s with
  | EmptyString => negb after_space
  | String c s' =>
      if is_space c
      then negb after_space && negb (Ascii.eqb c newline) && plain_from true s'
      else negb (after_space && starts_stop c) && plain_from false s'
  end.

Definition plain (s : string) : bool :=
  match s with
  | EmptyString => false
  | String c s' => negb (is_space c) && plain_from false s'
  end.

Lemma lower_bracket (c : ascii) : Ascii.eqb (lower_char c) "[" = Ascii.eqb c "[".
Proof. destruct c as [[] [] [] [] [] [] [] []]; reflexivity. Qed.

Lemma not_space_not_newline (c : ascii) : is_space c = false -> Ascii.eqb c newline = false.
Proof.
  intro H. destruct (Ascii.eqb_spec c newline); [subst; discriminate H | reflexivity].
Qed.

(** The stop alternatives after the group is closed. *)
Definition stop_k : cont :=
  fun st => run true venue_stop (close_group st) (fun st' => Some st').

Lemma stop_k_eq (p : option ascii) (s acc : string) :
  stop_k (mkState p s [(1, acc)] [])
  = run true venue_stop (mkState p s [] [(1, acc)]) (fun st' => Some st').
Proof. reflexivity. Qed.

Lemma stop_not_space (p : option ascii) (c : ascii) (s acc : string) :
  is_space c = false -> stop_k (mkState p (String c s) [(1, acc)] []) = None.
Proof.
  intro Hc. rewrite stop_k_eq. unfold venue_stop, sp1.
  cbn [app lit cat run times step rest cset_match orelse]. rewrite Hc.
  cbn [orelse at_eol]. rewrite (not_space_not_newline c Hc). now destruct s.
Qed.

Lemma stop_one_space (p : option ascii) (c n : ascii) (s acc : string) :
  is_space c = true -> Ascii.eqb c newline = false ->
  is_space n = false -> starts_stop n = false ->
  stop_k (mkState p (String c (String n s)) [(1, acc)] []) = None.
Proof.
  intros Hc Hnl Hn Hstop. unfold starts_stop in Hstop.
  apply orb_false_iff in Hstop as [Hstop Hd]. apply orb_false_iff in Hstop as [Ho Hb].
  rewrite stop_k_eq. unfold venue_stop, sp1, dN.
  cbn [app lit cat run times step rest cset_match orelse advance opened closed prev map
       many at_eol].
  rewrite Hc, Hn. cbn [orelse].
  change (lower_char "o") with "o"%char. change (lower_char "[") with "["%char.
  unfold ch. cbn [run step rest cset_match].
  change (lower_char "[") with "["%char.
  now rewrite Ho, lower_bracket, Hb, Hd.
Qed.

Lemma many_lazy_now (icase : bool) (cs : cset) (p : option ascii) (s : string)
  (op cl : list (nat * string)) (k : cont) (mt : state) :
  k (mkState p s op cl) = Some mt -> many icase cs false p s op cl k = Some mt.
Proof. intro H. destruct s; cbn [many]; now rewrite H. Qed.

(** What the stop must do where the venue ends. *)
Definition stops_here (tail : string) : Prop :=
  forall p acc, exists mt,
    stop_k (mkState p tail [(1, acc)] []) = Some mt /\ closed mt = [(1, acc)].

Lemma stops_at_on (after : string) : stops_here (" on " ++ after).
Proof. intros p acc. eexists. split; vm_compute; reflexivity. Qed.

Lemma stops_at_end : stops_here "".
Proof. intros p acc. eexists. split; vm_compute; reflexivity. Qed.

Lemma lazy_plain (u tail acc : string) (p : option ascii) (b : bool) :
  stops_here tail -> plain_from b u = true ->
  exists mt,
    many true Dot false p (u ++ tail) [(1, acc)] [] stop_k = Some mt
    /\ closed mt = [(1, acc ++ u)].
Proof.
  intro Htail. revert acc p b. induction u as [|c u IH]; intros acc p b Hu.
  - cbn [append]. destruct (Htail p acc) as (mt & E & Hcl).
    exists mt. split; [now apply many_lazy_now | now rewrite append_nil_r].
  - cbn [plain_from] in Hu. cbn [append many].
    assert (Hstep : stop_k (mkState p (String c (u ++ tail)) [(1, acc)] []) = None
                    /\ Ascii.eqb c newline = false
                    /\ plain_from (is_space c) u = true).
    { destruct (is_space c) eqn:Hc.
      - apply andb_true_iff in Hu as [Hu Hpl]. apply andb_true_iff in Hu as [_ Hnl].
        apply negb_true_iff in Hnl. split; [|now split].
        destruct u as [|n u]; [discriminate Hpl|]. cbn [plain_from] in Hpl.
        destruct (is_space n) eqn:Hn; [discriminate Hpl|].
        apply andb_true_iff in Hpl as [Hst _]. cbn [andb] in Hst.
        apply negb_true_iff in Hst. cbn [append]. now apply stop_one_space.
      - apply andb_true_iff in Hu as [_ Hpl].
        split; [now apply stop_not_space | split; [now apply not_space_not_newline | exact Hpl]]. }
    destruct Hstep as (Hk & Hnl & Hpl). rewrite Hk. cbn [orelse cset_match].
    rewrite Hnl. cbn [negb advance opened closed prev map fst snd].
    destruct (IH (snoc acc c) (Some c) _ Hpl) as (mt & -> & Hcl).
    exists mt. split; [reflexivity|]. rewrite Hcl. unfold snoc.
    now rewrite append_assoc.
Qed.

Lemma rstrip_plain (b : bool) (s : string) : plain_from b s = true -> rstrip s = s.
Proof.
  revert b. induction s as [|c s IH]; intros b H; [reflexivity|].
  cbn [plain_from] in H.
  assert (Hs : rstrip s = s /\ (s = "" -> is_space c = false)).
  { destruct (is_space c).
    - apply andb_true_iff in H as [_ H]. split; [now apply (IH true)|].
      intros ->. discriminate H.
    - apply andb_true_iff in H as [_ H]. split; [now apply (IH false) | reflexivity]. }
  destruct Hs as [Hr Hc]. cbn [rstrip]. rewrite Hr.
  destruct s; [now rewrite Hc | reflexivity].
Qed.

Lemma strip_plain (s : string) : plain s = true -> strip s = s.
Proof.
  destruct s as [|c s]; [discriminate|]. cbn [plain]. intro H.
  apply andb_true_iff in H as [Hc H]. apply negb_true_iff in Hc.
  unfold strip. cbn [lstrip]. rewrite Hc, (rstrip_cons c s Hc).
  now rewrite (rstrip_plain false s H).
Qed.

Lemma venue_loop_miss (pat : regex) (pats : list regex) (title : string) :
  search true pat title = None ->
  venue_loop (pat :: pats) title = venue_loop pats title.
Proof. intro H. cbn [venue_loop]. now rewrite H. Qed.

Lemma search_from_hit (icase : bool) (r : regex) (p : option ascii) (s : string)
  (mt : state) :
  here icase r p s = Some mt -> search_from icase r p s = Some mt.
Proof. intro H. destruct s; cbn [search_from]; now rewrite H. Qed.

Lemma plain_pattern_match (pre V tail : string) (sp : ascii) :
  lacks "@" pre = true -> is_space sp = true -> plain V = true -> stops_here tail ->
  exists mt,
    search true (nth 1 venue_patterns Empty) (pre ++ "@" ++ String sp V ++ tail) = Some mt
    /\ group 1 mt = Some V.
Proof.
  intros Hpre Hsp HV Htail. unfold search. cbn [nth venue_patterns].
  rewrite search_skip_at; [|
    intros p c s Hc; unfold here; cbn [cat ch run step rest];
    now rewrite lit_at_icase, Hc | exact Hpre].
  destruct V as [|v0 V]; [discriminate|]. cbn [plain] in HV.
  apply andb_true_iff in HV as [Hv0 HV]. apply negb_true_iff in Hv0.
  destruct (lazy_plain V tail (String v0 "") (Some v0) false Htail HV) as (mt & E & Hcl).
  exists mt. split; [|unfold group; now rewrite Hcl].
  cbn [append]. apply search_from_hit. unfold here.
  cbn [cat ch run step rest]. rewrite lit_at_icase. cbn [Ascii.eqb Bool.eqb].
  unfold sp1. cbn [run times step rest advance opened closed prev map cset_match many].
  rewrite Hsp, Hv0. cbn [orelse run times step open_group opened closed prev rest cset_match].
  rewrite (not_space_not_newline v0 Hv0).
  cbn [negb advance opened closed prev rest map fst snd snoc append].
  exact E.
Qed.

Lemma venue_loop_on (pre V tail : string) (sp : ascii) :
  lacks "@" pre = true -> is_space sp = true -> plain V = true ->
  2 < String.length V ->
  lacks "(" pre = true -> lacks "(" V = true ->
  stops_here tail -> lacks "(" tail = true ->
  venue_loop venue_patterns (pre ++ "@" ++ String sp V ++ tail) = Some V.
Proof.
  intros Hpre Hsp HV Hlen Hp1 Hp2 Htail Hpt.
  assert (Hne : V <> "") by (intros ->; discriminate).
  assert (Hv : strip (sub_empty false paren_re (strip V)) = V).
  { rewrite (strip_plain V HV). unfold sub_empty.
    rewrite sub_paren_id by exact Hp2. now apply strip_plain. }
  destruct (plain_pattern_match pre V tail sp Hpre Hsp HV Htail) as (mt & Hs & Hg).
  unfold venue_patterns.
  rewrite venue_loop_miss.
  2: { apply paren_pattern_none. rewrite lacks_app, Hp1. cbn [andb append lacks].
       rewrite lacks_app, Hp2, Hpt.
       replace (Ascii.eqb sp "(") with false; [reflexivity|].
       symmetry. destruct (Ascii.eqb_spec sp "("); [subst; discriminate Hsp | reflexivity]. }
  erewrite venue_loop_hit; [| exact Hs | exact Hg | exact Hne | now rewrite Hv].
  now rewrite Hv.
Qed.

(** X18.  A title without parenthesis, with an @ followed by white space and a
    plain venue that is followed by " on " or ends the title: the venue is
    returned as it stands, provided it is longer than two characters. *)
Theorem venue_before_on (pre V after : string) (sp : ascii) :
  lacks "@" pre = true -> is_space sp = true -> plain V = true ->
  2 < String.length V ->
  lacks "(" pre = true -> lacks "(" V = true -> lacks "(" after = true ->
  extract_venue_from_title (pre ++ "@" ++ String sp V ++ " on " ++ after) = Some V
  /\ extract_venue_from_title (pre ++ "@" ++ String sp V) = Some V.
Proof.
  intros Hpre Hsp HV Hlen Hp1 Hp2 Hp3. rewrite !extract_venue_eq_loop. split.
  - apply venue_loop_on; try assumption. apply stops_at_on.
  - rewrite <- (append_nil_r V) at 1.
    apply venue_loop_on; try assumption; [apply stops_at_end | reflexivity].
Qed.

Lemma venue_before_on_witness :
  extract_venue_from_title
    ("Thou " ++ "@" ++ String " " "The Che Cafe" ++ " on " ++ "01.12.12")
  = Some "The Che Cafe"
  /\ extract_venue_from_title ("Thou " ++ "@" ++ String " " "The Che Cafe")
     = Some "The Che Cafe".
Proof.
  apply (venue_before_on "Thou " "The Che Cafe" "01.12.12" " ");
    try reflexivity; vm_compute; lia.
Defined.

(** *** A whole title: band @ venue on date *)

Lemma rstrip_app_space (s w : string) : all_space w = true -> rstrip (s ++ w) = rstrip s.
Proof.
  intro Hw. induction s as [|c s IH]; cbn [append rstrip].
  - now apply rstrip_all_space.
  - now rewrite IH.
Qed.

Lemma strip_app_space (s w : string) : all_space w = true -> strip (s ++ w) = strip s.
Proof.
  intro Hw. induction s as [|c s IH].
  - cbn [append]. now apply strip_all_space.
  - unfold strip in *. cbn [append lstrip]. destruct (is_space c); [exact IH|].
    change (String c (s ++ w)) with (String c s ++ w). now apply rstrip_app_space.
Qed.

Lemma no_digit_app (a b : string) : no_digit (a ++ b) = no_digit a && no_digit b.
Proof. induction a as [|c a IH]; cbn; [reflexivity | now rewrite IH, andb_assoc]. Qed.

Lemma digits_lack_paren (s : string) : all_digits s = true -> lacks "(" s = true.
Proof.
  induction s as [|c s IH]; [reflexivity|]. cbn [all_digits lacks]. intro H.
  apply andb_true_iff in H as [Hc H]. rewrite (digit_neq c "(" Hc eq_refl). now apply IH.
Qed.

(** X19.  A record with no band, venue or date whose title reads
    band @ venue on M.D.YY : the detector suggests the band, the venue and
    the date with the century of [strptime]'s %y, in this order. *)
Theorem whole_title (item : Item) (B V m d : string) (y1 y2 : ascii) :
  let yy := String y1 (String y2 "") in
  let title := B ++ " @ " ++ V ++ " on " ++ m ++ "." ++ d ++ "." ++ yy in
  strip B = B -> 2 < String.length B -> in_list (lower B) band_stoplist = false ->
  lacks "@" B = true -> lacks "(" B = true -> no_digit B = true ->
  plain V = true -> 2 < String.length V -> lacks "(" V = true -> no_digit V = true ->
  digits 1 2 m -> digits 1 2 d -> is_digit y1 = true -> is_digit y2 = true ->
  valid_date (two_digit_year (int yy)) (int m) (int d) = true ->
  item_title item = Some title ->
  truthy (item_band item) = false -> truthy (item_venue item) = false ->
  truthy (or_else (item_date item) (item_publicdate item)) = false ->
  extract_band_from_title title = Some B
  /\ extract_venue_from_title title = Some V
  /\ analyze_item item
     = Some (mkIssue (get_or (item_identifier item) "") title
               (mkCurrent (item_band item) (item_venue item)
                  (or_else (item_date item) (item_publicdate item)))
               [missing_band; missing_venue; missing_date]
               [("band", B); ("venue", V);
                ("date", century yy ++ yy ++ "-" ++ zfill 2 m ++ "-" ++ zfill 2 d)]).
Proof.
  intros yy title HsB HlB HstopB HatB HpB HdB HV HlV HpV HdV Hm Hd H1 H2 Hval
         Ht Hband Hvenue Hdate.
  assert (Hb : extract_band_from_title title = Some B).
  { unfold title.
    replace (B ++ " @ " ++ V ++ " on " ++ m ++ "." ++ d ++ "." ++ yy)
      with ((B ++ " ") ++ "@" ++ (" " ++ V ++ " on " ++ m ++ "." ++ d ++ "." ++ yy))
      by (now rewrite append_assoc).
    rewrite <- HsB at 2. rewrite <- (strip_app_space B " " eq_refl).
    rewrite extract_band_eq_loop. apply band_loop_at.
    - now rewrite lacks_app, HatB.
    - now rewrite strip_app_space, HsB.
    - now rewrite strip_app_space, HsB. }
  assert (Hv : extract_venue_from_title title = Some V).
  { unfold title.
    replace (B ++ " @ " ++ V ++ " on " ++ m ++ "." ++ d ++ "." ++ yy)
      with ((B ++ " ") ++ "@" ++ String " " V ++ " on " ++ (m ++ "." ++ d ++ "." ++ yy))
      by (now rewrite append_assoc).
    rewrite extract_venue_eq_loop.
    apply venue_loop_on; try assumption; try reflexivity.
    - now rewrite lacks_app, HatB.
    - now rewrite lacks_app, HpB.
    - apply stops_at_on.
    - change (" on " ++ m ++ "." ++ d ++ "." ++ yy)
        with (String " " (String "o" (String "n" (String " " (m ++ "." ++ d ++ "." ++ yy))))).
      cbn [lacks]. change (Ascii.eqb " " "(") with false. change (Ascii.eqb "o" "(") with false.
      change (Ascii.eqb "n" "(") with false. cbn [negb andb].
      destruct Hm as [Hm _], Hd as [Hd _].
      assert (Hy : all_digits yy = true) by (unfold yy; cbn; now rewrite H1, H2).
      rewrite !lacks_app, (digits_lack_paren m Hm), (digits_lack_paren d Hd),
        (digits_lack_paren yy Hy).
      reflexivity. }
  assert (He : extract_date_from_title title
               = Some (century yy ++ yy ++ "-" ++ zfill 2 m ++ "-" ++ zfill 2 d)).
  { unfold title.
    replace (B ++ " @ " ++ V ++ " on " ++ m ++ "." ++ d ++ "." ++ yy)
      with ((B ++ " @ " ++ V ++ " on ") ++ m ++ String "." (d ++ String "." yy))
      by (rewrite !append_assoc; reflexivity).
    etransitivity;
      [apply (extract_two_digit "." (or_intror eq_refl) _ m d y1 y2); try assumption|].
    - rewrite no_digit_app, HdB. cbn [andb append no_digit is_digit].
      rewrite no_digit_app, HdV. reflexivity.
    - cbv zeta. fold yy. rewrite Hval. unfold format_date. cbn [year month day].
      unfold yy at 1. rewrite (pad_year y1 y2 H1 H2), !pad_two by assumption.
      fold yy. f_equal. rewrite append_assoc. reflexivity. }
  split; [exact Hb|]. split; [exact Hv|].
  unfold analyze_item, check_date. rewrite Ht, Hband, Hvenue, Hdate.
  cbn [negb get_or]. rewrite Hb, Hv, He.
  rewrite !truthy_some; try discriminate; try (intros ->; cbn in *; lia).
  - reflexivity.
  - unfold century. destruct (int yy <=? 68); discriminate.
Qed.

Lemma whole_title_witness :
  analyze_item (mkItem (Some "01.12.12_Thou") (Some "Thou @ The Che Cafe on 01.12.12")
                  None None None None)
  = Some (mkIssue "01.12.12_Thou" "Thou @ The Che Cafe on 01.12.12"
            (mkCurrent None None None)
            [missing_band; missing_venue; missing_date]
            [("band", "Thou"); ("venue", "The Che Cafe"); ("date", "2012-01-12")]).
Proof.
  assert (H1 : digits 1 2 "01") by (split; [reflexivity | simpl; lia]).
  assert (H2 : digits 1 2 "12") by (split; [reflexivity | simpl; lia]).
  assert (L1 : 2 < String.length "Thou") by (simpl; lia).
  assert (L2 : 2 < String.length "The Che Cafe") by (simpl; lia).
  exact (proj2 (proj2
    (whole_title
       (mkItem (Some "01.12.12_Thou") (Some "Thou @ The Che Cafe on 01.12.12")
          None None None None)
       "Thou" "The Che Cafe" "01" "12" "1" "2"
       eq_refl L1 eq_refl eq_refl eq_refl eq_refl
       eq_refl L2 eq_refl eq_refl
       H1 H2 eq_refl eq_refl eq_refl eq_refl eq_refl eq_refl eq_refl))).
Defined.

End TitleProps.

(** ** Running the applier twice *)

Module RerunProps.
Import Apply ParseProps.

Lemma filter_updates_nil (metadata u : dict) :
  (forall k v, In (k, v) u -> dict_get k metadata = Some v) ->
  filter_updates metadata u = [].
Proof.
  induction u as [|[k v] u IH]; intro H; cbn [filter_updates]; [reflexivity|].
  rewrite (H k v (or_introl eq_refl)), String.eqb_refl.
  apply IH. intros k' v' Hin. apply H. now right.
Qed.

Lemma dict_get_absent (k : string) (u : dict) :
  ~ In k (map fst u) -> dict_get k u = None.
Proof.
  induction u as [|[k' v'] u IH]; [reflexivity|]. cbn [map fst In dict_get]. intro H.
  destruct (String.eqb_spec k' k); [tauto | apply IH; tauto].
Qed.

Lemma filter_updates_keys (metadata u : dict) (k : string) :
  In k (map fst (filter_updates metadata u)) -> In k (map fst u).
Proof.
  induction u as [|[k' v'] u IH]; cbn [filter_updates]; [tauto|].
  destruct (dict_get k' metadata) as [cur|]; [destruct (String.eqb cur v')|];
    cbn [map fst In]; tauto.
Qed.

(** What the filter keeps of an update, when no field is named twice. *)
Lemma filter_updates_get (metadata u : dict) (k v : string) :
  NoDup (map fst u) -> In (k, v) u ->
  dict_get k (filter_updates metadata u)
  = if match dict_get k metadata with Some cur => String.eqb cur v | None => false end
    then None else Some v.
Proof.
  induction u as [|[k' v'] u IH]; intros Hnd Hin; [destruct Hin|].
  cbn [map fst] in Hnd. inversion Hnd as [|? ? Hk' Hnd']; subst.
  destruct Hin as [[= -> ->] | Hin].
  - cbn [filter_updates].
    destruct (dict_get k metadata) as [cur|]; [destruct (String.eqb cur v)|];
      cbn [dict_get]; rewrite ?String.eqb_refl; try reflexivity.
    apply dict_get_absent. intro H. apply Hk'. now apply filter_updates_keys in H.
  - assert (Hne : k' <> k).
    { intros ->. apply Hk'. apply in_map_iff. now exists (k, v). }
    cbn [filter_updates].
    destruct (dict_get k' metadata) as [cur|]; [destruct (String.eqb cur v')|];
      cbn [dict_get]; rewrite ?(proj2 (String.eqb_neq k' k) Hne); now apply IH.
Qed.

Section Rerun.

Variable World : Type.
Variable get_item : World -> string -> World * outcome dict.
Variable modify_metadata : World -> string -> dict -> World * outcome bool.

(** X20.  An update whose fields all have their value already is answered with
    success without a write; and once the archive has stored what a run
    sent, running the same update again sends nothing. *)
Theorem rerun_sends_nothing (w w1 w2 w3 : World) (identifier : string)
  (metadata metadata' updates : dict)
  (other : World -> string -> dict -> World * outcome bool) :
  NoDup (map fst updates) ->
  get_item w identifier = (w1, Returned metadata) ->
  (filter_updates metadata updates <> [] ->
   modify_metadata w1 identifier (filter_updates metadata updates) = (w2, Returned true)) ->
  get_item (match filter_updates metadata updates with [] => w1 | _ => w2 end) identifier
  = (w3, Returned metadata') ->
  (forall k, dict_get k metadata'
             = match dict_get k (filter_updates metadata updates) with
               | Some v => Some v
               | None => dict_get k metadata
               end) ->
  let first := update_archive_metadata_ia World get_item modify_metadata w identifier updates in
  snd first = Returned true
  /\ update_archive_metadata_ia World get_item other (fst first) identifier updates
     = (w3, Returned true).
Proof.
  intros Hnd Hget Hmod Hget' Hstored first.
  assert (Hfirst : first = (match filter_updates metadata updates with [] => w1 | _ => w2 end,
                            Returned true)).
  { unfold first, update_archive_metadata_ia. rewrite Hget.
    destruct (filter_updates metadata updates) as [|f fs] eqn:Hf; [reflexivity|].
    rewrite Hmod by discriminate. reflexivity. }
  rewrite Hfirst. cbn [fst snd]. split; [reflexivity|].
  unfold update_archive_metadata_ia. rewrite Hget'.
  rewrite filter_updates_nil; [reflexivity|].
  intros k v Hin. rewrite Hstored, (filter_updates_get metadata updates k v Hnd Hin).
  destruct (dict_get k metadata) as [cur|]; [|reflexivity].
  destruct (String.eqb_spec cur v); [congruence | reflexivity].
Qed.

End Rerun.

(** An archive that holds one item and stores what it is sent. *)
Definition store_get (w : dict) (identifier : string) : dict * outcome dict :=
  (w, Returned w).

Definition store_modify (w : dict) (identifier : string) (updates : dict)
  : dict * outcome bool :=
  (fold_left (fun d fv => dict_set (fst fv) (snd fv) d) updates w, Returned true).

Definition store_refuse (w : dict) (identifier : string) (updates : dict)
  : dict * outcome bool := (w, Raised).

Lemma rerun_sends_nothing_witness :
  update_archive_metadata_ia dict store_get store_refuse
    [("date", "2012-01-12"); ("band", "Thou")] "01.12.12_Thou"
    [("band", "Thou"); ("date", "2012-01-12")]
  = ([("date", "2012-01-12"); ("band", "Thou")], Returned true).
Proof.
  assert (Hnd : NoDup (map fst [("band", "Thou"); ("date", "2012-01-12")])).
  { repeat constructor; cbn [In]; intuition discriminate. }
  refine (proj2 (rerun_sends_nothing dict store_get store_modify
            [("date", "2012-01-20")] [("date", "2012-01-20")]
            [("date", "2012-01-12"); ("band", "Thou")]
            [("date", "2012-01-12"); ("band", "Thou")]
            "01.12.12_Thou" [("date", "2012-01-20")]
            [("date", "2012-01-12"); ("band", "Thou")]
            [("band", "Thou"); ("date", "2012-01-12")]
            store_refuse Hnd eq_refl (fun _ => eq_refl) eq_refl _)).
  intro k.
  replace (filter_updates [("date", "2012-01-20")] [("band", "Thou"); ("date", "2012-01-12")])
    with [("band", "Thou"); ("date", "2012-01-12")] by (vm_compute; reflexivity).
  cbn [dict_get].
  destruct (String.eqb_spec "date" k) as [<- | _]; [reflexivity|].
  destruct (String.eqb "band" k); reflexivity.
Defined.

End RerunProps.

(** ** The summary and the sample listing *)

Module ReportProps.
Import DateProps ExtractProps ParseProps SortProps RangeProps PipelineProps.
Import Report Apply ApplyProps.

(** The number of times [t] is listed in [l]. *)
Definition occurrences (t : Issue) (l : list Issue) : nat :=
  List.length (filter (Issue_eqb t) l).

Lemma Issue_eqb_eq (a b : Issue) : Issue_eqb a b = true <-> a = b.
Proof. destruct a, b; simpl; split; congruence. Qed.

Lemma Issue_eqb_sym (a b : Issue) : Issue_eqb a b = Issue_eqb b a.
Proof. destruct a, b; reflexivity. Qed.

Lemma counts_get_set (k k' : Issue) (v default : nat) (d : counts) :
  counts_get k' default (counts_set k v d)
  = if Issue_eqb k k' then v else counts_get k' default d.
Proof.
  induction d as [|[k0 v0] d IH]; simpl.
  - reflexivity.
  - destruct (Issue_eqb k0 k) eqn:E0; simpl.
    + apply Issue_eqb_eq in E0 as ->. destruct (Issue_eqb k k'); reflexivity.
    + destruct (Issue_eqb k0 k') eqn:E1; [|exact IH].
      apply Issue_eqb_eq in E1 as ->. now rewrite Issue_eqb_sym, E0.
Qed.

Lemma counts_set_keys (k : Issue) (v : nat) (d : counts) :
  map fst (counts_set k v d)
  = if existsb (Issue_eqb k) (map fst d) then map fst d else (map fst d ++ [k])%list.
Proof.
  induction d as [|[k0 v0] d IH]; simpl; [reflexivity|].
  rewrite (Issue_eqb_sym k k0).
  destruct (Issue_eqb k0 k) eqn:E0; simpl.
  - now apply Issue_eqb_eq in E0 as ->.
  - rewrite IH. destruct (existsb (Issue_eqb k) (map fst d)); reflexivity.
Qed.

Lemma existsb_In (k : Issue) (l : list Issue) : existsb (Issue_eqb k) l = true <-> In k l.
Proof.
  rewrite existsb_exists. split.
  - intros (x & Hx & He). apply Issue_eqb_eq in He. now subst.
  - intro H. exists k. split; [exact H | now apply Issue_eqb_eq].
Qed.

(** What one pass over a list of issue types does to the dictionary. *)
Lemma count_issues (l : list Issue) (acc : counts) :
  let acc' := fold_left count_issue l acc in
  (forall t, counts_get t 0 acc' = counts_get t 0 acc + occurrences t l)
  /\ (NoDup (map fst acc) -> NoDup (map fst acc'))
  /\ (forall t, In t (map fst acc') <-> In t (map fst acc) \/ In t l).
Proof.
  revert acc. induction l as [|x l IH]; intro acc; cbn [fold_left].
  - unfold occurrences. simpl. repeat split; try tauto; intros; lia.
  - destruct (IH (count_issue acc x)) as (H1 & H2 & H3). cbv zeta.
    assert (Hk := counts_set_keys x (counts_get x 0 acc + 1) acc).
    fold (count_issue acc x) in Hk.
    split; [|split].
    + intro t. rewrite H1. unfold count_issue at 1. rewrite counts_get_set.
      unfold occurrences. simpl. rewrite (Issue_eqb_sym t x).
      destruct (Issue_eqb x t) eqn:E; simpl; [|lia].
      apply Issue_eqb_eq in E as ->. lia.
    + intro Hnd. apply H2. rewrite Hk.
      destruct (existsb (Issue_eqb x) (map fst acc)) eqn:E; [exact Hnd|].
      apply NoDup_app; [exact Hnd | repeat constructor; intros [] | ].
      intros a Ha [<- | []]. apply existsb_In in Ha. congruence.
    + intro t. rewrite H3, Hk. cbn [In].
      destruct (existsb (Issue_eqb x) (map fst acc)) eqn:E.
      * apply existsb_In in E. split; [tauto|]. intros [H | [<- | H]]; tauto.
      * rewrite in_app_iff. cbn [In]. tauto.
Qed.

Lemma count_report (report : list IssueRecord) (acc : counts) :
  let acc' :=
    fold_left (fun a issue_item => fold_left count_issue (issues issue_item) a)
              report acc in
  (forall t, counts_get t 0 acc' = counts_get t 0 acc + occurrences t (flat_map issues report))
  /\ (NoDup (map fst acc) -> NoDup (map fst acc'))
  /\ (forall t, In t (map fst acc') <-> In t (map fst acc) \/ In t (flat_map issues report)).
Proof.
  revert acc. induction report as [|x report IH]; intro acc; cbn [fold_left flat_map].
  - unfold occurrences. simpl. repeat split; try tauto; intros; lia.
  - destruct (IH (fold_left count_issue (issues x) acc)) as (H1 & H2 & H3).
    destruct (count_issues (issues x) acc) as (G1 & G2 & G3). cbv zeta in *.
    split; [|split].
    + intro t. rewrite H1, G1. unfold occurrences.
      rewrite filter_app, length_app. lia.
    + intro Hnd. now apply H2, G2.
    + intro t. rewrite H3, G3, in_app_iff. tauto.
Qed.

Lemma occurrences_nodup (t : Issue) (l : list Issue) :
  NoDup l -> occurrences t l = if mem t l then 1 else 0.
Proof.
  unfold occurrences, mem. induction 1 as [|x l Hx Hnd IH]; simpl; [reflexivity|].
  destruct (Issue_eqb t x) eqn:E; simpl.
  - apply Issue_eqb_eq in E as ->.
    destruct (existsb (Issue_eqb x) l) eqn:E2; [apply existsb_In in E2; contradiction|].
    now rewrite IH.
  - exact IH.
Qed.

(** X21.  The summary counts, for every issue type, how often it is listed in the
    report; each type has one line, and only the types that occur have one.
    On the detector's own report a type is listed at most once per record,
    so the count is the number of records that list it. *)
Theorem summary_counts (report : list IssueRecord) (items : list Item) (t : Issue) :
  counts_get t 0 (issue_counts report) = occurrences t (flat_map issues report)
  /\ NoDup (map fst (issue_counts report))
  /\ (In t (map fst (issue_counts report)) <-> exists r, In r report /\ In t (issues r))
  /\ counts_get t 0 (issue_counts (analyze_items items))
     = List.length (filter (fun r => mem t (issues r)) (analyze_items items)).
Proof.
  assert (Hgen : forall rep,
            counts_get t 0 (issue_counts rep) = occurrences t (flat_map issues rep)).
  { intro rep. destruct (count_report rep []) as (H1 & _). exact (H1 t). }
  destruct (count_report report []) as (_ & H2 & H3). cbv zeta in *.
  split; [apply Hgen|]. split; [apply H2; constructor|]. split.
  - unfold issue_counts. rewrite H3, in_flat_map. cbn [map In]. tauto.
  - rewrite Hgen.
    assert (Hall : Forall (fun r => NoDup (issues r)) (analyze_items items)).
    { apply Forall_forall. intros r Hr.
      apply analyze_items_In in Hr as (item & _ & Hr).
      apply analyze_item_record in Hr as (_ & Hmap & Hnd & _).
      rewrite Hmap in Hnd. exact (NoDup_map_inv _ _ Hnd). }
    induction Hall as [|r rep Hr _ IH]; [reflexivity|].
    cbn [flat_map filter]. unfold occurrences in *.
    rewrite filter_app, length_app, IH.
    fold (occurrences t (issues r)). rewrite (occurrences_nodup t _ Hr).
    destruct (mem t (issues r)); reflexivity.
Qed.

(** *** The sample listing *)

Definition headers (out : list line) : list Category :=
  flat_map (fun l => match l with Header c => [c] | _ => [] end) out.

Definition entries (out : list line) : list (nat * string) :=
  flat_map (fun l => match l with Entry n i _ _ => [(n, i)] | _ => [] end) out.

(** The tier of the review order that a category stands for. *)
Definition rank (c : Category) : nat :=
  match c with
  | DateFormatFixesOnly => 1
  | MissingBandVenue => 2
  | MissingBandDate => 3
  | MissingVenueDate => 4
  | MissingBandOnly => 5
  | MissingVenueOnly => 6
  | OtherCombinations => 7
  end.

Lemma rank_category (l : list Issue) : rank (category_of l) = tier l.
Proof.
  unfold category_of, tier.
  repeat match goal with
    | |- context [if ?b then _ else _] => destruct b
    end; reflexivity.
Qed.

Lemma rank_inj (a b : Category) : rank a = rank b -> a = b.
Proof. destruct a, b; simpl; congruence. Qed.

Lemma Category_eqb_rank (a b : Category) : Category_eqb a b = (rank a =? rank b).
Proof. destruct a, b; reflexivity. Qed.

Lemma headers_app (a b : list line) : headers (a ++ b) = (headers a ++ headers b)%list.
Proof. unfold headers. apply flat_map_app. Qed.

Lemma entries_app (a b : list line) : entries (a ++ b) = (entries a ++ entries b)%list.
Proof. unfold entries. apply flat_map_app. Qed.

Lemma suggestion_lines_plain (issue : IssueRecord) :
  headers (suggestion_lines issue) = [] /\ entries (suggestion_lines issue) = [].
Proof.
  unfold suggestion_lines. destruct (suggestions issue) as [|fv l]; [now split|].
  generalize (fv :: l). intro l'. cbn [headers entries flat_map app].
  induction l' as [|x l' IH]; [now split|]. exact IH.
Qed.

Lemma le_tier (a b : IssueRecord) : le a b -> tier (issues a) <= tier (issues b).
Proof.
  unfold le, key_le, get_sort_key. cbn [fst snd]. intro H.
  apply orb_true_iff in H as [H | H].
  - apply Nat.ltb_lt in H. lia.
  - apply andb_true_iff in H as [H _]. apply Nat.eqb_eq in H. lia.
Qed.

(** On a list in review order the headers come out in strictly increasing
    rank, all above the rank of the category printed last. *)
Lemma sample_headers (limit : nat) (report : list IssueRecord) :
  StronglySorted le report ->
  forall (cur : option Category) (shown bound : nat),
  match cur with Some c => rank c = bound | None => bound = 0 end ->
  Forall (fun r => bound <= tier (issues r)) report ->
  StronglySorted lt (map rank (headers (sample_loop limit cur shown report)))
  /\ Forall (fun h => bound < rank h) (headers (sample_loop limit cur shown report)).
Proof.
  induction 1 as [|x report Hs IH Hx]; intros cur shown bound Hcur Hb; cbn [sample_loop].
  - split; constructor.
  - destruct (limit <=? shown); [split; constructor|].
    inversion Hb as [|? ? Hbx Hb']; subst.
    assert (Hrest : Forall (fun r => tier (issues x) <= tier (issues r)) report).
    { eapply Forall_impl; [|exact Hx]. intros r Hr. now apply le_tier. }
    destruct (IH (Some (category_of (issues x))) (S shown) (tier (issues x))
                 (rank_category _) Hrest) as (IH1 & IH2).
    destruct (suggestion_lines_plain x) as (Hh & _).
    rewrite headers_app. cbn [headers flat_map app].
    fold (headers (suggestion_lines x ++ sample_loop limit (Some (category_of (issues x)))
                     (S shown) report)).
    rewrite headers_app, Hh. cbn [app].
    set (tl := headers (sample_loop limit (Some (category_of (issues x))) (S shown) report))
      in *.
    assert (Hnew : forall changed : bool,
              (changed = false -> bound = tier (issues x)) ->
              (changed = true -> bound < tier (issues x)) ->
              StronglySorted lt
                (map rank (headers (if changed then [Header (category_of (issues x))] else [])
                           ++ tl))
              /\ Forall (fun h => bound < rank h)
                   (headers (if changed then [Header (category_of (issues x))] else [])
                    ++ tl)%list).
    { intros [|] Hf Ht; cbn [headers flat_map app map].
      - specialize (Ht eq_refl). rewrite rank_category. split.
        + constructor; [exact IH1|]. apply Forall_map. exact IH2.
        + constructor; [rewrite rank_category; exact Ht|].
          eapply Forall_impl; [|exact IH2]. cbn. intros; lia.
      - specialize (Hf eq_refl). subst bound. split; assumption. }
    apply Hnew.
    + destruct cur as [c|]; [|discriminate].
      rewrite Category_eqb_rank, rank_category, Hcur. intro H.
      apply negb_false_iff, Nat.eqb_eq in H. exact H.
    + destruct cur as [c|].
      * rewrite Category_eqb_rank, rank_category, Hcur. intro H.
        apply negb_true_iff, Nat.eqb_neq in H. lia.
      * intros _. subst bound. rewrite <- rank_category.
        destruct (category_of (issues x)); simpl; lia.
Qed.

Lemma sample_entries (limit : nat) (report : list IssueRecord) (cur : option Category)
  (shown : nat) :
  entries (sample_loop limit cur shown report)
  = combine (seq (S shown) (limit - shown)) (map identifier report).
Proof.
  revert cur shown. induction report as [|x report IH]; intros cur shown; cbn [sample_loop].
  - cbn. now rewrite combine_nil.
  - destruct (Nat.leb_spec limit shown) as [Hle | Hgt].
    + replace (limit - shown) with 0 by lia. reflexivity.
    + destruct (suggestion_lines_plain x) as (_ & He).
      rewrite entries_app.
      match goal with
      | |- context [entries (if ?b then ?h else ?e)] =>
          replace (entries (if b then h else e)) with (@nil (nat * string))
            by (destruct b; reflexivity)
      end.
      cbn [app entries flat_map].
      fold (entries (suggestion_lines x ++ sample_loop limit (Some (category_of (issues x)))
                       (S shown) report)).
      rewrite entries_app, He, IH. cbn [app map].
      replace (limit - shown) with (S (limit - S shown)) by lia.
      reflexivity.
Qed.

Lemma combine_seq_snd {A} (a n : nat) (l : list A) :
  map snd (combine (seq a n) l) = firstn n l.
Proof.
  revert a l. induction n as [|n IH]; intros a [|x l]; cbn; try reflexivity.
  now rewrite IH.
Qed.

Lemma combine_seq_fst {A} (a n : nat) (l : list A) :
  map fst (combine (seq a n) l) = seq a (Nat.min n (List.length l)).
Proof.
  revert a l. induction n as [|n IH]; intros a [|x l]; cbn; try reflexivity.
  now rewrite IH.
Qed.

Lemma sorted_lt_nodup (l : list nat) : StronglySorted lt l -> NoDup l.
Proof.
  induction 1 as [|x l _ IH Hx]; constructor; [|exact IH].
  intro Hin. rewrite Forall_forall in Hx. specialize (Hx x Hin). lia.
Qed.

(** X22.  The sample listing of a report in review order prints every category
    header at most once, in the order of the tiers; it numbers the records
    from 1 and lists the first [limit] of them in order; the category
    printed for a record is the one of its tier. *)
Theorem sample_listing (limit : nat) (report : list IssueRecord) :
  let sorted := sort_issues_by_type report in
  let out := print_sample_issues limit sorted in
  NoDup (headers out)
  /\ StronglySorted lt (map rank (headers out))
  /\ map snd (entries out) = map identifier (firstn limit sorted)
  /\ map fst (entries out) = seq 1 (Nat.min limit (List.length sorted))
  /\ (forall l, rank (category_of l) = tier l).
Proof.
  intros sorted out.
  assert (Hh : headers out = headers (sample_loop limit None 0 sorted)).
  { unfold out, print_sample_issues. rewrite headers_app.
    destruct (limit <? List.length sorted); cbn; now rewrite app_nil_r. }
  assert (He : entries out = combine (seq 1 limit) (map identifier sorted)).
  { unfold out, print_sample_issues. rewrite entries_app, sample_entries.
    rewrite Nat.sub_0_r. destruct (limit <? List.length sorted); cbn; now rewrite app_nil_r. }
  destruct (sample_headers limit sorted (sort_sorted report) None 0 0 eq_refl) as (H1 & _).
  { apply Forall_forall. intros; lia. }
  rewrite <- Hh in H1.
  split; [|split; [exact H1|split; [|split; [|exact rank_category]]]].
  - apply sorted_lt_nodup in H1. exact (NoDup_map_inv _ _ H1).
  - rewrite He, combine_seq_snd. apply firstn_map.
  - rewrite He, combine_seq_fst. now rewrite length_map.
Qed.

(** *** The update request *)

Lemma payload_fold (u p : dict) (k : string) :
  NoDup (map fst u) ->
  dict_get ("-patch-" ++ k)
    (fold_left (fun payload fv => dict_set ("-patch-" ++ fst fv) (snd fv) payload) u p)
  = match dict_get k u with
    | Some v => Some v
    | None => dict_get ("-patch-" ++ k) p
    end.
Proof.
  revert p. induction u as [|[f v] u IH]; intros p Hnd; cbn [fold_left dict_get fst snd].
  - reflexivity.
  - inversion Hnd as [|? ? Hf Hnd']; subst. rewrite (IH _ Hnd').
    destruct (String.eqb_spec f k) as [-> | Hne].
    + assert (Hnone : dict_get k u = None).
      { clear -Hf. induction u as [|[f' v'] u IH]; [reflexivity|]. cbn in *.
        destruct (String.eqb_spec f' k); [tauto | apply IH; tauto]. }
      rewrite Hnone. apply dict_get_set.
    + destruct (dict_get k u); [reflexivity|].
      apply dict_get_set_other. intro He. apply Hne.
      symmetry. exact (append_inv_head _ _ _ He).
Qed.

Lemma payload_other (u p : dict) (k : string) :
  String.prefix "-p" k = false ->
  dict_get k (fold_left (fun payload fv => dict_set ("-patch-" ++ fst fv) (snd fv) payload) u p)
  = dict_get k p.
Proof.
  intro Hk. revert p. induction u as [|[f v] u IH]; intro p; cbn [fold_left fst snd].
  - reflexivity.
  - rewrite IH. apply dict_get_set_other. intros ->. discriminate.
Qed.

(** X23.  The form sent to the archive carries every update under the name
    -patch-<field> with its value, and the two target fields keep the value
    "metadata" whatever the fields are called. *)
Theorem payload_fields (metadata_updates : dict) (field : string) :
  NoDup (map fst metadata_updates) ->
  dict_get ("-patch-" ++ field) (payload_of metadata_updates)
  = dict_get field metadata_updates
  /\ dict_get "target" (payload_of metadata_updates) = Some "metadata"
  /\ dict_get "-target" (payload_of metadata_updates) = Some "metadata".
Proof.
  intro Hnd. unfold payload_of. split; [|split].
  - rewrite (payload_fold _ _ _ Hnd). now destruct (dict_get field metadata_updates).
  - now rewrite payload_other.
  - now rewrite payload_other.
Qed.

Lemma payload_fields_witness :
  dict_get "-patch-date" (payload_of [("band", "Thou"); ("date", "2012-01-12")])
  = Some "2012-01-12".
Proof.
  assert (Hnd : NoDup (map fst [("band", "Thou"); ("date", "2012-01-12")])).
  { repeat constructor; cbn [In]; intuition discriminate. }
  exact (proj1 (payload_fields [("band", "Thou"); ("date", "2012-01-12")] "date" Hnd)).
Defined.

(** *** Failures of the two fixers *)

Lemma no_errored (World : Type)
  (update : World -> string -> dict -> World * outcome bool)
  (w : World) (report : list IssueRecord) :
  (forall w' id u, snd (update w' id u) <> Raised) ->
  forall id, ~ In (Errored id) (log World (apply_all_fixes World update w report)).
Proof.
  intros Hu id.
  destruct (apply_loop_attempts World update report (mkRun World w 0 0 []))
    as (_ & _ & H3).
  fold (apply_all_fixes World update w report) in H3. simpl in H3. rewrite H3. clear H3.
  revert w. induction report as [|x report IH]; intro w; simpl; [tauto|].
  destruct (build_updates (suggestions x)) as [|f fs].
  - cbn. intros [H | [H | H]]; try discriminate. exact (IH w H).
  - specialize (Hu w (identifier x) (f :: fs)).
    destruct (update w (identifier x) (f :: fs)) as [w' [[|]|]]; cbn in Hu |- *;
      try congruence;
      (intros [H | [H | H]]; try discriminate; exact (IH w' H)).
Qed.

Lemma http_never_raises (World : Type)
  (post : World -> string -> dict -> World * outcome (nat * outcome (option bool)))
  (w : World) (id : string) (u : dict) :
  snd (update_archive_metadata World post w id u) <> Raised.
Proof.
  unfold update_archive_metadata.
  destruct (post w _ _) as [w' [[status [[b|]|]]|]]; cbn;
    try destruct (status =? 200); cbn; discriminate.
Qed.

(** X24.  Neither fixer ever takes the except branch of its loop: the update
    functions turn every exception into a returned failure, so each failed
    item is reported as failed, and nothing is done without a y or yes. *)
Theorem fixers_report_failures (World : Type)
  (get_item : World -> string -> World * outcome dict)
  (modify_metadata : World -> string -> dict -> World * outcome bool)
  (post : World -> string -> dict -> World * outcome (nat * outcome (option bool)))
  (w : World) (report : list IssueRecord) (answer id : string) :
  ~ In (Errored id)
       (log World (apply_all_fixes World
                     (update_archive_metadata_ia World get_item modify_metadata) w report))
  /\ match fix_metadata_issues World post w report answer with
     | Some r =>
         ~ In (Errored id) (log World r)
         /\ report <> []
         /\ (lower (strip answer) = "y" \/ lower (strip answer) = "yes")
     | None =>
         report = [] \/ (lower (strip answer) <> "y" /\ lower (strip answer) <> "yes")
     end.
Proof.
  split.
  - apply no_errored. intros. apply update_never_raises.
  - unfold fix_metadata_issues. destruct report as [|x report]; [now left|].
    unfold in_list. cbn [existsb].
    destruct (String.eqb_spec (lower (strip answer)) "y") as [Hy | Hy]; cbn [orb negb].
    + split; [|split; [discriminate | now left]].
      apply (no_errored World _ w (x :: report)). intros. apply http_never_raises.
    + destruct (String.eqb_spec (lower (strip answer)) "yes") as [Hyes | Hyes]; cbn [orb negb].
      * split; [|split; [discriminate | now right]].
        apply (no_errored World _ w (x :: report)). intros. apply http_never_raises.
      * right. now split.
Qed.

End ReportProps.

(** ** The flyer cleaner *)

Module FlyerProps.
Import Flyers.

Lemma startswith_split (s a : string) :
  startswith s a = true <-> exists r, s = a ++ r.
Proof.
  revert s. induction a as [|c a IH]; intro s; cbn [startswith append].
  - split; [intros _; now exists s | reflexivity].
  - destruct s as [|d s].
    + split; [discriminate | intros (r & [=])].
    + destruct (Ascii.eqb_spec c d) as [<- | Hne]; cbn [andb].
      * rewrite IH. split; intros (r & H); exists r; congruence.
      * split; [discriminate | intros (r & [= ? _]); congruence].
Qed.

(** [sub in s] holds exactly when [s] is some text, [sub], some text. *)
Lemma contains_split (sub s : string) :
  contains sub s = true <-> exists pre post, s = pre ++ sub ++ post.
Proof.
  induction s as [|c s IH]; cbn [contains].
  - destruct (startswith "" sub) eqn:E.
    + split; [intros _|reflexivity]. apply startswith_split in E as (r & E).
      exists "", r. exact E.
    + split; [discriminate|]. intros (pre & post & H).
      destruct pre; [|discriminate]. cbn in H.
      assert (startswith "" sub = true) by (apply startswith_split; eauto). congruence.
  - destruct (startswith (String c s) sub) eqn:E.
    + split; [intros _|reflexivity]. apply startswith_split in E as (r & E).
      exists "", r. exact E.
    + rewrite IH. split.
      * intros (pre & post & ->). exists (String c pre), post. reflexivity.
      * intros (pre & post & H). destruct pre as [|d pre].
        -- cbn in H. assert (startswith (String c s) sub = true)
             by (apply startswith_split; eauto). congruence.
        -- injection H as _ ->. eauto.
Qed.

(** X25.  A file is selected for deletion exactly when its name contains the
    timestamp marker T00:00:00Z-flyer_itemimage. ; the first test of the
    condition adds nothing. *)
Theorem flyer_selected (filename : string) :
  is_bad filename = contains "T00:00:00Z-flyer_itemimage." filename
  /\ (is_bad filename = true <->
      exists pre post, filename = pre ++ "T00:00:00Z-flyer_itemimage." ++ post).
Proof.
  assert (H : contains "T00:00:00Z-flyer_itemimage." filename = true ->
              contains "-flyer_itemimage." filename = true).
  { intro Hc. apply contains_split in Hc as (pre & post & ->).
    apply contains_split. exists (pre ++ "T00:00:00Z"), post.
    rewrite append_assoc. reflexivity. }
  assert (He : is_bad filename = contains "T00:00:00Z-flyer_itemimage." filename).
  { unfold is_bad.
    destruct (contains "T00:00:00Z-flyer_itemimage." filename) eqn:E.
    - now rewrite H.
    - apply andb_false_r. }
  split; [exact He|]. rewrite He. apply contains_split.
Qed.

(** *** The two counters and the commands run *)

Definition delete_failures (l : list event) : nat :=
  List.length (filter (fun e => match e with DeleteFailed _ => true | _ => false end) l).

Definition listing_failures (l : list event) : nat :=
  List.length (filter (fun e => match e with
                                | ListFailed _ | ProcessError _ => true
                                | _ => false
                                end) l).

Definition processed (l : list event) : list string :=
  flat_map (fun e => match e with Processing i => [i] | _ => [] end) l.

Definition commands (l : list event) : list (string * string) :=
  flat_map (fun e => match e with Command i f => [(i, f)] | _ => [] end) l.

Definition reported (l : list event) : list string :=
  flat_map (fun e => match e with Deleted f | DeleteFailed f => [f] | _ => [] end) l.

Lemma bad_flyer_files_bad (files_data : list dict) :
  Forall (fun f => is_bad f = true) (bad_flyer_files files_data).
Proof.
  induction files_data as [|fi l IH]; cbn [bad_flyer_files]; [constructor|].
  destruct (is_bad (get_or (dict_get "name" fi) "")) eqn:E; [constructor|]; assumption.
Qed.

Section Runs.

Variable World : Type.
Variable get_files : World -> string -> World * Apply.outcome (nat * list dict).
Variable ia_delete : World -> string -> string -> World * Apply.outcome nat.

Lemma delete_files_log (st : run_state World) (identifier : string) (files : list string) :
  let r := delete_files World ia_delete st identifier files in
  exists l,
    log World r = (log World st ++ l)%list
    /\ success_count World r = success_count World st
    /\ error_count World r = error_count World st + delete_failures l
    /\ listing_failures l = 0 /\ processed l = []
    /\ commands l = map (pair identifier) files
    /\ reported l = files.
Proof.
  revert st. induction files as [|f files IH]; intro st; cbn [delete_files]; cbv zeta.
  - exists []. rewrite app_nil_r. cbn. repeat split; lia.
  - match goal with
    | |- context [delete_files World ia_delete ?s identifier files] =>
        destruct (IH s) as (l & H1 & H2 & H3 & H4 & H5 & H6 & H7);
        rewrite H1, H2, H3; clear H1 H2 H3
    end.
    unfold delete_failures, listing_failures, processed, commands, reported in *.
    destruct (ia_delete (world World st) identifier f) as [w [rc|]];
      [destruct (rc =? 0)|]; cbn [log success_count error_count];
      [ exists (Command identifier f :: Deleted f :: l)
      | exists (Command identifier f :: DeleteFailed f :: l)
      | exists (Command identifier f :: DeleteFailed f :: l) ];
      rewrite <- !app_assoc; cbn; rewrite ?H5, ?H6, ?H7;
      repeat split; try reflexivity; lia.
Qed.

Lemma process_one_log (st : run_state World) (identifier : string) :
  let r := process_one World get_files ia_delete st identifier in
  exists l,
    log World r = (log World st ++ l)%list
    /\ processed l = [identifier]
    /\ success_count World r + listing_failures l = S (success_count World st)
    /\ error_count World r = error_count World st + listing_failures l + delete_failures l
    /\ Forall (fun c => fst c = identifier /\ is_bad (snd c) = true) (commands l)
    /\ map snd (commands l) = reported l.
Proof.
  unfold process_one. cbv zeta.
  destruct (get_files (world World st) identifier) as [w [[status files_data]|]].
  - destruct (status =? 200).
    + destruct (bad_flyer_files files_data) as [|f files] eqn:Hbad.
      * cbn. exists [Processing identifier; Clean]. rewrite <- app_assoc. cbn.
        repeat split; try reflexivity; try lia. constructor.
      * match goal with
        | |- context [delete_files World ia_delete ?s identifier (f :: files)] =>
            destruct (delete_files_log s identifier (f :: files))
              as (l & H1 & H2 & H3 & H4 & H5 & H6 & H7)
        end.
        cbv zeta in *. cbn [log success_count error_count world] in *.
        rewrite H1, H2, H3.
        exists (Processing identifier :: Found (List.length (f :: files)) :: l).
        rewrite <- !app_assoc.
        unfold delete_failures, listing_failures, processed, commands, reported in *.
        cbn [app flat_map filter List.length]. rewrite ?H4, ?H5, ?H6, ?H7.
        repeat split; try reflexivity; try lia.
        -- rewrite <- Hbad. clear. generalize (bad_flyer_files_bad files_data).
           induction 1; cbn; constructor; [now split | assumption].
        -- now rewrite map_map, map_id.
    + cbn. exists [Processing identifier; ListFailed status]. rewrite <- app_assoc. cbn.
      repeat split; try reflexivity; try lia. constructor.
  - cbn. exists [Processing identifier; ProcessError identifier]. rewrite <- app_assoc. cbn.
    repeat split; try reflexivity; try lia. constructor.
Qed.

Lemma process_loop_log (identifiers : list string) (st : run_state World) :
  let r := process_loop World get_files ia_delete st identifiers in
  exists l,
    log World r = (log World st ++ l)%list
    /\ processed l = identifiers
    /\ success_count World r + listing_failures l
       = success_count World st + List.length identifiers
    /\ error_count World r = error_count World st + listing_failures l + delete_failures l
    /\ Forall (fun c => In (fst c) identifiers /\ is_bad (snd c) = true) (commands l)
    /\ map snd (commands l) = reported l.
Proof.
  revert st. induction identifiers as [|i ids IH]; intro st; cbn [process_loop]; cbv zeta.
  - exists []. rewrite app_nil_r. cbn. repeat split; try lia. constructor.
  - destruct (process_one_log st i) as (l1 & A1 & A2 & A3 & A4 & A5 & A6).
    destruct (IH (process_one World get_files ia_delete st i))
      as (l2 & B1 & B2 & B3 & B4 & B5 & B6).
    cbv zeta in *. exists (l1 ++ l2)%list.
    unfold delete_failures, listing_failures, processed, commands, reported in *.
    rewrite B1, A1, <- app_assoc, !flat_map_app, !filter_app, !length_app, map_app.
    rewrite A2, B2, A6, B6. cbn [List.length].
    split; [reflexivity|]. split; [reflexivity|]. split; [lia|]. split; [lia|].
    split; [|reflexivity].
    apply Forall_app. split.
    + eapply Forall_impl; [|exact A5]. cbn. intros c [-> Hc]. split; [now left | exact Hc].
    + eapply Forall_impl; [|exact B5]. cbn. intros c [Hi Hc]. split; [now right | exact Hc].
Qed.

(** X26.  Every identifier is processed once, in order.  The success count is the
    number of items whose file list could be read, whatever became of their
    deletions; the error count adds the failed deletions to the items whose
    list could not be read, so the two counts together exceed the number of
    items by the number of failed deletions. *)
Theorem flyer_counts (w : World) (identifiers : list string) :
  let r := delete_bad_flyer_files World get_files ia_delete w identifiers in
  processed (log World r) = identifiers
  /\ success_count World r + listing_failures (log World r) = List.length identifiers
  /\ error_count World r = listing_failures (log World r) + delete_failures (log World r)
  /\ success_count World r + error_count World r
     = List.length identifiers + delete_failures (log World r).
Proof.
  destruct (process_loop_log identifiers (mkRun World w 0 0 []))
    as (l & H1 & H2 & H3 & H4 & _).
  cbv zeta in *. unfold delete_bad_flyer_files.
  cbn [log success_count error_count app] in *. rewrite H1.
  repeat split; try assumption; lia.
Qed.

(** X27.  The cleaner runs [ia delete] only on items of its list and only on file
    names that contain the timestamp marker, and it reports every command
    it ran as deleted or failed. *)
Theorem flyer_commands (w : World) (identifiers : list string) :
  let r := delete_bad_flyer_files World get_files ia_delete w identifiers in
  Forall (fun c => In (fst c) identifiers
                   /\ contains "T00:00:00Z-flyer_itemimage." (snd c) = true)
         (commands (log World r))
  /\ map snd (commands (log World r)) = reported (log World r).
Proof.
  destruct (process_loop_log identifiers (mkRun World w 0 0 []))
    as (l & H1 & _ & _ & _ & H5 & H6).
  cbv zeta in *. unfold delete_bad_flyer_files.
  cbn [log app] in *. rewrite H1. split; [|exact H6].
  eapply Forall_impl; [|exact H5]. cbn. intros c [Hi Hc]. split; [exact Hi|].
  unfold is_bad in Hc. now apply andb_true_iff in Hc as [_ Hc].
Qed.

End Runs.

End FlyerProps.

(** ** The search for event links *)

Module FacebookProps.
Import Facebook Apply.

Lemma in_list_In (x : string) (l : list string) : in_list x l = true <-> In x l.
Proof.
  unfold in_list. rewrite existsb_exists. split.
  - intros (y & Hy & He). apply String.eqb_eq in He. now subst.
  - intro H. exists x. split; [exact H | apply String.eqb_refl].
Qed.

Definition add_key (keys : list string) (k : string) : list string :=
  if in_list k keys then keys else (keys ++ [k])%list.

Lemma fromkeys_snoc (l : list string) (x : string) :
  fromkeys (l ++ [x]) = add_key (fromkeys l) x.
Proof. unfold fromkeys. now rewrite fold_left_app. Qed.

Lemma fromkeys_spec (l : list string) :
  NoDup (fromkeys l) /\ (forall x, In x (fromkeys l) <-> In x l).
Proof.
  induction l as [|x l (IH1 & IH2)] using rev_ind.
  - split; [constructor | reflexivity].
  - rewrite fromkeys_snoc. unfold add_key.
    destruct (in_list x (fromkeys l)) eqn:E.
    + apply in_list_In in E. split; [exact IH1|].
      intro y. rewrite in_app_iff, IH2. cbn [In]. split; [tauto|].
      intros [H | [<- | []]]; [exact H | now apply IH2].
    + split.
      * apply NoDup_app; [exact IH1 | repeat constructor; intros [] |].
        intros y Hy [<- | []]. apply in_list_In in Hy. congruence.
      * intro y. rewrite !in_app_iff, IH2. reflexivity.
Qed.

(** A list without duplicates is its own key list. *)
Lemma fromkeys_nodup (l : list string) : NoDup l -> fromkeys l = l.
Proof.
  induction l as [|x l IH] using rev_ind; intro H; [reflexivity|].
  rewrite fromkeys_snoc. apply NoDup_remove in H as [H Hx]. rewrite app_nil_r in H, Hx.
  rewrite (IH H). unfold add_key.
  destruct (in_list x l) eqn:E; [apply in_list_In in E; contradiction | reflexivity].
Qed.

(** The first occurrence decides the place: the head stays in front and the
    rest follows without it. *)
Lemma fromkeys_cons (x : string) (l : list string) :
  fromkeys (x :: l) = x :: filter (fun y => negb (String.eqb y x)) (fromkeys l).
Proof.
  induction l as [|y l IH] using rev_ind; [reflexivity|].
  change (x :: l ++ [y])%list with ((x :: l) ++ [y])%list.
  rewrite !fromkeys_snoc, IH. unfold add_key. cbn [in_list existsb].
  destruct (String.eqb_spec y x) as [-> | Hne].
  - cbn [orb]. destruct (in_list x (fromkeys l)); [reflexivity|].
    rewrite filter_app. cbn. rewrite String.eqb_refl. cbn. now rewrite app_nil_r.
  - assert (He : existsb (String.eqb y) (filter (fun z => negb (String.eqb z x)) (fromkeys l))
                 = in_list y (fromkeys l)).
    { unfold in_list. generalize (fromkeys l). intro k.
      induction k as [|z k IHk]; [reflexivity|]. cbn.
      destruct (String.eqb_spec z x) as [-> | Hz]; cbn.
      - rewrite IHk. destruct (String.eqb_spec y x); [contradiction | reflexivity].
      - now rewrite IHk. }
    replace (String.eqb y x) with false by (symmetry; now apply String.eqb_neq).
    cbn [orb]. fold (in_list y (filter (fun z => negb (String.eqb z x)) (fromkeys l))).
    unfold in_list at 1. rewrite He.
    destruct (in_list y (fromkeys l)); [reflexivity|].
    rewrite filter_app. cbn.
    replace (String.eqb y x) with false by (symmetry; now apply String.eqb_neq).
    reflexivity.
Qed.

Section Links.

Variable finditer : nat -> string -> list string.

Lemma links_loop_In (patterns : list nat) (text : string) (acc : list string) (link : string) :
  In link (links_loop finditer patterns text acc)
  <-> In link acc \/ exists i, In i patterns /\ In link (finditer i text).
Proof.
  revert acc. induction patterns as [|p patterns IH]; intro acc; cbn [links_loop].
  - split; [tauto | intros [H | (i & [] & _)]; exact H].
  - rewrite IH. destruct (finditer p text) as [|m ms] eqn:E.
    + split.
      * intros [H | (i & Hi & H)]; [tauto | right; exists i; cbn; tauto].
      * intros [H | (i & [<- | Hi] & H)]; [tauto | rewrite E in H; destruct H | eauto].
    + rewrite in_app_iff, <- E. split.
      * intros [[H | H] | (i & Hi & H)]; [tauto | right; exists p; cbn; tauto
                                         | right; exists i; cbn; tauto].
      * intros [H | (i & [<- | Hi] & H)]; [tauto | tauto | eauto].
Qed.

(** X28.  The links found in a text are the matches of the seven patterns, each
    once; a value that is empty or not a string has none. *)
Theorem links_found (text : value) (link : string) :
  NoDup (find_facebook_links finditer text)
  /\ (In link (find_facebook_links finditer text) <->
      exists s i, text = Str s /\ s <> "" /\ i < n_patterns /\ In link (finditer i s))
  /\ fromkeys (find_facebook_links finditer text) = find_facebook_links finditer text.
Proof.
  assert (Hnd : NoDup (find_facebook_links finditer text)).
  { unfold find_facebook_links. destruct text as [[|c s]|b]; try constructor.
    apply fromkeys_spec. }
  split; [exact Hnd|]. split; [|now apply fromkeys_nodup].
  unfold find_facebook_links. destruct text as [[|c s]|b].
  - split; [contradiction | intros (s & i & [= <-] & H & _); congruence].
  - rewrite (proj2 (fromkeys_spec _)), links_loop_In. cbn [In]. split.
    + intros [[] | (i & Hi & H)]. exists (String c s), i.
      apply in_seq in Hi. repeat split; [discriminate | lia | exact H].
    + intros (s' & i & [= <-] & _ & Hi & H). right. exists i. split; [|exact H].
      apply in_seq. lia.
  - split; [contradiction | intros (s & i & [=] & _)].
Qed.

(** The links of one field of an item. *)
Definition field_links (item : doc) (field : string) : list string :=
  find_facebook_links finditer (doc_get field (Str "") item).

Lemma scan_field_eq (field : string) (item : doc) (info : facebook_info) :
  scan_field finditer field item info
  = match field_links item field with
    | [] => info
    | links => mkInfo (info_item info) (facebook_links_found info ++ links)%list
                      (found_in_fields info ++ [field])%list (summary info)
    end.
Proof.
  unfold scan_field, field_links.
  destruct (doc_get field (Str "") item) as [[|c s]|[|]]; reflexivity.
Qed.

Definition searched_fields : list string := ["description"; "fb"; "facebook"].

Definition has_links (item : doc) (field : string) : bool :=
  match field_links item field with [] => false | _ => true end.

Lemma search_item_eq (item : doc) :
  search_item finditer item
  = match fromkeys (flat_map (field_links item) searched_fields) with
    | [] => None
    | links =>
        Some (mkInfo item links (filter (has_links item) searched_fields)
                ("Found " ++ str_nat (List.length links) ++ " Facebook link(s) in: "
                 ++ join (filter (has_links item) searched_fields)))
    end.
Proof.
  unfold search_item. rewrite !scan_field_eq.
  unfold searched_fields, has_links. cbn [flat_map filter].
  destruct (field_links item "description") as [|a la];
    destruct (field_links item "fb") as [|b lb];
    destruct (field_links item "facebook") as [|c lc];
    cbn [facebook_links_found found_in_fields info_item summary app];
    rewrite ?app_nil_r, <- ?app_assoc; cbn [app];
    try reflexivity;
    match goal with
    | |- context [fromkeys ?l] => destruct (fromkeys l); reflexivity
    end.
Qed.

Lemma search_items_In (items : list doc) (info : facebook_info) :
  In info (search_items_for_facebook_events finditer items)
  <-> exists item, In item items /\ search_item finditer item = Some info.
Proof.
  induction items as [|x items IH]; cbn [search_items_for_facebook_events In].
  - split; [contradiction | intros (? & [] & _)].
  - destruct (search_item finditer x) as [i|] eqn:Hx; cbn [In]; rewrite IH; split.
    + intros [<- | (y & Hy & H)]; eauto.
    + intros (y & [<- | Hy] & H); [left; congruence | eauto].
    + intros (y & Hy & H); eauto.
    + intros (y & [<- | Hy] & H); [congruence | eauto].
Qed.

(** X29.  Every reported item comes from the list and has at least one link; its
    links are those of its description, fb and facebook fields, each once;
    the fields named are the ones that had a link.  An item of the list is
    reported exactly when one of the three fields has a link. *)
Theorem events_found (items : list doc) :
  (forall info, In info (search_items_for_facebook_events finditer items) ->
     In (info_item info) items
     /\ facebook_links_found info <> []
     /\ NoDup (facebook_links_found info)
     /\ (forall link, In link (facebook_links_found info) <->
           exists field, In field searched_fields
                         /\ In link (field_links (info_item info) field))
     /\ found_in_fields info = filter (has_links (info_item info)) searched_fields)
  /\ (forall item, In item items ->
        (exists info, In info (search_items_for_facebook_events finditer items)
                      /\ info_item info = item)
        <-> exists field, In field searched_fields /\ has_links item field = true).
Proof.
  split.
  - intros info Hin. apply search_items_In in Hin as (item & Hitem & Hs).
    rewrite search_item_eq in Hs.
    destruct (fromkeys (flat_map (field_links item) searched_fields)) as [|l ls] eqn:E;
      [discriminate|].
    injection Hs as <-. cbn [info_item facebook_links_found found_in_fields].
    destruct (fromkeys_spec (flat_map (field_links item) searched_fields)) as [Hnd Hiff].
    rewrite E in Hnd, Hiff.
    split; [exact Hitem|]. split; [discriminate|]. split; [exact Hnd|]. split; [|reflexivity].
    intro link. rewrite Hiff, in_flat_map. reflexivity.
  - intros item Hitem. split.
    + intros (info & Hin & <-). apply search_items_In in Hin as (item & _ & Hs).
      rewrite search_item_eq in Hs.
      destruct (fromkeys (flat_map (field_links item) searched_fields)) as [|l ls] eqn:E;
        [discriminate|].
      injection Hs as <-. cbn [info_item].
      assert (Hl : In l (flat_map (field_links item) searched_fields)).
      { apply (proj2 (fromkeys_spec _)). rewrite E. now left. }
      apply in_flat_map in Hl as (field & Hf & Hl). exists field. split; [exact Hf|].
      unfold has_links. destruct (field_links item field); [destruct Hl | reflexivity].
    + intros (field & Hf & Hl).
      destruct (search_item finditer item) as [info|] eqn:Hs.
      * exists info. split; [apply search_items_In; eauto|].
        rewrite search_item_eq in Hs.
        destruct (fromkeys _); [discriminate | now injection Hs as <-].
      * exfalso. rewrite search_item_eq in Hs.
        destruct (fromkeys (flat_map (field_links item) searched_fields)) as [|l ls] eqn:E;
          [|discriminate].
        unfold has_links in Hl. destruct (field_links item field) as [|m ms] eqn:Em;
          [discriminate|].
        assert (Hm : In m (fromkeys (flat_map (field_links item) searched_fields))).
        { apply fromkeys_spec. apply in_flat_map. exists field. rewrite Em. cbn. tauto. }
        rewrite E in Hm. destruct Hm.
Qed.

End Links.

(** *** Paging through the search results *)

Section Paging.

Variable Doc : Type.
Variable fetch : string -> nat -> outcome (list Doc).

Lemma firstn_short {A} (n : nat) (l : list A) :
  List.length (firstn n l) < n -> firstn n l = l.
Proof.
  intro H. apply firstn_all2. rewrite length_firstn in H. lia.
Qed.

Lemma pages_loop_all (username : string) (docs : list Doc) (fuel start : nat)
  (all_items : list Doc) :
  (forall s, fetch username s
             = Returned (firstn max_items_per_request (skipn s docs))) ->
  (all_items ++ skipn start docs)%list = docs ->
  List.length (skipn start docs) < fuel * max_items_per_request ->
  pages_loop Doc fetch fuel username start all_items = Some docs.
Proof.
  intro Hfetch.
  assert (Hpos : 0 < max_items_per_request) by (unfold max_items_per_request; lia).
  revert start all_items.
  induction fuel as [|fuel IH]; intros start all_items Hacc Hfuel; [simpl in Hfuel; lia|].
  cbn [pages_loop]. rewrite Hfetch.
  set (page := skipn start docs) in *.
  destruct (firstn max_items_per_request page) as [|d ds] eqn:Hp.
  - assert (Hnil : page = []).
    { destruct page; [reflexivity|].
      destruct max_items_per_request; [lia | discriminate Hp]. }
    rewrite Hnil, app_nil_r in Hacc. now subst.
  - rewrite <- Hp.
    destruct (Nat.ltb_spec (List.length (firstn max_items_per_request page))
                max_items_per_request) as [Hlt | Hge].
    + rewrite (firstn_short _ _ Hlt). now rewrite Hacc.
    + apply IH.
      * rewrite <- app_assoc, Nat.add_comm, <- skipn_skipn. fold page.
        now rewrite firstn_skipn.
      * rewrite Nat.add_comm, <- skipn_skipn. fold page.
        rewrite length_skipn. rewrite length_firstn in Hge.
        rewrite Nat.mul_succ_l in Hfuel. lia.
Qed.

(** X30.  When the archive serves a fixed list of documents in pages of at most
    1000, the loop returns the whole list, each document once and in order,
    after one request per page. *)
Theorem pages_complete (access_key username : string) (docs : list Doc) (fuel : nat) :
  username <> "" ->
  (forall s, fetch username s
             = Returned (firstn max_items_per_request (skipn s docs))) ->
  List.length docs < fuel * max_items_per_request ->
  get_user_items Doc fetch fuel access_key (Some username) = Returned (Some docs).
Proof.
  intros Hu Hfetch Hfuel. unfold get_user_items, resolve_username.
  rewrite (truthy_some username Hu). f_equal. f_equal.
  apply pages_loop_all; [exact Hfetch | reflexivity | exact Hfuel].
Qed.

End Paging.

(** An archive with 1500 documents, numbered from 0. *)
Definition numbered (username : string) (start : nat) : outcome (list nat) :=
  Returned (firstn max_items_per_request (skipn start (seq 0 1500))).

Lemma pages_complete_witness :
  get_user_items nat numbered 2 "key" (Some "uploader") = Returned (Some (seq 0 1500)).
Proof.
  apply (pages_complete nat numbered "key" "uploader" (seq 0 1500) 2).
  - discriminate.
  - reflexivity.
  - rewrite length_seq. unfold max_items_per_request. lia.
Defined.

End FacebookProps.
